(** * ClipStream: a shallow embedding of the video-sharing backend

    The development follows the layout of the application package:
    [models.py] (tables and their constraints), [schemas.py] (response
    shapes), [database.py] (sessions and transactions) and [main.py]
    (the request handlers).  Tables are lists of rows in insertion order,
    a session is an explicit state threaded through a small state and
    exception monad, and every handler is an executable function. *)

From Stdlib Require Import ZArith List String Ascii Bool Lia.
From Stdlib Require Import Sorting.Sorted Sorting.Permutation.
Import ListNotations.

Open Scope string_scope.
Open Scope Z_scope.

(* ===================================================================== *)
(** * Python and SQL text primitives *)
(* ===================================================================== *)

(** A [str] is a sequence of characters; a character is a code point
    below 256.  The functions below are Python's [str.isspace],
    [str.strip], [str.split] and [str.lower] on that range, and SQLite's
    built-in [lower], which folds the ASCII letters only. *)
Module Str.

Definition code (c : ascii) : nat := nat_of_ascii c.

Definition between (lo hi n : nat) : bool :=
    (Nat.leb lo n && Nat.leb n hi)%bool.

  (** [str.isspace] for one character: TAB..CR, FS..US, SPACE, NEL, NBSP. *)
Definition isspace (c : ascii) : bool :=
    (between 9 13 (code c) || between 28 32 (code c)
     || Nat.eqb (code c) 133 || Nat.eqb (code c) 160)%bool.

Fixpoint lstrip (s : string) : string :=
    match s with
    | EmptyString => EmptyString
    | String c r => if isspace c then lstrip r else s
    end.

Fixpoint rstrip (s : string) : string :=
    match s with
    | EmptyString => EmptyString
    | String c r =>
        match rstrip r with
        | EmptyString => if isspace c then EmptyString else String c EmptyString
        | r' => String c r'
        end
    end.

  (** [s.strip()] *)
Definition strip (s : string) : string := rstrip (lstrip s).

  (** [s.split(sep)] for a one-character separator: never empty,
      [''.split(',') == ['']]. *)
Fixpoint split (sep : ascii) (s : string) : list string :=
    match s with
    | EmptyString => [EmptyString]
    | String c r =>
        if Ascii.eqb c sep then EmptyString :: split sep r
        else match split sep r with
             | [] => [String c EmptyString]
             | h :: t => String c h :: t
             end
    end.

  (** Truth value of a string: the empty string is falsy. *)
Definition truthy (s : string) : bool :=
    match s with EmptyString => false | String _ _ => true end.

Definition shift32 (c : ascii) : ascii := ascii_of_nat (code c + 32).

  (** SQLite [lower()]: ASCII letters only. *)
Definition sql_lower_char (c : ascii) : ascii :=
    if between 65 90 (code c) then shift32 c else c.

  (** Python [str.lower()] on one character: ASCII letters and the
      Latin-1 capitals (all of 192..222 except the multiplication sign). *)
Definition py_lower_char (c : ascii) : ascii :=
    if (between 65 90 (code c)
        || (between 192 222 (code c) && negb (Nat.eqb (code c) 215)))%bool
    then shift32 c else c.

Fixpoint map_chars (f : ascii -> ascii) (s : string) : string :=
    match s with
    | EmptyString => EmptyString
    | String c r => String (f c) (map_chars f r)
    end.

Definition sql_lower : string -> string := map_chars sql_lower_char.
Definition py_lower : string -> string := map_chars py_lower_char.

  (** Every character is a comma or white space. *)
Fixpoint blank (s : string) : bool :=
    match s with
    | EmptyString => true
    | String c r => ((Ascii.eqb c "," || isspace c) && blank r)%bool
    end.

End Str.

(* ===================================================================== *)
(** * models.py: the relational schema *)
(* ===================================================================== *)

(** Times are seconds on the server clock ([datetime.utcnow]). *)
Definition datetime := Z.

Module User.
Record t := mk
    { id : Z; username : string; password_hash : string; created_at : datetime }.
End User.

Module Genre.
Record t := mk { id : Z; name : string }.
End Genre.

Module Video.
Record t := mk
    { id : Z; title : string; description : option string; filename : string;
      created_at : datetime; owner_id : Z }.
End Video.

Module Comment.
Record t := mk
    { id : Z; content : string; created_at : datetime; author_id : Z; video_id : Z }.
End Comment.

Module VideoLike.
Record t := mk { id : Z; user_id : Z; video_id : Z; created_at : datetime }.
End VideoLike.

Module Subscription.
Record t := mk
    { id : Z; subscriber_id : Z; channel_id : Z; created_at : datetime }.
End Subscription.

(** The database: one list of rows per table.  [video_genre] is the
    association table, a row being [(video_id, genre_id)]. *)
Record Tables := mkTables
  { users : list User.t;
    genres : list Genre.t;
    videos : list Video.t;
    video_genre : list (Z * Z);
    comments : list Comment.t;
    video_likes : list VideoLike.t;
    subscriptions : list Subscription.t }.

Definition empty_db : Tables := mkTables [] [] [] [] [] [] [].

Definition set_users (t : Tables) (x : list User.t) : Tables :=
  mkTables x (genres t) (videos t) (video_genre t) (comments t) (video_likes t) (subscriptions t).
Definition set_genres (t : Tables) (x : list Genre.t) : Tables :=
  mkTables (users t) x (videos t) (video_genre t) (comments t) (video_likes t) (subscriptions t).
Definition set_videos (t : Tables) (x : list Video.t) : Tables :=
  mkTables (users t) (genres t) x (video_genre t) (comments t) (video_likes t) (subscriptions t).
Definition set_video_genre (t : Tables) (x : list (Z * Z)) : Tables :=
  mkTables (users t) (genres t) (videos t) x (comments t) (video_likes t) (subscriptions t).
Definition set_comments (t : Tables) (x : list Comment.t) : Tables :=
  mkTables (users t) (genres t) (videos t) (video_genre t) x (video_likes t) (subscriptions t).
Definition set_video_likes (t : Tables) (x : list VideoLike.t) : Tables :=
  mkTables (users t) (genres t) (videos t) (video_genre t) (comments t) x (subscriptions t).
Definition set_subscriptions (t : Tables) (x : list Subscription.t) : Tables :=
  mkTables (users t) (genres t) (videos t) (video_genre t) (comments t) (video_likes t) x.

(** An [Integer] primary key left unset is filled by the store with one
    more than the largest key in the table. *)
Definition next_id (ids : list Z) : Z := 1 + fold_right Z.max 0 ids.

(** [Query.first()] *)
Definition first {A : Type} (rows : list A) : option A := hd_error rows.

Definition pair_eqb (a b : Z * Z) : bool :=
  ((fst a =? fst b) && (snd a =? snd b))%bool.

(** The columns of the two unique constraints. *)
Definition like_key (l : VideoLike.t) : Z * Z := (VideoLike.user_id l, VideoLike.video_id l).
Definition subscription_key (x : Subscription.t) : Z * Z :=
  (Subscription.subscriber_id x, Subscription.channel_id x).

(** A row with key [k] exists; the table without the row whose primary
    key is that of [x]. *)
Definition has {A} (key : A -> Z * Z) (k : Z * Z) (rows : list A) : bool :=
  existsb (fun x => pair_eqb (key x) k) rows.

Definition without {A} (id : A -> Z) (x : A) (rows : list A) : list A :=
  filter (fun y => negb (id y =? id x)) rows.

(* ===================================================================== *)
(** * Exceptions and the session monad (database.py) *)
(* ===================================================================== *)

Inductive Exception : Type :=
| HTTPException (status_code : Z) (detail : string)
| IntegrityError (constraint : string)
| InvalidRequestError
| RequestValidationError
| ValidationError.

Module status.
Definition HTTP_400_BAD_REQUEST : Z := 400.
Definition HTTP_401_UNAUTHORIZED : Z := 401.
Definition HTTP_404_NOT_FOUND : Z := 404.
End status.

Inductive Result (A : Type) : Type :=
| Ok (a : A)
| Raise (e : Exception).
Arguments Ok {A} a.
Arguments Raise {A} e.

(** A session holds the committed database it is bound to ([store]), the
    view of its open transaction ([txn]: the store plus the writes
    emitted so far) and whether it has been closed. *)
Record Session := mkSession { store : Tables; txn : Tables; closed : bool }.

Definition M (A : Type) : Type := Session -> Session * Result A.

Definition ret {A} (a : A) : M A := fun s => (s, Ok a).
Definition raise {A} (e : Exception) : M A := fun s => (s, Raise e).
Definition bind {A B} (m : M A) (k : A -> M B) : M B :=
  fun s => match m s with
           | (s', Ok a) => k a s'
           | (s', Raise e) => (s', Raise e)
           end.

Declare Scope session_scope.
Delimit Scope session_scope with session.
Notation "x <- m ;; k" := (bind m (fun x => k))
  (at level 100, m at next level, right associativity) : session_scope.
Notation "m ;; k" := (bind m (fun _ => k))
  (at level 100, right associativity) : session_scope.
Open Scope session_scope.

(** [SessionLocal()] *)
Definition SessionLocal (db : Tables) : Session := mkSession db db false.

(** A read of the transaction's view. *)
Definition query {A} (f : Tables -> A) : M A := fun s => (s, Ok (f (txn s))).

(** A write inside the transaction. *)
Definition emit (f : Tables -> Tables) : M unit :=
  fun s => (mkSession (store s) (f (txn s)) (closed s), Ok tt).

(** [session.flush()]: the handlers never read a table between [add] and
    the flush that sends it, so [add] and [delete] below emit their
    statement at once and a flush has nothing left to send. *)
Definition flush : M unit := ret tt.

(** [session.commit()] *)
Definition commit : M unit :=
  fun s => (mkSession (txn s) (txn s) (closed s), Ok tt).

(** [session.rollback()] *)
Definition rollback (s : Session) : Session :=
  mkSession (store s) (store s) (closed s).

(** [session.close()]: the open transaction is abandoned. *)
Definition close (s : Session) : Session :=
  mkSession (store s) (store s) true.

(** [session_scope] of database.py, applied to the body of its [with]
    block: commit when the body returns, roll back and re-raise when it
    (or the commit) raises, close in every case. *)
Definition session_scope {A} (body : M A) (db : Tables) : Session * Result A :=
  let session := SessionLocal db in
  match body session with
  | (s1, Ok a) =>
      match commit s1 with
      | (s2, Ok _) => (close s2, Ok a)
      | (s2, Raise e) => (close (rollback s2), Raise e)
      end
  | (s1, Raise e) => (close (rollback s1), Raise e)
  end.

(** [get_db] of main.py, the dependency every handler receives its
    session from: yield a fresh session and close it afterwards. *)
Definition get_db {A} (handler : M A) (db : Tables) : Session * Result A :=
  let db_session := SessionLocal db in
  match handler db_session with
  | (s1, r) => (close s1, r)
  end.

(** [for x in xs] collecting the results, stopping at the first exception. *)
Fixpoint for_each {A B} (f : A -> M B) (xs : list A) : M (list B) :=
  match xs with
  | [] => ret []
  | x :: rest => y <- f x ;; ys <- for_each f rest ;; ret (y :: ys)
  end.

(* ===================================================================== *)
(** * Writes, with the constraints models.py declares *)
(* ===================================================================== *)

(** [db.add(User(...))]: [username] is declared [unique]. *)
Definition add_User (username password_hash : string) (now : datetime) : M User.t :=
  fun s =>
    let t := txn s in
    if existsb (fun u => String.eqb (User.username u) username) (users t)
    then (s, Raise (IntegrityError "users.username"))
    else
      let user := User.mk (next_id (map User.id (users t))) username password_hash now in
      (mkSession (store s) (set_users t (users t ++ [user])) (closed s), Ok user).

(** [db.add(Genre(name=name))]: [name] is declared [unique]. *)
Definition add_Genre (name : string) : M Genre.t :=
  fun s =>
    let t := txn s in
    if existsb (fun g => String.eqb (Genre.name g) name) (genres t)
    then (s, Raise (IntegrityError "genres.name"))
    else
      let genre := Genre.mk (next_id (map Genre.id (genres t))) name in
      (mkSession (store s) (set_genres t (genres t ++ [genre])) (closed s), Ok genre).

(** One row of [video_genre]; both columns form the primary key. *)
Definition add_video_genre (row : Z * Z) : M unit :=
  fun s =>
    let t := txn s in
    if existsb (pair_eqb row) (video_genre t)
    then (s, Raise (IntegrityError "video_genre.video_id, video_genre.genre_id"))
    else (mkSession (store s) (set_video_genre t (video_genre t ++ [row])) (closed s), Ok tt).

(** The association rows of a new video: the flush sends one [INSERT]
    into [video_genre] per element of the [genres] collection, in order;
    an element that occurs twice is sent twice. *)
Fixpoint link_genres (video_id : Z) (video_genres : list Genre.t) : M unit :=
  match video_genres with
  | [] => ret tt
  | genre :: rest =>
      add_video_genre (video_id, Genre.id genre) ;;
      link_genres video_id rest
  end.

(** [db.add(video)] for a new video carrying its [genres] collection. *)
Definition add_Video (title : string) (description : option string)
    (filename : string) (owner : User.t) (video_genres : list Genre.t)
    (now : datetime) : M Video.t :=
  video <- (fun s =>
              let t := txn s in
              let video := Video.mk (next_id (map Video.id (videos t)))
                             title description filename now (User.id owner) in
              (mkSession (store s) (set_videos t (videos t ++ [video])) (closed s),
               Ok video)) ;;
  link_genres (Video.id video) video_genres ;;
  ret video.

(** [db.add(Comment(...))] *)
Definition add_Comment (content : string) (author : User.t) (video : Video.t)
    (now : datetime) : M Comment.t :=
  fun s =>
    let t := txn s in
    let comment := Comment.mk (next_id (map Comment.id (comments t)))
                     content now (User.id author) (Video.id video) in
    (mkSession (store s) (set_comments t (comments t ++ [comment])) (closed s),
     Ok comment).

(** [db.add(VideoLike(...))]: [uq_video_like] on [(user_id, video_id)]. *)
Definition add_VideoLike (user_id video_id : Z) (now : datetime) : M VideoLike.t :=
  fun s =>
    let t := txn s in
    if has like_key (user_id, video_id) (video_likes t)
    then (s, Raise (IntegrityError "uq_video_like"))
    else
      let like := VideoLike.mk (next_id (map VideoLike.id (video_likes t)))
                    user_id video_id now in
      (mkSession (store s) (set_video_likes t (video_likes t ++ [like])) (closed s),
       Ok like).

(** [db.delete(like)]: delete by primary key. *)
Definition delete_VideoLike (like : VideoLike.t) : M unit :=
  emit (fun t => set_video_likes t (without VideoLike.id like (video_likes t))).

(** [db.add(Subscription(...))]: [uq_subscription] on
    [(subscriber_id, channel_id)]. *)
Definition add_Subscription (subscriber_id channel_id : Z) (now : datetime)
    : M Subscription.t :=
  fun s =>
    let t := txn s in
    if has subscription_key (subscriber_id, channel_id) (subscriptions t)
    then (s, Raise (IntegrityError "uq_subscription"))
    else
      let subscription :=
        Subscription.mk (next_id (map Subscription.id (subscriptions t)))
          subscriber_id channel_id now in
      (mkSession (store s) (set_subscriptions t (subscriptions t ++ [subscription]))
         (closed s), Ok subscription).

(** [db.delete(subscription)] *)
Definition delete_Subscription (subscription : Subscription.t) : M unit :=
  emit (fun t => set_subscriptions t
          (without Subscription.id subscription (subscriptions t))).

(** [db.refresh(obj)]: reload the row by primary key. *)
Definition refresh {A} (table : Tables -> list A) (pk : A -> Z) (obj : A) : M A :=
  row <- query (fun t => first (filter (fun r => pk r =? pk obj) (table t))) ;;
  match row with
  | Some r => ret r
  | None => raise InvalidRequestError
  end.

(** Relationship loads. *)
Definition Video_owner (t : Tables) (video : Video.t) : option User.t :=
  first (filter (fun u => User.id u =? Video.owner_id video) (users t)).

Definition Video_genres (t : Tables) (video : Video.t) : list Genre.t :=
  flat_map (fun vg =>
    if fst vg =? Video.id video
    then filter (fun g => Genre.id g =? snd vg) (genres t)
    else []) (video_genre t).

Definition Comment_author (t : Tables) (comment : Comment.t) : option User.t :=
  first (filter (fun u => User.id u =? Comment.author_id comment) (users t)).

(* ===================================================================== *)
(** * schemas.py *)
(* ===================================================================== *)

Module Token.
Record t := mk { access_token : string; token_type : string }.
End Token.

Module UserCreate.
Record t := mk { username : string; password : string }.
  (** [min_length=3, max_length=50] and [min_length=6]. *)
Definition valid (x : t) : bool :=
    (Nat.leb 3 (String.length (username x))
     && Nat.leb (String.length (username x)) 50
     && Nat.leb 6 (String.length (password x)))%bool.
End UserCreate.

Module UserOut.
Record t := mk { id : Z; username : string; created_at : datetime }.
Definition from_orm (u : User.t) : t :=
    mk (User.id u) (User.username u) (User.created_at u).
End UserOut.

Module GenreOut.
Record t := mk { id : Z; name : string }.
Definition from_orm (g : Genre.t) : t := mk (Genre.id g) (Genre.name g).
End GenreOut.

Module CommentOut.
Record t := mk
    { id : Z; content : string; created_at : datetime; author : UserOut.t }.
End CommentOut.

Module VideoOut.
Record t := mk
    { id : Z; title : string; description : option string; filename : string;
      created_at : datetime; owner : UserOut.t; genres : list GenreOut.t;
      likes : Z }.
End VideoOut.

Module CommentCreate.
Record t := mk { content : string }.
  (** [min_length=1, max_length=500] *)
Definition valid (x : t) : bool :=
    (Nat.leb 1 (String.length (content x))
     && Nat.leb (String.length (content x)) 500)%bool.
End CommentCreate.

Module RecommendationOut.
Record t := mk { video : VideoOut.t; score : Z }.
End RecommendationOut.

(** The body [{"detail": message}] of the toggle endpoints. *)
Module Detail.
Record t := mk { detail : string }.
End Detail.

(* ===================================================================== *)
(** * Query combinators *)
(* ===================================================================== *)

(** [ORDER BY]: a stable insertion sort; [before x y] says that [x] may
    stand in front of [y].  Rows the ordering does not separate keep the
    order the query produced them in. *)
Fixpoint insert_by {A} (before : A -> A -> bool) (x : A) (rows : list A) : list A :=
  match rows with
  | [] => [x]
  | y :: rest => if before x y then x :: y :: rest else y :: insert_by before x rest
  end.

Definition order_by {A} (before : A -> A -> bool) (rows : list A) : list A :=
  fold_right (insert_by before) [] rows.

(** [OFFSET n]: a negative offset skips nothing. *)
Definition offset {A} (n : Z) (rows : list A) : list A := skipn (Z.to_nat n) rows.

(** [LIMIT n]: a negative limit is no limit. *)
Definition limit {A} (n : Z) (rows : list A) : list A :=
  if n <? 0 then rows else firstn (Z.to_nat n) rows.

(** [DISTINCT] on a column of integers. *)
Definition distinct (xs : list Z) : list Z := nodup Z.eq_dec xs.

(** [GROUP BY key]: the first row of every group, in order of first
    appearance ... *)
Fixpoint group_heads {A} (key : A -> Z) (seen : list Z) (rows : list A) : list A :=
  match rows with
  | [] => []
  | r :: rest =>
      if existsb (Z.eqb (key r)) seen then group_heads key seen rest
      else r :: group_heads key (key r :: seen) rest
  end.

(** ... paired with [count(...)] over the group. *)
Definition group_by_count {A} (key : A -> Z) (rows : list A) : list (A * Z) :=
  map (fun r => (r, Z.of_nat (List.length (filter (fun r' => key r' =? key r) rows))))
      (group_heads key [] rows).

(* ===================================================================== *)
(** * main.py: the handlers *)
(* ===================================================================== *)

(** [serialize_video(video, db)] *)
Definition serialize_video (video : Video.t) : M VideoOut.t :=
  likes <- query (fun t =>
             Z.of_nat (List.length (filter (fun l => VideoLike.video_id l =? Video.id video)
                                 (video_likes t)))) ;;
  video <- refresh videos Video.id video ;;
  owner <- query (fun t => Video_owner t video) ;;
  video_genres <- query (fun t => Video_genres t video) ;;
  match owner with
  | None => raise ValidationError
  | Some owner =>
      ret (VideoOut.mk (Video.id video) (Video.title video) (Video.description video)
             (Video.filename video) (Video.created_at video)
             (UserOut.from_orm owner) (map GenreOut.from_orm video_genres) likes)
  end.

(** [genre_names = [g.strip() for g in genres.split(",") if g.strip()]] *)
Definition genre_names (genres : string) : list string :=
  map Str.strip (filter (fun g => Str.truthy (Str.strip g)) (Str.split "," genres)).

(** The loop of [upload_video] over [genre_names]; [video_genres] is the
    [video.genres] collection built so far. *)
Fixpoint collect_genres (names : list string) (video_genres : list Genre.t)
    : M (list Genre.t) :=
  match names with
  | [] => ret video_genres
  | name :: rest =>
      found <- query (fun t =>
                 first (filter (fun g => String.eqb (Str.sql_lower (Genre.name g))
                                                    (Str.py_lower name))
                          (genres t))) ;;
      genre <- match found with
               | Some genre => ret genre
               | None => genre <- add_Genre name ;; flush ;; ret genre
               end ;;
      collect_genres rest (video_genres ++ [genre])%list
  end.

(** [upload_video]; [uuid4] is the freshly drawn [uuid.uuid4()] and
    [file_filename] the client's file name.  The copy of the uploaded
    bytes into the [uploads] directory touches no table and is not part of
    the session. *)
Definition upload_video (title : string) (description : option string)
    (genres : string) (file_filename : string) (uuid4 : string) (now : datetime)
    (current_user : User.t) : M VideoOut.t :=
  let filename := (uuid4 ++ "_" ++ file_filename)%string in
  video_genres <- collect_genres (genre_names genres) [] ;;
  video <- add_Video title description filename current_user video_genres now ;;
  commit ;;
  video <- refresh videos Video.id video ;;
  serialize_video video.

(** [list_videos] *)
Definition list_videos (skip lim : Z) : M (list VideoOut.t) :=
  vs <- query (fun t =>
          limit lim (offset skip
            (order_by (fun a b => Video.created_at b <=? Video.created_at a)
               (videos t)))) ;;
  for_each serialize_video vs.

(** [get_video] *)
Definition get_video (video_id : Z) : M VideoOut.t :=
  video <- query (fun t => first (filter (fun v => Video.id v =? video_id) (videos t))) ;;
  match video with
  | None => raise (HTTPException status.HTTP_404_NOT_FOUND "Video not found")
  | Some video => serialize_video video
  end.

(** [add_comment] *)
Definition add_comment (video_id : Z) (comment_in : CommentCreate.t)
    (now : datetime) (current_user : User.t) : M CommentOut.t :=
  video <- query (fun t => first (filter (fun v => Video.id v =? video_id) (videos t))) ;;
  match video with
  | None => raise (HTTPException status.HTTP_404_NOT_FOUND "Video not found")
  | Some video =>
      comment <- add_Comment (CommentCreate.content comment_in) current_user video now ;;
      commit ;;
      comment <- refresh comments Comment.id comment ;;
      author <- query (fun t => Comment_author t comment) ;;
      match author with
      | None => raise ValidationError
      | Some author =>
          ret (CommentOut.mk (Comment.id comment) (Comment.content comment)
                 (Comment.created_at comment) (UserOut.from_orm author))
      end
  end.

(** [like_video] *)
Definition like_video (video_id : Z) (now : datetime) (current_user : User.t)
    : M Detail.t :=
  video <- query (fun t => first (filter (fun v => Video.id v =? video_id) (videos t))) ;;
  match video with
  | None => raise (HTTPException status.HTTP_404_NOT_FOUND "Video not found")
  | Some video =>
      existing_like <- query (fun t =>
        first (filter (fun l => (VideoLike.user_id l =? User.id current_user)
                                && (VideoLike.video_id l =? Video.id video))%bool
                 (video_likes t))) ;;
      message <- match existing_like with
                 | Some existing_like =>
                     delete_VideoLike existing_like ;; ret "Like removed"
                 | None =>
                     add_VideoLike (User.id current_user) (Video.id video) now ;;
                     ret "Video liked"
                 end ;;
      commit ;;
      ret (Detail.mk message)
  end.

(** [subscribe_user] *)
Definition subscribe_user (user_id : Z) (now : datetime) (current_user : User.t)
    : M Detail.t :=
  if User.id current_user =? user_id
  then raise (HTTPException status.HTTP_400_BAD_REQUEST "Cannot subscribe to yourself")
  else
    channel <- query (fun t => first (filter (fun u => User.id u =? user_id) (users t))) ;;
    match channel with
    | None => raise (HTTPException status.HTTP_404_NOT_FOUND "User not found")
    | Some channel =>
        existing <- query (fun t =>
          first (filter (fun x => (Subscription.subscriber_id x =? User.id current_user)
                                  && (Subscription.channel_id x =? User.id channel))%bool
                   (subscriptions t))) ;;
        message <- match existing with
                   | Some existing => delete_Subscription existing ;; ret "Unsubscribed"
                   | None =>
                       add_Subscription (User.id current_user) (User.id channel) now ;;
                       ret "Subscribed"
                   end ;;
        commit ;;
        ret (Detail.mk message)
    end.

(** The first query of [get_recommendations]: genre ids joined through
    [video_genre] and [videos] to the likes of the user, made distinct. *)
Definition liked_genre_ids (t : Tables) (user_id : Z) : list Z :=
  distinct
    (flat_map (fun g =>
       flat_map (fun vg =>
         if Genre.id g =? snd vg then
           flat_map (fun v =>
             if Video.id v =? fst vg then
               flat_map (fun l =>
                 if ((VideoLike.video_id l =? Video.id v)
                     && (VideoLike.user_id l =? user_id))%bool
                 then [Genre.id g] else [])
                 (video_likes t)
             else [])
             (videos t)
         else [])
         (video_genre t))
       (genres t)).

(** The joined and filtered rows of the second query, before grouping. *)
Definition candidate_rows (t : Tables) (liked : list Z) (user_id : Z)
    : list (Video.t * Genre.t) :=
  flat_map (fun v =>
    flat_map (fun vg =>
      if Video.id v =? fst vg then
        flat_map (fun g =>
          if ((Genre.id g =? snd vg)
              && existsb (Z.eqb (Genre.id g)) liked
              && negb (Video.owner_id v =? user_id))%bool
          then [(v, g)] else [])
          (genres t)
      else [])
      (video_genre t))
    (videos t).

(** [ORDER BY count(genres.id) DESC, videos.created_at DESC] *)
Definition rank_before (a b : Video.t * Z) : bool :=
  ((snd b <? snd a)
   || ((snd a =? snd b) && (Video.created_at (fst b) <=? Video.created_at (fst a))))%bool.

(** The second query of [get_recommendations] without its [LIMIT]: the
    rows grouped by [videos.id], counted and ordered. *)
Definition ranked (t : Tables) (liked : list Z) (user_id : Z) : list (Video.t * Z) :=
  order_by rank_before
    (map (fun row => (fst (fst row), snd row))
       (group_by_count (fun row => Video.id (fst row))
          (candidate_rows t liked user_id))).

(** The second query of [get_recommendations]. *)
Definition recommendations (t : Tables) (liked : list Z) (user_id : Z)
    : list (Video.t * Z) :=
  limit 20 (ranked t liked user_id).

(** One element of the list [get_recommendations] returns:
    [RecommendationOut(video=serialize_video(video, db), score=score)]. *)
Definition serialize_recommendation (rec : Video.t * Z) : M RecommendationOut.t :=
  video <- serialize_video (fst rec) ;;
  ret (RecommendationOut.mk video (snd rec)).

(** [get_recommendations] *)
Definition get_recommendations (current_user : User.t) : M (list RecommendationOut.t) :=
  liked <- query (fun t => liked_genre_ids t (User.id current_user)) ;;
  match liked with
  | [] => ret []
  | _ :: _ =>
      recs <- query (fun t => recommendations t liked (User.id current_user)) ;;
      for_each serialize_recommendation recs
  end.

(** [payload.get(key)] on the claims of a decoded token. *)
Fixpoint payload_get (key : string) (payload : list (string * string)) : option string :=
  match payload with
  | [] => None
  | (k, v) :: rest => if String.eqb k key then Some v else payload_get key rest
  end.

(** [oauth2_scheme]: the bearer credential of the request, refused when
    the request carries none. *)
Definition oauth2_scheme (authorization : option string) : M string :=
  match authorization with
  | Some token => ret token
  | None => raise (HTTPException status.HTTP_401_UNAUTHORIZED "Not authenticated")
  end.

Inductive Request : Type :=
| POST_auth_register (user_in : UserCreate.t)
| POST_auth_login (username password : string)
| GET_users_me (authorization : option string)
| POST_videos (authorization : option string) (title : string)
    (description : option string) (genres : string) (file_filename : string)
| GET_videos (skip lim : Z)
| GET_videos_id (video_id : Z)
| POST_videos_id_comments (authorization : option string) (video_id : Z)
    (comment_in : CommentCreate.t)
| POST_videos_id_like (authorization : option string) (video_id : Z)
| POST_users_id_subscribe (authorization : option string) (user_id : Z)
| GET_users_me_recommendations (authorization : option string).

Inductive Response : Type :=
| UserBody (user : UserOut.t)
| TokenBody (token : Token.t)
| VideoBody (video : VideoOut.t)
| VideosBody (videos : list VideoOut.t)
| CommentBody (comment : CommentOut.t)
| DetailBody (detail : Detail.t)
| RecommendationsBody (recs : list RecommendationOut.t).

(** What a request finds outside the database: the clock and the
    [uuid4] drawn for an upload. *)
Record Env := mkEnv { now : datetime; uuid4 : string }.

(** The functions main.py imports from the [security] module are taken
    as parameters. *)
Section Security.

Variable get_password_hash : string -> string.
Variable verify_password : string -> string -> bool.
Variable create_access_token : list (string * string) -> string.
Variable decode_token : string -> Result (list (string * string)).

(** [get_current_user], with the [oauth2_scheme] it depends on. *)
Definition get_current_user (authorization : option string) : M User.t :=
  token <- oauth2_scheme authorization ;;
  payload <- (fun s => (s, decode_token token)) ;;
  match payload_get "sub" payload with
  | None => raise (HTTPException status.HTTP_401_UNAUTHORIZED "Invalid token")
  | Some username =>
      user <- query (fun t =>
                first (filter (fun u => String.eqb (User.username u) username) (users t))) ;;
      match user with
      | None => raise (HTTPException status.HTTP_401_UNAUTHORIZED "User not found")
      | Some user => ret user
      end
  end.

(** [register] *)
Definition register (user_in : UserCreate.t) (now : datetime) : M UserOut.t :=
  existing <- query (fun t =>
                first (filter (fun u => String.eqb (User.username u)
                                                   (UserCreate.username user_in))
                         (users t))) ;;
  match existing with
  | Some _ =>
      raise (HTTPException status.HTTP_400_BAD_REQUEST "Username already taken")
  | None =>
      user <- add_User (UserCreate.username user_in)
                (get_password_hash (UserCreate.password user_in)) now ;;
      commit ;;
      user <- refresh users User.id user ;;
      ret (UserOut.from_orm user)
  end.

(** [login] *)
Definition login (username password : string) : M Token.t :=
  user <- query (fun t =>
            first (filter (fun u => String.eqb (User.username u) username) (users t))) ;;
  match user with
  | Some user =>
      if verify_password password (User.password_hash user)
      then ret (Token.mk (create_access_token [("sub", User.username user)]) "bearer")
      else raise (HTTPException status.HTTP_401_UNAUTHORIZED
                    "Incorrect username or password")
  | None =>
      raise (HTTPException status.HTTP_401_UNAUTHORIZED "Incorrect username or password")
  end.

(** [read_users_me] *)
Definition read_users_me (current_user : User.t) : M UserOut.t :=
  ret (UserOut.from_orm current_user).

(** Routing: the dependencies of the endpoint are resolved (the current
    user first, then the validation of the request body), then the
    endpoint runs. *)
Definition handle (env : Env) (req : Request) : M Response :=
  match req with
  | POST_auth_register user_in =>
      if UserCreate.valid user_in
      then user <- register user_in (now env) ;; ret (UserBody user)
      else raise RequestValidationError
  | POST_auth_login username password =>
      token <- login username password ;; ret (TokenBody token)
  | GET_users_me authorization =>
      current_user <- get_current_user authorization ;;
      user <- read_users_me current_user ;; ret (UserBody user)
  | POST_videos authorization title description genres file_filename =>
      current_user <- get_current_user authorization ;;
      video <- upload_video title description genres file_filename (uuid4 env)
                 (now env) current_user ;;
      ret (VideoBody video)
  | GET_videos skip lim =>
      vs <- list_videos skip lim ;; ret (VideosBody vs)
  | GET_videos_id video_id =>
      video <- get_video video_id ;; ret (VideoBody video)
  | POST_videos_id_comments authorization video_id comment_in =>
      current_user <- get_current_user authorization ;;
      if CommentCreate.valid comment_in
      then comment <- add_comment video_id comment_in (now env) current_user ;;
           ret (CommentBody comment)
      else raise RequestValidationError
  | POST_videos_id_like authorization video_id =>
      current_user <- get_current_user authorization ;;
      detail <- like_video video_id (now env) current_user ;;
      ret (DetailBody detail)
  | POST_users_id_subscribe authorization user_id =>
      current_user <- get_current_user authorization ;;
      detail <- subscribe_user user_id (now env) current_user ;;
      ret (DetailBody detail)
  | GET_users_me_recommendations authorization =>
      current_user <- get_current_user authorization ;;
      recs <- get_recommendations current_user ;;
      ret (RecommendationsBody recs)
  end.

(** One request against the database [db]: the response, and the
    session as [get_db] leaves it. *)
Definition serve (env : Env) (req : Request) (db : Tables) : Session * Result Response :=
  get_db (handle env req) db.

End Security.

(** A handler run on its own against [db], under [get_db]: its result
    and the database afterwards. *)
Definition run {A} (handler : M A) (db : Tables) : Result A * Tables :=
  match get_db handler db with
  | (s, r) => (r, store s)
  end.

(* ===================================================================== *)
(** * Vocabulary of the properties *)
(* ===================================================================== *)

(** The number of [VideoLike] rows that reference a video. *)
Definition like_count (t : Tables) (video_id : Z) : Z :=
  Z.of_nat (List.length (filter (fun l => VideoLike.video_id l =? video_id) (video_likes t))).

(** No value occurs twice. *)
Fixpoint uniqueb {A} (eqb : A -> A -> bool) (xs : list A) : bool :=
  match xs with
  | [] => true
  | x :: rest => (negb (existsb (eqb x) rest) && uniqueb eqb rest)%bool
  end.

(** The primary keys of the tables that are read back by key. *)
Definition video_ids_unique (t : Tables) : bool := uniqueb Z.eqb (map Video.id (videos t)).

(** [uq_video_like] and the primary key of [video_likes]. *)
Definition video_likes_unique (t : Tables) : bool :=
  (uniqueb Z.eqb (map VideoLike.id (video_likes t))
   && uniqueb pair_eqb (map like_key (video_likes t)))%bool.

(** [uq_subscription] and the primary key of [subscriptions]. *)
Definition subscriptions_unique (t : Tables) : bool :=
  (uniqueb Z.eqb (map Subscription.id (subscriptions t))
   && uniqueb pair_eqb (map subscription_key (subscriptions t)))%bool.

(** The foreign key [videos.owner_id]: every video has its owner row. *)
Definition owners_exist (t : Tables) : bool :=
  forallb (fun v => existsb (fun u => User.id u =? Video.owner_id v) (users t)) (videos t).

(** A like row of [user_id] for [video_id] exists. *)
Definition liked (t : Tables) (user_id video_id : Z) : bool :=
  has like_key (user_id, video_id) (video_likes t).

(** A subscription row of [subscriber_id] to [channel_id] exists. *)
Definition subscribed (t : Tables) (subscriber_id channel_id : Z) : bool :=
  has subscription_key (subscriber_id, channel_id) (subscriptions t).

(** A video row with this id exists. *)
Definition video_exists (t : Tables) (video_id : Z) : bool :=
  existsb (fun v => Video.id v =? video_id) (videos t).

(** A user row with this id exists. *)
Definition user_exists (t : Tables) (user_id : Z) : bool :=
  existsb (fun u => User.id u =? user_id) (users t).

(** A user row with this name exists. *)
Definition username_taken (t : Tables) (username : string) : bool :=
  existsb (fun u => String.eqb (User.username u) username) (users t).

(** The database after a sequence of requests, served one after another. *)
Fixpoint serve_all (get_password_hash : string -> string)
    (verify_password : string -> string -> bool)
    (create_access_token : list (string * string) -> string)
    (decode_token : string -> Result (list (string * string)))
    (reqs : list (Env * Request)) (db : Tables) : Tables :=
  match reqs with
  | [] => db
  | (env, req) :: rest =>
      serve_all get_password_hash verify_password create_access_token decode_token rest
        (store (fst (serve get_password_hash verify_password create_access_token
                       decode_token env req db)))
  end.

(** [P] holds of the committed database and of the transaction's view. *)
Definition Inv (P : Tables -> Prop) (s : Session) : Prop := P (store s) /\ P (txn s).

Definition preserves {A} (P : Tables -> Prop) (m : M A) : Prop :=
  forall s, Inv P s -> Inv P (fst (m s)).


(** The current user a request resolves to, or the exception its
    credentials are refused with. *)
Definition authenticate (decode_token : string -> Result (list (string * string)))
    (authorization : option string) (db : Tables) : Result User.t :=
  snd (get_current_user decode_token authorization (SessionLocal db)).

(** The response to a request and the database it leaves behind. *)
Definition answer (get_password_hash : string -> string)
    (verify_password : string -> string -> bool)
    (create_access_token : list (string * string) -> string)
    (decode_token : string -> Result (list (string * string)))
    (env : Env) (req : Request) (db : Tables) : Result Response * Tables :=
  match serve get_password_hash verify_password create_access_token decode_token
          env req db with
  | (s, r) => (r, store s)
  end.

(** An instance of the security parameters for running the handlers on
    concrete requests: the hash of a password is the password with a
    prefix, and a token is the bare username of its subject, the empty
    token being one that does not verify. *)
Definition sample_get_password_hash (password : string) : string := "#" ++ password.
Definition sample_verify_password (password hashed : string) : bool :=
  String.eqb ("#" ++ password) hashed.
Definition sample_create_access_token (data : list (string * string)) : string :=
  match payload_get "sub" data with Some sub => sub | None => "" end.
Definition sample_decode_token (token : string) : Result (list (string * string)) :=
  if String.eqb token ""
  then Raise (HTTPException status.HTTP_401_UNAUTHORIZED "Could not validate credentials")
  else Ok [("sub", token)].

(** The association rows of a video. *)
Definition video_links (t : Tables) (video_id : Z) : list (Z * Z) :=
  filter (fun vg => fst vg =? video_id) (video_genre t).

(** The foreign key [video_genre.video_id]: every association row
    belongs to a video row. *)
Definition links_reference_videos (t : Tables) : bool :=
  forallb (fun vg => video_exists t (fst vg)) (video_genre t).

(** A database with one user, for running the handlers on concrete
    requests. *)
Definition alice : User.t := User.mk 1 "alice" "#secret1" 0.
Definition db_alice : Tables := set_users empty_db [alice].

(** The serialized form of a video row of [t] whose owner row is [owner]. *)
Definition video_out (t : Tables) (video : Video.t) (owner : User.t) : VideoOut.t :=
  VideoOut.mk (Video.id video) (Video.title video) (Video.description video)
    (Video.filename video) (Video.created_at video) (UserOut.from_orm owner)
    (map GenreOut.from_orm (Video_genres t video)) (like_count t (Video.id video)).

(** Membership in a list of genre ids. *)
Definition in_liked (liked : list Z) (genre_id : Z) : bool :=
  existsb (Z.eqb genre_id) liked.

(** The number of genres of a serialized video that lie in [liked]. *)
Definition overlap (liked : list Z) (video : VideoOut.t) : Z :=
  Z.of_nat (List.length (filter (fun g => in_liked liked (GenreOut.id g))
                           (VideoOut.genres video))).

(** [a] may stand in front of [b] in the ranking: a higher score, or the
    same score and a creation time that is not older. *)
Definition outranks (a b : RecommendationOut.t) : Prop :=
  RecommendationOut.score b < RecommendationOut.score a \/
  (RecommendationOut.score a = RecommendationOut.score b /\
   VideoOut.created_at (RecommendationOut.video b)
   <= VideoOut.created_at (RecommendationOut.video a)).

(** The videos a response carries. *)
Definition videos_of (response : Response) : list VideoOut.t :=
  match response with
  | VideoBody video => [video]
  | VideosBody vs => vs
  | RecommendationsBody recs => map RecommendationOut.video recs
  | _ => []
  end.

(** [out] is the recommendation built from the ranked row [rec] of [t]. *)
Definition serialized (t : Tables) (rec : Video.t * Z) (out : RecommendationOut.t) : Prop :=
  exists owner,
    Video_owner t (fst rec) = Some owner /\
    User.id owner = Video.owner_id (fst rec) /\
    out = RecommendationOut.mk (video_out t (fst rec) owner) (snd rec).

(** A computation that, started with nothing pending, ends with nothing
    pending whenever it returns: what it wrote, it committed. *)
Definition ends_committed {A} (m : M A) : Prop :=
  forall s s' a, txn s = store s -> m s = (s', Ok a) -> txn s' = store s'.

(** A computation that never commits. *)
Definition never_commits {A} (m : M A) : Prop :=
  forall s, store (fst (m s)) = store s.

(** The scenario of two users and one video: alice registers and uploads
    a video tagged "Horror", bob registers and likes it. *)
Definition bob : User.t := User.mk 2 "bob" "#secret2" 2.

Definition horror_requests : list (Env * Request) :=
  [ (mkEnv 0 "", POST_auth_register (UserCreate.mk "alice" "secret1"));
    (mkEnv 1 "0b5e", POST_videos (Some "alice") "Night" None "Horror" "night.mp4");
    (mkEnv 2 "", POST_auth_register (UserCreate.mk "bob" "secret2"));
    (mkEnv 3 "", POST_videos_id_like (Some "bob") 1) ].

Definition horror_db : Tables :=
  serve_all sample_get_password_hash sample_verify_password sample_create_access_token
    sample_decode_token horror_requests empty_db.

(** The constraints of models.py the properties below rely on, taken
    together. *)
Definition constraints (t : Tables) : bool :=
  (video_ids_unique t && owners_exist t && video_likes_unique t
   && subscriptions_unique t && links_reference_videos t)%bool.

(** The scenario continued: carol registers and uploads a video tagged
    "horror, Drama". *)
Definition carol_requests : list (Env * Request) :=
  [ (mkEnv 4 "", POST_auth_register (UserCreate.mk "carol" "secret3"));
    (mkEnv 5 "9c1d", POST_videos (Some "carol") "Dusk" None "horror, Drama" "dusk.mp4") ].

Definition horror_db_2 : Tables :=
  serve_all sample_get_password_hash sample_verify_password sample_create_access_token
    sample_decode_token carol_requests horror_db.

(** A genre name made of the one character U+00C9 (capital E with acute)
    and its lower-case form U+00E9. *)
Definition capital_e_acute : string := String (ascii_of_nat 201) EmptyString.
Definition small_e_acute : string := String (ascii_of_nat 233) EmptyString.

(* ===================================================================== *)
(** * Vocabulary of the further properties *)
(* ===================================================================== *)

(** The requests that only read: every [GET] route and the login. *)
Definition read_only (req : Request) : bool :=
  match req with
  | POST_auth_login _ _ | GET_users_me _ | GET_videos _ _ | GET_videos_id _
  | GET_users_me_recommendations _ => true
  | _ => false
  end.

(** An exception raised by the database for a violated constraint. *)
Definition is_integrity_error {A} (r : Result A) : bool :=
  match r with
  | Raise (IntegrityError _) => true
  | _ => false
  end.

(** [ORDER BY videos.created_at DESC] over the whole table. *)
Definition newest_first (t : Tables) : list Video.t :=
  order_by (fun a b => Video.created_at b <=? Video.created_at a) (videos t).

(** [out] is the serialized form of the row [video] of [t]. *)
Definition serializes (t : Tables) (video : Video.t) (out : VideoOut.t) : Prop :=
  exists owner,
    Video_owner t video = Some owner /\
    User.id owner = Video.owner_id video /\
    out = video_out t video owner.

(** The character [c] occurs in [s]. *)
Fixpoint contains (c : ascii) (s : string) : bool :=
  match s with
  | EmptyString => false
  | String a r => (Ascii.eqb a c || contains c r)%bool
  end.

(** [rows'] is [rows] with further rows at the end. *)
Definition extends {A} (rows rows' : list A) : Prop :=
  exists more, rows' = (rows ++ more)%list.

(** What the request bodies are validated for, as a property of rows. *)
Definition username_ok (u : User.t) : bool :=
  (Nat.leb 3 (String.length (User.username u))
   && Nat.leb (String.length (User.username u)) 50)%bool.

Definition content_ok (c : Comment.t) : bool :=
  (Nat.leb 1 (String.length (Comment.content c))
   && Nat.leb (String.length (Comment.content c)) 500)%bool.

(** The rows of [users]: distinct names, distinct ids, names of the
    validated length. *)
Definition users_ok (t : Tables) : bool :=
  (uniqueb String.eqb (map User.username (users t))
   && uniqueb Z.eqb (map User.id (users t))
   && forallb username_ok (users t))%bool.

(** No subscription to oneself, and both ends exist. *)
Definition subscription_ok (t : Tables) (x : Subscription.t) : bool :=
  (negb (Subscription.subscriber_id x =? Subscription.channel_id x)
   && user_exists t (Subscription.subscriber_id x)
   && user_exists t (Subscription.channel_id x))%bool.

(** A like is of an existing user for an existing video. *)
Definition like_ok (t : Tables) (l : VideoLike.t) : bool :=
  (user_exists t (VideoLike.user_id l) && video_exists t (VideoLike.video_id l))%bool.

(** A comment is by an existing user on an existing video and has a
    content of the validated length. *)
Definition comment_ok (t : Tables) (c : Comment.t) : bool :=
  (user_exists t (Comment.author_id c) && video_exists t (Comment.video_id c)
   && content_ok c)%bool.

Definition references (t : Tables) : bool :=
  (users_ok t && forallb (subscription_ok t) (subscriptions t)
   && forallb (like_ok t) (video_likes t)
   && forallb (comment_ok t) (comments t))%bool.

(** The scenario of [horror_requests] continued: bob subscribes to alice
    and comments on her video. *)
Definition social_requests : list (Env * Request) :=
  (horror_requests ++
   [ (mkEnv 4 "", POST_users_id_subscribe (Some "bob") 1);
     (mkEnv 5 "", POST_videos_id_comments (Some "bob") 1 (CommentCreate.mk "Scary")) ])%list.

Definition social_db : Tables :=
  serve_all sample_get_password_hash sample_verify_password sample_create_access_token
    sample_decode_token social_requests empty_db.


(** The primary key of [genres], and its [unique] name column. *)
Definition genre_ids_unique (t : Tables) : bool :=
  uniqueb Z.eqb (map Genre.id (genres t)).

Definition genres_unique (t : Tables) : bool :=
  (genre_ids_unique t && uniqueb String.eqb (map Genre.name (genres t)))%bool.





(** The [Authorization] credential of the endpoints that depend on
    [get_current_user]; [None] for the three public endpoints and for
    [login] and [register]. *)
Definition credentials (req : Request) : option (option string) :=
  match req with
  | GET_users_me authorization
  | POST_videos authorization _ _ _ _
  | POST_videos_id_comments authorization _ _
  | POST_videos_id_like authorization _
  | POST_users_id_subscribe authorization _
  | GET_users_me_recommendations authorization => Some authorization
  | POST_auth_register _ | POST_auth_login _ _ | GET_videos _ _ | GET_videos_id _ => None
  end.

(* ===================================================================== *)
(** * Basic facts *)
(* ===================================================================== *)

Lemma next_id_above (ids : list Z) (x : Z) : In x ids -> x < next_id ids.
Proof.
  unfold next_id. induction ids as [|y ids IH]; cbn [fold_right In]; [tauto|].
  intros [->|H]; [lia|]. specialize (IH H). lia.
Qed.

Lemma filter_none {A} (p : A -> bool) (l : list A) :
  (forall x, In x l -> p x = false) -> filter p l = [].
Proof.
  induction l as [|a l IH]; simpl; intros H; [reflexivity|].
  rewrite (H a (or_introl eq_refl)). apply IH. intros x Hx. apply H. now right.
Qed.

Lemma first_filter_none {A} (p : A -> bool) (l : list A) :
  first (filter p l) = None <-> existsb p l = false.
Proof.
  induction l as [|a l IH]; simpl; [tauto|].
  destruct (p a); simpl; [split; discriminate | exact IH].
Qed.

Lemma first_filter_some {A} (p : A -> bool) (l : list A) (x : A) :
  first (filter p l) = Some x -> In x l /\ p x = true.
Proof.
  induction l as [|a l IH]; simpl; [discriminate|].
  destruct (p a) eqn:E; simpl.
  - intros [= <-]. auto.
  - intros H. destruct (IH H). auto.
Qed.

Lemma first_filter_app {A} (p : A -> bool) (l l' : list A) :
  first (filter p (l ++ l')) =
  match first (filter p l) with Some x => Some x | None => first (filter p l') end.
Proof.
  rewrite filter_app. destruct (filter p l); reflexivity.
Qed.

(* ===================================================================== *)
(** * Invariants of a session *)
(* ===================================================================== *)

Lemma preserves_ret {A} P (a : A) : preserves P (ret a).
Proof. intros s H. exact H. Qed.

Lemma preserves_raise {A} P e : preserves P (@raise A e).
Proof. intros s H. exact H. Qed.

Lemma preserves_query {A} P (f : Tables -> A) : preserves P (query f).
Proof. intros s H. exact H. Qed.

Lemma preserves_flush P : preserves P flush.
Proof. intros s H. exact H. Qed.

Lemma preserves_commit P : preserves P commit.
Proof. intros s [_ H]. split; exact H. Qed.

Lemma preserves_bind {A B} P (m : M A) (k : A -> M B) :
  preserves P m -> (forall a, preserves P (k a)) -> preserves P (bind m k).
Proof.
  intros Hm Hk s H. unfold bind. specialize (Hm s H).
  destruct (m s) as [s' [a|e]]; simpl in *; [apply Hk; exact Hm | exact Hm].
Qed.

Lemma preserves_emit P (f : Tables -> Tables) :
  (forall t, P t -> P (f t)) -> preserves P (emit f).
Proof. intros Hf s [H1 H2]. split; simpl; auto. Qed.

Lemma preserves_for_each {A B} P (f : A -> M B) (xs : list A) :
  (forall x, preserves P (f x)) -> preserves P (for_each f xs).
Proof.
  intros Hf. induction xs as [|x xs IH]; simpl.
  - apply preserves_ret.
  - apply preserves_bind; [apply Hf|]. intros y.
    apply preserves_bind; [exact IH|]. intros ys. apply preserves_ret.
Qed.

Lemma preserves_refresh {A} P (table : Tables -> list A) pk obj :
  preserves P (refresh table pk obj).
Proof.
  unfold refresh. apply preserves_bind; [apply preserves_query|].
  intros [r|]; [apply preserves_ret | apply preserves_raise].
Qed.

Lemma preserves_serialize_video P video : preserves P (serialize_video video).
Proof.
  unfold serialize_video.
  apply preserves_bind; [apply preserves_query|]. intros likes.
  apply preserves_bind; [apply preserves_refresh|]. intros v.
  apply preserves_bind; [apply preserves_query|]. intros owner.
  apply preserves_bind; [apply preserves_query|]. intros gs.
  destruct owner; [apply preserves_ret | apply preserves_raise].
Qed.

(** Predicates on the database that only look at the [users] table and
    survive the insertion of a user are kept by every request. *)
Section UsersOnly.

Variable P : Tables -> Prop.
Hypothesis P_users : forall t u, P t -> P (set_users t (users t ++ [u])).
Hypothesis P_genres : forall t x, P t -> P (set_genres t x).
Hypothesis P_videos : forall t x, P t -> P (set_videos t x).
Hypothesis P_video_genre : forall t x, P t -> P (set_video_genre t x).
Hypothesis P_comments : forall t x, P t -> P (set_comments t x).
Hypothesis P_video_likes : forall t x, P t -> P (set_video_likes t x).
Hypothesis P_subscriptions : forall t x, P t -> P (set_subscriptions t x).

Variable get_password_hash : string -> string.
Variable verify_password : string -> string -> bool.
Variable create_access_token : list (string * string) -> string.
Variable decode_token : string -> Result (list (string * string)).

Lemma preserves_add_User username password_hash now :
  preserves P (add_User username password_hash now).
Proof.
  intros s [H1 H2]. unfold add_User.
  destruct (existsb _ _); split; simpl; auto.
Qed.

Lemma preserves_add_Genre name : preserves P (add_Genre name).
Proof.
  intros s [H1 H2]. unfold add_Genre.
  destruct (existsb _ _); split; simpl; auto.
Qed.

Lemma preserves_add_video_genre row : preserves P (add_video_genre row).
Proof.
  intros s [H1 H2]. unfold add_video_genre.
  destruct (existsb _ _); split; simpl; auto.
Qed.

Lemma preserves_link_genres video_id gs : preserves P (link_genres video_id gs).
Proof.
  induction gs as [|g gs IH]; simpl.
  - apply preserves_ret.
  - apply preserves_bind; [apply preserves_add_video_genre | intros _; exact IH].
Qed.

Lemma preserves_add_Video title description filename owner gs now :
  preserves P (add_Video title description filename owner gs now).
Proof.
  unfold add_Video. apply preserves_bind.
  - intros s [H1 H2]. split; simpl; auto.
  - intros v. apply preserves_bind; [apply preserves_link_genres|].
    intros _. apply preserves_ret.
Qed.

Lemma preserves_add_Comment content author video now :
  preserves P (add_Comment content author video now).
Proof. intros s [H1 H2]. split; simpl; auto. Qed.

Lemma preserves_add_VideoLike user_id video_id now :
  preserves P (add_VideoLike user_id video_id now).
Proof.
  intros s [H1 H2]. unfold add_VideoLike.
  destruct (has _ _ _); split; simpl; auto.
Qed.

Lemma preserves_add_Subscription a b now : preserves P (add_Subscription a b now).
Proof.
  intros s [H1 H2]. unfold add_Subscription.
  destruct (has _ _ _); split; simpl; auto.
Qed.

Lemma preserves_collect_genres names acc : preserves P (collect_genres names acc).
Proof.
  revert acc. induction names as [|name names IH]; intros acc; simpl.
  - apply preserves_ret.
  - apply preserves_bind; [apply preserves_query|]. intros found.
    apply preserves_bind; [|intros g; apply IH].
    destruct found; [apply preserves_ret|].
    apply preserves_bind; [apply preserves_add_Genre|]. intros g.
    apply preserves_bind; [apply preserves_flush | intros _; apply preserves_ret].
Qed.

Lemma preserves_get_current_user authorization :
  preserves P (get_current_user decode_token authorization).
Proof.
  unfold get_current_user, oauth2_scheme.
  apply preserves_bind; [destruct authorization; [apply preserves_ret | apply preserves_raise]|].
  intros token. apply preserves_bind; [intros s H; exact H|]. intros payload.
  destruct (payload_get _ _); [|apply preserves_raise].
  apply preserves_bind; [apply preserves_query|].
  intros [u|]; [apply preserves_ret | apply preserves_raise].
Qed.

Ltac keep :=
  repeat first
    [ apply preserves_ret | apply preserves_raise | apply preserves_query
    | apply preserves_commit | apply preserves_flush | apply preserves_refresh
    | apply preserves_serialize_video | apply preserves_get_current_user
    | apply preserves_add_User | apply preserves_add_Video
    | apply preserves_add_Comment | apply preserves_add_VideoLike
    | apply preserves_add_Subscription | apply preserves_collect_genres
    | apply preserves_emit; intros; auto
    | apply preserves_for_each; intros
    | apply preserves_bind; [|intros]
    | match goal with
      | |- preserves _ (match ?x with _ => _ end) => destruct x
      | |- preserves _ (if ?x then _ else _) => destruct x
      end ].

Lemma preserves_handle env req :
  preserves P (handle get_password_hash verify_password create_access_token
                 decode_token env req).
Proof.
  destruct req; unfold handle, register, login, read_users_me, upload_video,
    list_videos, get_video, add_comment, like_video, subscribe_user,
    get_recommendations, delete_VideoLike, delete_Subscription; keep.
Qed.

Lemma serve_keeps env req db :
  P db ->
  P (store (fst (serve get_password_hash verify_password create_access_token
                   decode_token env req db))).
Proof.
  intros H. unfold serve, get_db.
  pose proof (preserves_handle env req (SessionLocal db) (conj H H)) as [H1 _].
  destruct (handle _ _ _ _ _ _ _) as [s r]. exact H1.
Qed.

Lemma serve_all_keeps reqs db :
  P db ->
  P (serve_all get_password_hash verify_password create_access_token decode_token
       reqs db).
Proof.
  revert db. induction reqs as [|[env req] reqs IH]; intros db H; simpl; [exact H|].
  apply IH. apply serve_keeps. exact H.
Qed.

End UsersOnly.

(* ===================================================================== *)
(** * Registration *)
(* ===================================================================== *)

Lemma refresh_appended {A} (table : Tables -> list A) (pk : A -> Z) (rows : list A)
    (row : A) (s : Session) :
  table (txn s) = (rows ++ [row])%list ->
  pk row = next_id (map pk rows) ->
  refresh table pk row s = (s, Ok row).
Proof.
  intros Ht Hpk. unfold refresh, bind, query. rewrite Ht, first_filter_app.
  rewrite filter_none.
  - simpl. rewrite Z.eqb_refl. reflexivity.
  - intros x Hx. apply Z.eqb_neq.
    pose proof (next_id_above (map pk rows) (pk x) (in_map pk _ _ Hx)). lia.
Qed.

Lemma register_first get_password_hash (db : Tables) user_in now :
  username_taken db (UserCreate.username user_in) = false ->
  let user := User.mk (next_id (map User.id (users db))) (UserCreate.username user_in)
                (get_password_hash (UserCreate.password user_in)) now in
  run (register get_password_hash user_in now) db =
  (Ok (UserOut.from_orm user), set_users db (users db ++ [user])).
Proof.
  intros Hfree user. unfold username_taken in Hfree.
  unfold run, get_db, register, bind at 1, query. simpl.
  rewrite (proj2 (first_filter_none _ _) Hfree).
  unfold bind at 1, add_User. simpl. rewrite Hfree.
  unfold bind at 1, commit. simpl.
  unfold bind at 1.
  rewrite (refresh_appended users User.id (users db) user); try reflexivity.
Qed.

Lemma register_taken get_password_hash (db : Tables) user_in now :
  username_taken db (UserCreate.username user_in) = true ->
  run (register get_password_hash user_in now) db =
  (Raise (HTTPException status.HTTP_400_BAD_REQUEST "Username already taken"), db).
Proof.
  intros Htaken. unfold username_taken in Htaken.
  unfold run, get_db, register, bind, query. simpl.
  destruct (first (filter _ (users db))) eqn:E; [reflexivity|].
  apply first_filter_none in E. congruence.
Qed.

Lemma username_taken_app (t : Tables) (u : User.t) (name : string) :
  username_taken t name = true ->
  username_taken (set_users t (users t ++ [u])) name = true.
Proof.
  unfold username_taken. simpl. rewrite existsb_app. intros ->. reflexivity.
Qed.

(** C6.  A registration with a username no user row carries succeeds and
    appends the user row (nothing else changes); after any further
    requests whatever, a registration with that username is refused with
    400 "Username already taken" and leaves the database as it found it. *)
Theorem register_once_per_username
    (get_password_hash : string -> string)
    (verify_password : string -> string -> bool)
    (create_access_token : list (string * string) -> string)
    (decode_token : string -> Result (list (string * string)))
    (db : Tables) (user_in : UserCreate.t) (now : datetime) :
  username_taken db (UserCreate.username user_in) = false ->
  exists user,
    User.username user = UserCreate.username user_in /\
    run (register get_password_hash user_in now) db =
      (Ok (UserOut.from_orm user), set_users db (users db ++ [user])) /\
    forall (later : list (Env * Request)) (again : UserCreate.t) (now' : datetime),
      UserCreate.username again = UserCreate.username user_in ->
      let db' := serve_all get_password_hash verify_password create_access_token
                   decode_token later (set_users db (users db ++ [user])) in
      run (register get_password_hash again now') db' =
        (Raise (HTTPException status.HTTP_400_BAD_REQUEST "Username already taken"),
         db').
Proof.
  intros Hfree. eexists. split; [|split].
  2: { apply register_first. exact Hfree. }
  - reflexivity.
  - intros later again now' Hsame db'. apply register_taken. rewrite Hsame.
    subst db'.
    apply (serve_all_keeps
             (fun t => username_taken t (UserCreate.username user_in) = true));
      try (intros; assumption).
    + intros t u. apply username_taken_app.
    + unfold username_taken. simpl. rewrite existsb_app. simpl.
      rewrite String.eqb_refl. apply orb_true_iff. right. reflexivity.
Qed.

(* ===================================================================== *)
(** * Toggled rows: likes and subscriptions *)
(* ===================================================================== *)

Lemma pair_eqb_eq (a b : Z * Z) : pair_eqb a b = true <-> a = b.
Proof.
  destruct a, b. unfold pair_eqb. simpl.
  rewrite andb_true_iff, !Z.eqb_eq. split; [intros []; congruence | intros [=]; auto].
Qed.

Lemma pair_eqb_refl (a : Z * Z) : pair_eqb a a = true.
Proof. apply pair_eqb_eq. reflexivity. Qed.

Lemma uniqueb_NoDup {A} (eqb : A -> A -> bool) (xs : list A) :
  (forall a b, eqb a b = true <-> a = b) ->
  uniqueb eqb xs = true <-> NoDup xs.
Proof.
  intros Heq. induction xs as [|x xs IH]; simpl.
  - split; [constructor | reflexivity].
  - rewrite andb_true_iff, negb_true_iff, IH. split.
    + intros [Hx Hn]. constructor; [|exact Hn]. intros Hin.
      assert (existsb (eqb x) xs = true) as E
        by (apply existsb_exists; exists x; split; [exact Hin | now apply Heq]).
      congruence.
    + intros Hn. inversion Hn as [|? ? Hx Hn']; subst. split; [|exact Hn'].
      destruct (existsb (eqb x) xs) eqn:E; [|reflexivity].
      apply existsb_exists in E as [y [Hy Hxy]]. apply Heq in Hxy. subst. contradiction.
Qed.

Lemma uniqueb_snoc {A} (eqb : A -> A -> bool) (xs : list A) (x : A) :
  (forall a b, eqb a b = true <-> a = b) ->
  uniqueb eqb xs = true -> ~ In x xs -> uniqueb eqb (xs ++ [x]) = true.
Proof.
  intros Heq Hu Hn. apply (uniqueb_NoDup eqb _ Heq).
  apply (uniqueb_NoDup eqb _ Heq) in Hu.
  apply (Permutation_NoDup (Permutation_cons_append xs x)).
  constructor; assumption.
Qed.

Lemma without_split {A} (id : A -> Z) (x : A) (rows1 rows2 : list A) :
  NoDup (map id (rows1 ++ x :: rows2)) ->
  without id x (rows1 ++ x :: rows2) = (rows1 ++ rows2)%list.
Proof.
  intros Hn. rewrite map_app in Hn. simpl in Hn.
  apply NoDup_remove_2 in Hn. rewrite in_app_iff in Hn.
  unfold without. rewrite filter_app. simpl. rewrite Z.eqb_refl. simpl.
  assert (forall l, ~ In (id x) (map id l) ->
                    filter (fun y => negb (id y =? id x)) l = l) as Hkeep.
  { induction l as [|a l IH]; simpl; [reflexivity|]. intros Hni.
    destruct (Z.eqb_spec (id a) (id x)) as [E|E]; simpl.
    - exfalso. apply Hni. now left.
    - f_equal. apply IH. tauto. }
  rewrite !Hkeep; tauto.
Qed.

Section Toggle.

Context {A : Type} (id : A -> Z) (key : A -> Z * Z).

Lemma has_app k rows rows' : has key k (rows ++ rows') = (has key k rows || has key k rows')%bool.
Proof. apply existsb_app. Qed.

Lemma has_first k rows :
  has key k rows = true ->
  exists x, first (filter (fun x => pair_eqb (key x) k) rows) = Some x.
Proof.
  intros H. destruct (first _) eqn:E; [eauto|].
  apply first_filter_none in E. unfold has in H. congruence.
Qed.

(** Deleting the row found for a key leaves no row with that key and
    keeps every other key as it was. *)
Lemma without_has x rows k :
  uniqueb Z.eqb (map id rows) = true ->
  uniqueb pair_eqb (map key rows) = true ->
  In x rows ->
  has key k (without id x rows) = (has key k rows && negb (pair_eqb (key x) k))%bool.
Proof.
  intros Hid Hkey Hin.
  apply (uniqueb_NoDup Z.eqb) in Hid; [|apply Z.eqb_eq].
  apply (uniqueb_NoDup pair_eqb) in Hkey; [|apply pair_eqb_eq].
  apply in_split in Hin as [rows1 [rows2 ->]].
  rewrite (without_split id) by exact Hid.
  rewrite map_app in Hkey. simpl in Hkey. apply NoDup_remove_2 in Hkey.
  rewrite !has_app. simpl.
  destruct (pair_eqb (key x) k) eqn:E; simpl.
  - apply pair_eqb_eq in E. subst k. rewrite andb_false_r.
    rewrite <- has_app. unfold has.
    destruct (existsb _ (rows1 ++ rows2)) eqn:F; [|reflexivity].
    apply existsb_exists in F as [y [Hy Hk]]. apply pair_eqb_eq in Hk.
    exfalso. apply Hkey. rewrite <- map_app, <- Hk. apply in_map. exact Hy.
  - rewrite andb_true_r. reflexivity.
Qed.

Lemma without_unique x rows :
  uniqueb Z.eqb (map id rows) = true ->
  uniqueb pair_eqb (map key rows) = true ->
  uniqueb Z.eqb (map id (without id x rows)) = true /\
  uniqueb pair_eqb (map key (without id x rows)) = true.
Proof.
  intros Hid Hkey.
  apply (uniqueb_NoDup Z.eqb) in Hid; [|apply Z.eqb_eq].
  apply (uniqueb_NoDup pair_eqb) in Hkey; [|apply pair_eqb_eq].
  assert (forall (B : Type) (f : A -> B) p l, NoDup (map f l) -> NoDup (map f (filter p l)))
    as Hsub.
  { intros B f p l. induction l as [|a l IH]; simpl; intros Hn; [constructor|].
    inversion Hn as [|? ? Hx Hn']; subst.
    destruct (p a); simpl; [|auto]. constructor; [|auto].
    intros Hin. apply Hx. apply in_map_iff in Hin as [y [Hy Hf]].
    apply filter_In in Hf as [Hf _]. rewrite <- Hy. now apply in_map. }
  split.
  - apply (uniqueb_NoDup Z.eqb); [apply Z.eqb_eq|]. now apply Hsub.
  - apply (uniqueb_NoDup pair_eqb); [apply pair_eqb_eq|]. now apply Hsub.
Qed.

(** Deleting the row that was just appended with a fresh key restores
    the table. *)
Lemma without_appended x rows :
  id x = next_id (map id rows) -> without id x (rows ++ [x]) = rows.
Proof.
  intros Hid. unfold without. rewrite filter_app. simpl. rewrite Z.eqb_refl. simpl.
  rewrite app_nil_r. induction rows as [|a rows IH]; [reflexivity|].
  assert (id a <> id x) as Ha.
  { pose proof (next_id_above (map id (a :: rows)) (id a) (or_introl eq_refl)). lia. }
  simpl. destruct (Z.eqb_spec (id a) (id x)); [contradiction|]. simpl.
  f_equal. clear IH.
  apply forallb_filter_id. apply forallb_forall. intros y Hy.
  apply negb_true_iff, Z.eqb_neq.
  pose proof (next_id_above (map id (a :: rows)) (id y)
                (or_intror (in_map id _ _ Hy))). lia.
Qed.

Lemma appended_unique x rows :
  id x = next_id (map id rows) ->
  has key (key x) rows = false ->
  uniqueb Z.eqb (map id rows) = true ->
  uniqueb pair_eqb (map key rows) = true ->
  uniqueb Z.eqb (map id (rows ++ [x])) = true /\
  uniqueb pair_eqb (map key (rows ++ [x])) = true.
Proof.
  intros Hx Hk Hid Hkey.
  apply (uniqueb_NoDup Z.eqb) in Hid; [|apply Z.eqb_eq].
  apply (uniqueb_NoDup pair_eqb) in Hkey; [|apply pair_eqb_eq].
  split.
  - apply (uniqueb_NoDup Z.eqb); [apply Z.eqb_eq|].
    rewrite map_app. simpl.
    apply Permutation_NoDup with (l := id x :: map id rows).
    + apply Permutation_cons_append.
    + constructor; [|exact Hid]. intros Hin.
      pose proof (next_id_above _ _ Hin). lia.
  - apply (uniqueb_NoDup pair_eqb); [apply pair_eqb_eq|].
    rewrite map_app. simpl.
    apply Permutation_NoDup with (l := key x :: map key rows).
    + apply Permutation_cons_append.
    + constructor; [|exact Hkey]. intros Hin.
      apply in_map_iff in Hin as [y [Hy Hin]].
      assert (has key (key x) rows = true) as E
        by (apply existsb_exists; exists y; split; [exact Hin | now apply pair_eqb_eq]).
      congruence.
Qed.

End Toggle.

Lemma exists_first {A} (p : A -> bool) (rows : list A) :
  existsb p rows = true -> exists x, first (filter p rows) = Some x /\ p x = true.
Proof.
  intros H. destruct (first (filter p rows)) as [x|] eqn:E.
  - exists x. split; [reflexivity|]. now apply first_filter_some in E.
  - apply first_filter_none in E. congruence.
Qed.

Lemma like_video_not_found db video_id now current_user :
  video_exists db video_id = false ->
  run (like_video video_id now current_user) db =
  (Raise (HTTPException status.HTTP_404_NOT_FOUND "Video not found"), db).
Proof.
  intros H. apply first_filter_none in H.
  unfold run, get_db, like_video, bind, query. simpl. rewrite H. reflexivity.
Qed.

Lemma like_video_adds db video_id now current_user :
  video_exists db video_id = true ->
  liked db (User.id current_user) video_id = false ->
  run (like_video video_id now current_user) db =
  (Ok (Detail.mk "Video liked"),
   set_video_likes db
     (video_likes db ++
      [VideoLike.mk (next_id (map VideoLike.id (video_likes db)))
         (User.id current_user) video_id now])).
Proof.
  intros Hv Hl. apply exists_first in Hv as [video [Hv Hid]]. apply Z.eqb_eq in Hid.
  unfold run, get_db, like_video, bind at 1, query. simpl. rewrite Hv, Hid.
  unfold bind at 1, query. simpl.
  change (fun l => ((VideoLike.user_id l =? User.id current_user)
                    && (VideoLike.video_id l =? video_id))%bool)
    with (fun l => pair_eqb (like_key l) (User.id current_user, video_id)).
  rewrite (proj2 (first_filter_none _ _) Hl).
  unfold bind, add_VideoLike, commit, ret. simpl.
  unfold liked in Hl. rewrite Hl. reflexivity.
Qed.

Lemma like_video_removes db video_id now current_user :
  video_exists db video_id = true ->
  liked db (User.id current_user) video_id = true ->
  exists like,
    In like (video_likes db) /\
    like_key like = (User.id current_user, video_id) /\
    run (like_video video_id now current_user) db =
    (Ok (Detail.mk "Like removed"),
     set_video_likes db (without VideoLike.id like (video_likes db))).
Proof.
  intros Hv Hl. apply exists_first in Hv as [video [Hv Hid]]. apply Z.eqb_eq in Hid.
  apply exists_first in Hl as [like [Hl Hk]].
  exists like. split; [|split].
  - now apply first_filter_some in Hl.
  - now apply pair_eqb_eq.
  - unfold run, get_db, like_video, bind at 1, query. simpl. rewrite Hv, Hid.
    unfold bind at 1, query. simpl.
    change (fun l => ((VideoLike.user_id l =? User.id current_user)
                      && (VideoLike.video_id l =? video_id))%bool)
      with (fun l => pair_eqb (like_key l) (User.id current_user, video_id)).
    rewrite Hl. reflexivity.
Qed.

Lemma pair_eqb_sym (a b : Z * Z) : pair_eqb a b = pair_eqb b a.
Proof.
  destruct (pair_eqb a b) eqn:E, (pair_eqb b a) eqn:F; try reflexivity.
  - apply pair_eqb_eq in E. subst. rewrite pair_eqb_refl in F. discriminate.
  - apply pair_eqb_eq in F. subst. rewrite pair_eqb_refl in E. discriminate.
Qed.

Lemma without_length {A} (id : A -> Z) (x : A) (rows : list A) :
  uniqueb Z.eqb (map id rows) = true -> In x rows ->
  S (List.length (without id x rows)) = List.length rows.
Proof.
  intros Hid Hin. apply (uniqueb_NoDup Z.eqb) in Hid; [|apply Z.eqb_eq].
  apply in_split in Hin as [rows1 [rows2 ->]].
  rewrite (without_split id) by exact Hid. rewrite !length_app. simpl. lia.
Qed.

Lemma set_video_likes_same (db : Tables) (x : list VideoLike.t) :
  set_video_likes (set_video_likes db x) (video_likes db) = db.
Proof. destruct db. reflexivity. Qed.

Lemma set_subscriptions_same (db : Tables) (x : list Subscription.t) :
  set_subscriptions (set_subscriptions db x) (subscriptions db) = db.
Proof. destruct db. reflexivity. Qed.

(** C4.  [like_video] is a toggle on the [VideoLike] row of the pair
    (user, video): for a missing video it fails with 404 and changes
    nothing; for an existing one it deletes the row of the pair and
    answers "Like removed" when there is one, and otherwise inserts one
    and answers "Video liked"; run twice in succession it leaves the set
    of liked pairs as it was (and the whole table, when the pair was not
    liked to begin with). *)
Theorem like_video_toggle (db : Tables) (video_id : Z) (now now' : datetime)
    (current_user : User.t) :
  video_likes_unique db = true ->
  let uid := User.id current_user in
  let once := run (like_video video_id now current_user) db in
  let twice := run (like_video video_id now' current_user) (snd once) in
  (video_exists db video_id = false ->
     once = (Raise (HTTPException status.HTTP_404_NOT_FOUND "Video not found"), db)) /\
  (video_exists db video_id = true ->
     (liked db uid video_id = true ->
        fst once = Ok (Detail.mk "Like removed") /\
        liked (snd once) uid video_id = false /\
        exists like, In like (video_likes db) /\ like_key like = (uid, video_id) /\
          snd once = set_video_likes db (without VideoLike.id like (video_likes db))) /\
     (liked db uid video_id = false ->
        fst once = Ok (Detail.mk "Video liked") /\
        liked (snd once) uid video_id = true /\
        exists like, like_key like = (uid, video_id) /\
          snd once = set_video_likes db (video_likes db ++ [like]) /\
        snd twice = db) /\
     (forall u v, liked (snd once) u v =
                  if pair_eqb (u, v) (uid, video_id) then negb (liked db u v)
                  else liked db u v) /\
     (forall u v, liked (snd twice) u v = liked db u v) /\
     video_likes_unique (snd twice) = true /\
     List.length (video_likes (snd twice)) = List.length (video_likes db)).
Proof.
  intros Hu uid once twice. split; [apply like_video_not_found|].
  intros Hv. unfold video_likes_unique in Hu. apply andb_true_iff in Hu as [Hid Hkey].
  destruct (liked db uid video_id) eqn:Hl.
  - (* the pair was liked: delete, then insert again *)
    destruct (like_video_removes db video_id now current_user Hv Hl)
      as [like [Hin [Hk Hrun]]].
    fold once in Hrun.
    assert (forall u v, liked (snd once) u v =
                        (liked db u v && negb (pair_eqb (uid, video_id) (u, v)))%bool)
      as Hone.
    { intros u v. rewrite Hrun. unfold liked. simpl.
      rewrite (without_has VideoLike.id like_key) by assumption.
      rewrite Hk. reflexivity. }
    assert (liked (snd once) uid video_id = false) as Hoff
      by (rewrite Hone, pair_eqb_refl, andb_false_r; reflexivity).
    assert (video_exists (snd once) video_id = true) as Hv'
      by (rewrite Hrun; exact Hv).
    pose proof (like_video_adds (snd once) video_id now' current_user Hv' Hoff) as Hrun2.
    fold uid in Hrun2. fold twice in Hrun2.
    assert (forall u v, liked (snd twice) u v = liked db u v) as Htwo.
    { intros u v. rewrite Hrun2. unfold liked at 1. simpl. rewrite has_app.
      fold (liked (snd once) u v). rewrite Hone. simpl. rewrite orb_false_r.
      unfold like_key at 1. simpl.
      destruct (pair_eqb (uid, video_id) (u, v)) eqn:E.
      - apply pair_eqb_eq in E. injection E as <- <-. rewrite Hl. reflexivity.
      - rewrite andb_true_r, orb_false_r. reflexivity. }
    split; [|split; [|split; [|split; [|split]]]].
    + intros _. split; [rewrite Hrun; reflexivity|]. split; [exact Hoff|].
      exists like. rewrite Hrun. auto.
    + discriminate.
    + intros u v. rewrite Hone, (pair_eqb_sym (u, v)).
      destruct (pair_eqb (uid, video_id) (u, v)) eqn:E; simpl.
      * apply pair_eqb_eq in E. injection E as <- <-. rewrite Hl. reflexivity.
      * apply andb_true_r.
    + exact Htwo.
    + rewrite Hrun2. unfold video_likes_unique. simpl. apply andb_true_iff.
      rewrite Hrun. simpl.
      destruct (without_unique VideoLike.id like_key like (video_likes db) Hid Hkey)
        as [Hid' Hkey'].
      apply (appended_unique VideoLike.id like_key); try assumption; try reflexivity.
      simpl. rewrite Hrun in Hoff. exact Hoff.
    + rewrite Hrun2. simpl. rewrite length_app. simpl. rewrite Hrun. simpl.
      rewrite <- (without_length VideoLike.id like (video_likes db)) by assumption.
      lia.
  - (* the pair was not liked: insert, then delete the inserted row *)
    pose proof (like_video_adds db video_id now current_user Hv Hl) as Hrun.
    fold uid in Hrun. fold once in Hrun.
    set (like := VideoLike.mk (next_id (map VideoLike.id (video_likes db)))
                   uid video_id now) in *.
    assert (forall u v, liked (snd once) u v =
                        (liked db u v || pair_eqb (uid, video_id) (u, v))%bool) as Hone.
    { intros u v. rewrite Hrun. unfold liked. simpl. rewrite has_app. simpl.
      rewrite orb_false_r. reflexivity. }
    assert (liked (snd once) uid video_id = true) as Hon
      by (rewrite Hone, pair_eqb_refl; apply orb_true_r).
    assert (video_exists (snd once) video_id = true) as Hv'
      by (rewrite Hrun; exact Hv).
    destruct (like_video_removes (snd once) video_id now' current_user Hv' Hon)
      as [like' [Hin [Hk Hrun2]]].
    fold twice in Hrun2.
    assert (like' = like) as ->.
    { rewrite Hrun in Hin. simpl in Hin. apply in_app_iff in Hin as [Hin|[<-|[]]];
        [|reflexivity].
      exfalso. unfold liked, has in Hl.
      assert (existsb (fun x => pair_eqb (like_key x) (uid, video_id)) (video_likes db)
              = true) as E
        by (apply existsb_exists; exists like'; split;
            [exact Hin | now apply pair_eqb_eq]).
      rewrite E in Hl. discriminate. }
    assert (snd twice = db) as Hback.
    { rewrite Hrun2, Hrun. simpl.
      rewrite (without_appended VideoLike.id like (video_likes db)) by reflexivity.
      apply set_video_likes_same. }
    split; [|split; [|split; [|split; [|split]]]].
    + discriminate.
    + intros _. split; [rewrite Hrun; reflexivity|]. split; [exact Hon|].
      exists like. rewrite Hrun. auto.
    + intros u v. rewrite Hone, (pair_eqb_sym (u, v)).
      destruct (pair_eqb (uid, video_id) (u, v)) eqn:E; simpl.
      * apply pair_eqb_eq in E. injection E as <- <-. rewrite Hl. reflexivity.
      * apply orb_false_r.
    + intros u v. rewrite Hback. reflexivity.
    + rewrite Hback. unfold video_likes_unique. rewrite Hid, Hkey. reflexivity.
    + rewrite Hback. reflexivity.
Qed.

(* ===================================================================== *)
(** * Subscriptions *)
(* ===================================================================== *)

Lemma get_current_user_reads decode_token authorization (s : Session) :
  fst (get_current_user decode_token authorization s) = s.
Proof.
  unfold get_current_user, oauth2_scheme, bind, query.
  destruct authorization as [token|]; simpl; [|reflexivity].
  destruct (decode_token token) as [payload|e]; [|reflexivity].
  destruct (payload_get "sub" payload); [|reflexivity]. simpl.
  destruct (first _); reflexivity.
Qed.

Lemma get_current_user_run decode_token authorization db :
  get_current_user decode_token authorization (SessionLocal db) =
  (SessionLocal db, authenticate decode_token authorization db).
Proof.
  unfold authenticate.
  pose proof (get_current_user_reads decode_token authorization (SessionLocal db)) as H.
  destruct (get_current_user _ _ _) as [s r]. simpl in *. subst. reflexivity.
Qed.

(** The user a request authenticates as is a row of [users]. *)
Lemma authenticate_user decode_token authorization db user :
  authenticate decode_token authorization db = Ok user -> In user (users db).
Proof.
  unfold authenticate, get_current_user, oauth2_scheme, bind, query.
  destruct authorization as [token|]; simpl; [|discriminate].
  destruct (decode_token token) as [payload|e]; [|discriminate].
  destruct (payload_get "sub" payload); [|discriminate]. simpl.
  destruct (first _) as [u|] eqn:E; simpl; [|discriminate].
  intros [= <-]. now apply first_filter_some in E.
Qed.

Lemma subscribe_user_self db user_id now current_user :
  User.id current_user = user_id ->
  run (subscribe_user user_id now current_user) db =
  (Raise (HTTPException status.HTTP_400_BAD_REQUEST "Cannot subscribe to yourself"), db).
Proof.
  intros H. unfold run, get_db, subscribe_user.
  rewrite (proj2 (Z.eqb_eq _ _) H). reflexivity.
Qed.

Lemma subscribe_user_not_found db user_id now current_user :
  User.id current_user <> user_id ->
  user_exists db user_id = false ->
  run (subscribe_user user_id now current_user) db =
  (Raise (HTTPException status.HTTP_404_NOT_FOUND "User not found"), db).
Proof.
  intros Hne H. apply first_filter_none in H.
  unfold run, get_db, subscribe_user. rewrite (proj2 (Z.eqb_neq _ _) Hne).
  unfold bind, query. simpl. rewrite H. reflexivity.
Qed.

Lemma subscribe_user_adds db user_id now current_user :
  User.id current_user <> user_id ->
  user_exists db user_id = true ->
  subscribed db (User.id current_user) user_id = false ->
  run (subscribe_user user_id now current_user) db =
  (Ok (Detail.mk "Subscribed"),
   set_subscriptions db
     (subscriptions db ++
      [Subscription.mk (next_id (map Subscription.id (subscriptions db)))
         (User.id current_user) user_id now])).
Proof.
  intros Hne Hc Hs. apply exists_first in Hc as [channel [Hc Hid]]. apply Z.eqb_eq in Hid.
  unfold run, get_db, subscribe_user. rewrite (proj2 (Z.eqb_neq _ _) Hne).
  unfold bind at 1, query. simpl. rewrite Hc, Hid.
  unfold bind at 1, query. simpl.
  change (fun x => ((Subscription.subscriber_id x =? User.id current_user)
                    && (Subscription.channel_id x =? user_id))%bool)
    with (fun x => pair_eqb (subscription_key x) (User.id current_user, user_id)).
  rewrite (proj2 (first_filter_none _ _) Hs).
  unfold bind, add_Subscription, commit, ret. simpl.
  unfold subscribed in Hs. rewrite Hs. reflexivity.
Qed.

Lemma subscribe_user_removes db user_id now current_user :
  User.id current_user <> user_id ->
  user_exists db user_id = true ->
  subscribed db (User.id current_user) user_id = true ->
  exists subscription,
    In subscription (subscriptions db) /\
    subscription_key subscription = (User.id current_user, user_id) /\
    run (subscribe_user user_id now current_user) db =
    (Ok (Detail.mk "Unsubscribed"),
     set_subscriptions db (without Subscription.id subscription (subscriptions db))).
Proof.
  intros Hne Hc Hs. apply exists_first in Hc as [channel [Hc Hid]]. apply Z.eqb_eq in Hid.
  apply exists_first in Hs as [subscription [Hs Hk]].
  exists subscription. split; [|split].
  - now apply first_filter_some in Hs.
  - now apply pair_eqb_eq.
  - unfold run, get_db, subscribe_user. rewrite (proj2 (Z.eqb_neq _ _) Hne).
    unfold bind at 1, query. simpl. rewrite Hc, Hid.
    unfold bind at 1, query. simpl.
    change (fun x => ((Subscription.subscriber_id x =? User.id current_user)
                      && (Subscription.channel_id x =? user_id))%bool)
      with (fun x => pair_eqb (subscription_key x) (User.id current_user, user_id)).
    rewrite Hs. reflexivity.
Qed.

(** The subscribe endpoint: credentials first, then the handler. *)
Lemma answer_subscribe get_password_hash verify_password create_access_token
    decode_token env authorization user_id db :
  answer get_password_hash verify_password create_access_token decode_token env
    (POST_users_id_subscribe authorization user_id) db =
  match authenticate decode_token authorization db with
  | Raise e => (Raise e, db)
  | Ok current_user =>
      match run (subscribe_user user_id (now env) current_user) db with
      | (Ok detail, db') => (Ok (DetailBody detail), db')
      | (Raise e, db') => (Raise e, db')
      end
  end.
Proof.
  unfold answer, serve, get_db, handle, run, get_db, bind at 1.
  rewrite get_current_user_run.
  destruct (authenticate decode_token authorization db) as [u|e]; [|reflexivity].
  unfold bind, ret.
  destruct (subscribe_user user_id (now env) u (SessionLocal db)) as [s [d|e]];
    reflexivity.
Qed.

Lemma subscribed_after_remove db subscription u c :
  subscriptions_unique db = true ->
  In subscription (subscriptions db) ->
  subscribed (set_subscriptions db
                (without Subscription.id subscription (subscriptions db))) u c =
  (subscribed db u c && negb (pair_eqb (subscription_key subscription) (u, c)))%bool.
Proof.
  intros Hu Hin. apply andb_true_iff in Hu as [Hid Hkey].
  unfold subscribed. simpl.
  apply (without_has Subscription.id subscription_key); assumption.
Qed.

Lemma subscribed_after_add db subscription u c :
  subscribed (set_subscriptions db (subscriptions db ++ [subscription])) u c =
  (subscribed db u c || pair_eqb (subscription_key subscription) (u, c))%bool.
Proof.
  unfold subscribed. simpl. rewrite has_app. simpl. rewrite orb_false_r. reflexivity.
Qed.

(** C5, as the code has it.  The credentials are resolved before the
    handler runs: a request whose credentials are refused fails with the
    exception of [get_current_user] (401 when the header is missing, the
    token carries no subject or the subject names no user), whatever the
    target, and changes nothing.  For an authenticated caller, a target
    equal to the caller's id fails with 400 "Cannot subscribe to yourself"
    and changes nothing, whether or not other checks would pass; a
    missing target fails with 404; any other existing target toggles the
    subscription row of the pair (subscriber, channel). *)
Theorem subscribe_user_contract
    (get_password_hash : string -> string)
    (verify_password : string -> string -> bool)
    (create_access_token : list (string * string) -> string)
    (decode_token : string -> Result (list (string * string)))
    (env : Env) (authorization : option string) (user_id : Z) (db : Tables) :
  subscriptions_unique db = true ->
  let response :=
    answer get_password_hash verify_password create_access_token decode_token env
      (POST_users_id_subscribe authorization user_id) db in
  (forall e, authenticate decode_token authorization db = Raise e ->
     response = (Raise e, db)) /\
  (authorization = None ->
     response = (Raise (HTTPException status.HTTP_401_UNAUTHORIZED "Not authenticated"),
                 db)) /\
  (forall token payload,
     authorization = Some token -> decode_token token = Ok payload ->
     (payload_get "sub" payload = None ->
        response = (Raise (HTTPException status.HTTP_401_UNAUTHORIZED "Invalid token"),
                    db)) /\
     (forall username, payload_get "sub" payload = Some username ->
        username_taken db username = false ->
        response = (Raise (HTTPException status.HTTP_401_UNAUTHORIZED "User not found"),
                    db))) /\
  (forall current_user,
     authenticate decode_token authorization db = Ok current_user ->
     let uid := User.id current_user in
     (uid = user_id ->
        response =
          (Raise (HTTPException status.HTTP_400_BAD_REQUEST "Cannot subscribe to yourself"),
           db)) /\
     (uid <> user_id -> user_exists db user_id = false ->
        response =
          (Raise (HTTPException status.HTTP_404_NOT_FOUND "User not found"), db)) /\
     (uid <> user_id -> user_exists db user_id = true ->
        (subscribed db uid user_id = true ->
           fst response = Ok (DetailBody (Detail.mk "Unsubscribed")) /\
           exists subscription,
             In subscription (subscriptions db) /\
             subscription_key subscription = (uid, user_id) /\
             snd response =
               set_subscriptions db
                 (without Subscription.id subscription (subscriptions db))) /\
        (subscribed db uid user_id = false ->
           fst response = Ok (DetailBody (Detail.mk "Subscribed")) /\
           exists subscription,
             subscription_key subscription = (uid, user_id) /\
             snd response = set_subscriptions db (subscriptions db ++ [subscription])) /\
        (forall u c, subscribed (snd response) u c =
                     if pair_eqb (u, c) (uid, user_id) then negb (subscribed db u c)
                     else subscribed db u c))).
Proof.
  intros Hu response. subst response. rewrite answer_subscribe.
  split; [|split; [|split]].
  - intros e ->. reflexivity.
  - intros ->. reflexivity.
  - intros token payload -> Hd. unfold authenticate, get_current_user, bind, query.
    simpl. rewrite Hd. split.
    + intros ->. reflexivity.
    + intros username -> Hfree. simpl.
      rewrite (proj2 (first_filter_none _ _) Hfree). reflexivity.
  - intros current_user -> uid. split; [|split].
    + intros H. rewrite (subscribe_user_self db user_id (now env) current_user H).
      reflexivity.
    + intros Hne Hc. rewrite (subscribe_user_not_found db user_id (now env) _ Hne Hc).
      reflexivity.
    + intros Hne Hc. destruct (subscribed db uid user_id) eqn:Hs.
      * destruct (subscribe_user_removes db user_id (now env) current_user Hne Hc Hs)
          as [x [Hin [Hk Hrun]]].
        rewrite Hrun. simpl. split; [|split].
        -- intros _. split; [reflexivity|]. exists x. auto.
        -- discriminate.
        -- intros u c. rewrite subscribed_after_remove by assumption.
           rewrite Hk, (pair_eqb_sym (u, c)). fold uid.
           destruct (pair_eqb (uid, user_id) (u, c)) eqn:E; simpl.
           ++ apply pair_eqb_eq in E. injection E as <- <-. fold uid.
              rewrite Hs. reflexivity.
           ++ apply andb_true_r.
      * rewrite (subscribe_user_adds db user_id (now env) current_user Hne Hc Hs).
        simpl. split; [|split].
        -- discriminate.
        -- intros _. split; [reflexivity|]. eexists. split; [|reflexivity]. reflexivity.
        -- intros u c. rewrite subscribed_after_add. unfold subscription_key at 1. simpl.
           rewrite (pair_eqb_sym (u, c)). fold uid.
           destruct (pair_eqb (uid, user_id) (u, c)) eqn:E; simpl.
           ++ apply pair_eqb_eq in E. injection E as <- <-. fold uid.
              rewrite Hs. reflexivity.
           ++ apply orb_false_r.
Qed.

(* ===================================================================== *)
(** * Uploads *)
(* ===================================================================== *)

Lemma lstrip_space c s : Str.isspace c = true -> Str.strip (String c s) = Str.strip s.
Proof. intros H. unfold Str.strip. simpl. rewrite H. reflexivity. Qed.

(** Every piece of a blank string strips to the empty string. *)
Lemma split_blank (s : string) :
  Str.blank s = true ->
  Forall (fun g => Str.strip g = EmptyString) (Str.split "," s).
Proof.
  induction s as [|c r IH]; simpl; intros H.
  - constructor; [reflexivity | constructor].
  - apply andb_true_iff in H as [Hc Hr]. specialize (IH Hr).
    destruct (Ascii.eqb c ",") eqn:E.
    + constructor; [reflexivity | exact IH].
    + simpl in Hc. destruct (Str.split "," r) as [|h t].
      * constructor; [|constructor]. rewrite lstrip_space by exact Hc. reflexivity.
      * inversion IH as [|? ? Hh Ht]; subst. constructor; [|exact Ht].
        rewrite lstrip_space by exact Hc. exact Hh.
Qed.

Lemma genre_names_blank (genres : string) :
  Str.blank genres = true -> genre_names genres = [].
Proof.
  intros H. unfold genre_names. rewrite filter_none; [reflexivity|].
  intros g Hg. pose proof (split_blank genres H) as F.
  rewrite Forall_forall in F. rewrite (F g Hg). reflexivity.
Qed.

Lemma user_exists_owner (t : Tables) (video : Video.t) :
  user_exists t (Video.owner_id video) = true ->
  exists owner, Video_owner t video = Some owner /\ User.id owner = Video.owner_id video.
Proof.
  intros H. apply exists_first in H as [owner [H1 H2]].
  exists owner. split; [exact H1 | now apply Z.eqb_eq].
Qed.

(** An upload that names no genre inserts the video row and nothing else. *)
Lemma upload_video_no_names (db : Tables) title description genres file_filename
    uuid4 now current_user :
  genre_names genres = [] ->
  user_exists db (User.id current_user) = true ->
  let video := Video.mk (next_id (map Video.id (videos db))) title description
                 (uuid4 ++ "_" ++ file_filename)%string now (User.id current_user) in
  exists owner,
    Video_owner db video = Some owner /\
    run (upload_video title description genres file_filename uuid4 now current_user) db =
    (Ok (VideoOut.mk (Video.id video) title description (Video.filename video) now
           (UserOut.from_orm owner) (map GenreOut.from_orm (Video_genres db video))
           (like_count db (Video.id video))),
     set_videos db (videos db ++ [video])).
Proof.
  intros Hnames Hu video.
  destruct (user_exists_owner db video Hu) as [owner [Ho _]].
  exists owner. split; [exact Ho|].
  unfold run, get_db, upload_video. rewrite Hnames. simpl collect_genres.
  unfold bind at 1, ret at 1. unfold bind at 1.
  unfold add_Video, bind at 1. simpl link_genres. fold video.
  unfold bind at 1, ret at 1. unfold ret at 1.
  unfold bind at 1, commit. cbn [txn store closed SessionLocal].
  unfold bind at 1.
  rewrite (refresh_appended videos Video.id (videos db) video); try reflexivity.
  unfold serialize_video, bind at 1, query at 1. unfold bind at 1.
  rewrite (refresh_appended videos Video.id (videos db) video); try reflexivity.
  unfold bind, query, ret. cbn [txn store closed].
  change (Video_owner (set_videos db _) video) with (Video_owner db video).
  rewrite Ho. reflexivity.
Qed.

(** An endpoint behind [get_current_user]: credentials, then the handler. *)
Lemma authenticated_endpoint {A} decode_token authorization (h : User.t -> M A)
    (wrap : A -> Response) (db : Tables) :
  (let (s, r) := get_db (current_user <- get_current_user decode_token authorization ;;
                         x <- h current_user ;; ret (wrap x)) db in
   (r, store s)) =
  match authenticate decode_token authorization db with
  | Raise e => (Raise e, db)
  | Ok current_user =>
      match run (h current_user) db with
      | (Ok x, db') => (Ok (wrap x), db')
      | (Raise e, db') => (Raise e, db')
      end
  end.
Proof.
  unfold run, get_db, bind at 1. rewrite get_current_user_run.
  destruct (authenticate decode_token authorization db) as [u|e]; [|reflexivity].
  unfold bind, ret. destruct (h u (SessionLocal db)) as [s [x|e]]; reflexivity.
Qed.

Lemma In_user_exists (t : Tables) (u : User.t) :
  In u (users t) -> user_exists t (User.id u) = true.
Proof.
  intros H. apply existsb_exists. exists u. split; [exact H | apply Z.eqb_refl].
Qed.

Lemma no_links_of_new_video (t : Tables) (video : Video.t) :
  links_reference_videos t = true ->
  Video.id video = next_id (map Video.id (videos t)) ->
  video_links t (Video.id video) = [] /\ Video_genres t video = [].
Proof.
  intros Hfk Hid. unfold links_reference_videos in Hfk. rewrite forallb_forall in Hfk.
  assert (forall vg, In vg (video_genre t) -> (fst vg =? Video.id video) = false) as Hno.
  { intros vg Hvg. specialize (Hfk vg Hvg).
    apply existsb_exists in Hfk as [v [Hv Hv']]. apply Z.eqb_eq in Hv'.
    apply Z.eqb_neq.
    pose proof (next_id_above _ _ (in_map Video.id _ _ Hv)). lia. }
  split.
  - apply filter_none. exact Hno.
  - unfold Video_genres. clear Hfk. induction (video_genre t) as [|vg l IH]; [reflexivity|].
    simpl. rewrite (Hno vg (or_introl eq_refl)). simpl. apply IH.
    intros x Hx. apply Hno. now right.
Qed.

(** C10.  An upload by an authenticated user whose [genres] field is
    empty or made of commas and white space only succeeds; it inserts
    the video row and nothing else, so no genre row and no association
    row is created, and the video it returns has no genres. *)
Theorem upload_blank_genres
    (get_password_hash : string -> string)
    (verify_password : string -> string -> bool)
    (create_access_token : list (string * string) -> string)
    (decode_token : string -> Result (list (string * string)))
    (env : Env) (authorization : option string) (title : string)
    (description : option string) (genres_field file_filename : string)
    (db : Tables) (current_user : User.t) :
  Str.blank genres_field = true ->
  authenticate decode_token authorization db = Ok current_user ->
  links_reference_videos db = true ->
  exists video out,
    answer get_password_hash verify_password create_access_token decode_token env
      (POST_videos authorization title description genres_field file_filename) db =
      (Ok (VideoBody out), set_videos db (videos db ++ [video])) /\
    Video.owner_id video = User.id current_user /\
    VideoOut.id out = Video.id video /\
    VideoOut.genres out = [] /\
    video_links (set_videos db (videos db ++ [video])) (Video.id video) = [] /\
    genres (set_videos db (videos db ++ [video])) = genres db /\
    video_genre (set_videos db (videos db ++ [video])) = video_genre db.
Proof.
  intros Hblank Hauth Hfk.
  pose proof (In_user_exists db current_user (authenticate_user _ _ _ _ Hauth)) as Hu.
  destruct (upload_video_no_names db title description genres_field file_filename
              (uuid4 env) (now env) current_user (genre_names_blank genres_field Hblank) Hu)
    as [owner [Ho Hrun]].
  set (video := Video.mk (next_id (map Video.id (videos db))) title description
                  (uuid4 env ++ "_" ++ file_filename)%string (now env)
                  (User.id current_user)) in *.
  destruct (no_links_of_new_video db video Hfk eq_refl) as [Hl Hg].
  exists video. eexists. split.
  - unfold answer, serve, handle.
    rewrite (authenticated_endpoint decode_token authorization
               (upload_video title description genres_field file_filename
                  (uuid4 env) (now env))
               VideoBody db).
    rewrite Hauth, Hrun. reflexivity.
  - split; [reflexivity|]. split; [reflexivity|].
    split; [cbn [VideoOut.genres]; rewrite Hg; reflexivity|].
    split; [exact Hl|]. split; reflexivity.
Qed.

(** C3 (what the code does on the input of the claim).  For the genres
    field "Comedy, comedy, COMEDY" the three names all resolve to the one
    genre row "Comedy" created for the first of them, which is appended to
    the [genres] collection of the video three times; the video then
    emits three identical [video_genre] rows, the second violates the
    primary key of that table, the request ends in an [IntegrityError]
    and nothing of it is kept: no video row, no genre row, no link. *)
Theorem upload_same_genre_thrice :
  let comedy := Genre.mk 1 "Comedy" in
  genre_names "Comedy, comedy, COMEDY" = ["Comedy"; "comedy"; "COMEDY"] /\
  collect_genres ["Comedy"; "comedy"; "COMEDY"] [] (SessionLocal db_alice) =
    (mkSession db_alice (set_genres db_alice [comedy]) false,
     Ok [comedy; comedy; comedy]) /\
  answer sample_get_password_hash sample_verify_password sample_create_access_token
    sample_decode_token (mkEnv 5 "0b5e")
    (POST_videos (Some "alice") "clip" None "Comedy, comedy, COMEDY" "clip.mp4")
    db_alice =
    (Raise (IntegrityError "video_genre.video_id, video_genre.genre_id"), db_alice).
Proof. repeat split; vm_compute; reflexivity. Qed.

(* ===================================================================== *)
(** * Ordering, limits and groups *)
(* ===================================================================== *)

Section Ordering.

Context {A : Type} (before : A -> A -> bool).
Hypothesis before_total : forall a b, before a b = false -> before b a = true.
Hypothesis before_trans :
  forall a b c, before a b = true -> before b c = true -> before a c = true.

Let R (a b : A) : Prop := before a b = true.

Lemma insert_by_In x y rows : In y (insert_by before x rows) <-> y = x \/ In y rows.
Proof.
  induction rows as [|z rows IH]; simpl.
  - intuition auto.
  - destruct (before x z); simpl; [intuition auto|]. rewrite IH. intuition auto.
Qed.

Lemma order_by_In y rows : In y (order_by before rows) <-> In y rows.
Proof.
  induction rows as [|x rows IH]; simpl; [tauto|].
  unfold order_by in *. simpl. rewrite insert_by_In, IH. intuition auto.
Qed.

Lemma insert_by_length x rows :
  List.length (insert_by before x rows) = S (List.length rows).
Proof.
  induction rows as [|z rows IH]; simpl; [reflexivity|].
  destruct (before x z); simpl; [reflexivity | now rewrite IH].
Qed.

Lemma order_by_length rows : List.length (order_by before rows) = List.length rows.
Proof.
  induction rows as [|x rows IH]; simpl; [reflexivity|].
  unfold order_by in *. simpl. now rewrite insert_by_length, IH.
Qed.

Lemma insert_by_sorted x rows :
  StronglySorted R rows -> StronglySorted R (insert_by before x rows).
Proof.
  induction rows as [|z rows IH]; simpl; intros Hs.
  - constructor; constructor.
  - inversion Hs as [|? ? Hs' Hz]; subst.
    destruct (before x z) eqn:E.
    + constructor; [exact Hs|]. constructor; [exact E|].
      rewrite Forall_forall in *. intros w Hw. apply (before_trans x z w E (Hz w Hw)).
    + constructor; [apply IH; exact Hs'|].
      rewrite Forall_forall in *. intros w Hw. apply insert_by_In in Hw as [->|Hw].
      * apply before_total. exact E.
      * apply Hz. exact Hw.
Qed.

Lemma order_by_sorted rows : StronglySorted R (order_by before rows).
Proof.
  induction rows as [|x rows IH]; simpl; [constructor|].
  unfold order_by in *. simpl. apply insert_by_sorted. exact IH.
Qed.

End Ordering.

Lemma firstn_sorted {A} (R : A -> A -> Prop) (n : nat) (rows : list A) :
  StronglySorted R rows -> StronglySorted R (firstn n rows).
Proof.
  revert rows. induction n as [|n IH]; intros rows Hs; simpl; [constructor|].
  destruct rows as [|x rows]; [constructor|].
  inversion Hs as [|? ? Hs' Hx]; subst. constructor; [apply IH; exact Hs'|].
  rewrite Forall_forall in *. intros y Hy. apply Hx.
  eapply (In_nth_error) in Hy as [k Hk].
  apply nth_error_In with (n := k). rewrite nth_error_firstn in Hk.
  destruct (Nat.ltb k n); [exact Hk | discriminate].
Qed.

Lemma limit_sorted {A} (R : A -> A -> Prop) (n : Z) (rows : list A) :
  StronglySorted R rows -> StronglySorted R (limit n rows).
Proof. unfold limit. destruct (n <? 0); [auto | apply firstn_sorted]. Qed.

Lemma limit_In {A} (n : Z) (rows : list A) (x : A) : In x (limit n rows) -> In x rows.
Proof.
  unfold limit. destruct (n <? 0); [auto|].
  intros H. rewrite <- (firstn_skipn (Z.to_nat n) rows). apply in_app_iff. now left.
Qed.

Lemma limit_length {A} (n : Z) (rows : list A) :
  0 <= n -> (List.length (limit n rows) <= Z.to_nat n)%nat.
Proof.
  intros Hn. unfold limit. destruct (Z.ltb_spec n 0); [lia|]. apply firstn_le_length.
Qed.

Lemma limit_all {A} (n : Z) (rows : list A) :
  (List.length rows <= Z.to_nat n)%nat -> limit n rows = rows.
Proof.
  intros H. unfold limit. destruct (n <? 0); [reflexivity|]. now apply firstn_all2.
Qed.

Lemma rank_before_total (a b : Video.t * Z) :
  rank_before a b = false -> rank_before b a = true.
Proof.
  unfold rank_before.
  destruct (Z.ltb_spec (snd b) (snd a)), (Z.ltb_spec (snd a) (snd b)),
    (Z.eqb_spec (snd a) (snd b)), (Z.eqb_spec (snd b) (snd a)),
    (Z.leb_spec (Video.created_at (fst b)) (Video.created_at (fst a))),
    (Z.leb_spec (Video.created_at (fst a)) (Video.created_at (fst b)));
    simpl; intros; try reflexivity; try discriminate; lia.
Qed.

Lemma rank_before_spec (a b : Video.t * Z) :
  rank_before a b = true <->
  snd b < snd a \/
  (snd a = snd b /\ Video.created_at (fst b) <= Video.created_at (fst a)).
Proof.
  unfold rank_before.
  rewrite orb_true_iff, andb_true_iff, Z.ltb_lt, Z.eqb_eq, Z.leb_le. tauto.
Qed.

Lemma rank_before_trans (a b c : Video.t * Z) :
  rank_before a b = true -> rank_before b c = true -> rank_before a c = true.
Proof. rewrite !rank_before_spec. lia. Qed.

(** Groups. *)
Lemma group_heads_In {A} (key : A -> Z) (seen : list Z) (rows : list A) (h : A) :
  In h (group_heads key seen rows) -> In h rows.
Proof.
  revert seen. induction rows as [|r rows IH]; intros seen; simpl; [tauto|].
  destruct (existsb _ seen); simpl; [eauto|]. intros [->|H]; eauto.
Qed.

Lemma group_heads_complete {A} (key : A -> Z) (seen : list Z) (rows : list A) (r : A) :
  In r rows -> existsb (Z.eqb (key r)) seen = false ->
  exists h, In h (group_heads key seen rows) /\ key h = key r.
Proof.
  revert seen. induction rows as [|x rows IH]; intros seen; simpl; [tauto|].
  intros [->|Hin] Hseen.
  - rewrite Hseen. exists r. split; [now left | reflexivity].
  - destruct (existsb (Z.eqb (key x)) seen) eqn:E; [now apply IH|].
    destruct (Z.eqb_spec (key r) (key x)) as [Hk|Hk].
    + exists x. split; [now left | now symmetry].
    + destruct (IH (key x :: seen) Hin) as [h [Hh Hkh]].
      * simpl. rewrite (proj2 (Z.eqb_neq _ _) Hk). exact Hseen.
      * exists h. split; [now right | exact Hkh].
Qed.

Lemma group_by_count_In {A} (key : A -> Z) (rows : list A) (h : A) (n : Z) :
  In (h, n) (group_by_count key rows) ->
  In h rows /\
  n = Z.of_nat (List.length (filter (fun r => key r =? key h) rows)) /\ 1 <= n.
Proof.
  unfold group_by_count. intros H. apply in_map_iff in H as [x [[= -> <-] Hx]].
  apply group_heads_In in Hx. split; [exact Hx|]. split; [reflexivity|].
  assert (In h (filter (fun r => key r =? key h) rows)) as Hf
    by (apply filter_In; split; [exact Hx | apply Z.eqb_refl]).
  destruct (filter _ rows); [contradiction | simpl; lia].
Qed.

(* ===================================================================== *)
(** * Serialization *)
(* ===================================================================== *)

Lemma first_filter_unique {A} (pk : A -> Z) (rows : list A) (x : A) :
  NoDup (map pk rows) -> In x rows ->
  first (filter (fun r => pk r =? pk x) rows) = Some x.
Proof.
  induction rows as [|a rows IH]; simpl; [tauto|].
  intros Hn Hin. inversion Hn as [|? ? Ha Hn']; subst.
  destruct Hin as [->|Hin].
  - rewrite Z.eqb_refl. reflexivity.
  - destruct (Z.eqb_spec (pk a) (pk x)) as [E|E]; [|auto].
    exfalso. apply Ha. rewrite E. now apply in_map.
Qed.

Lemma video_ids_NoDup (t : Tables) :
  video_ids_unique t = true -> NoDup (map Video.id (videos t)).
Proof. apply uniqueb_NoDup. apply Z.eqb_eq. Qed.

Lemma Video_genres_id (t : Tables) (v v' : Video.t) :
  Video.id v = Video.id v' -> Video_genres t v = Video_genres t v'.
Proof. unfold Video_genres. intros ->. reflexivity. Qed.

Lemma serialize_video_reads (video : Video.t) (s : Session) :
  fst (serialize_video video s) = s.
Proof.
  unfold serialize_video, refresh, bind, query, ret, raise. simpl.
  destruct (first _) as [v|]; simpl; [|reflexivity].
  destruct (Video_owner (txn s) v); reflexivity.
Qed.

(** What a successful [serialize_video] returns: the row the video is
    refreshed to, with its owner, its genres and its number of likes. *)
Lemma serialize_video_inv (video : Video.t) (s s' : Session) (out : VideoOut.t) :
  serialize_video video s = (s', Ok out) ->
  s' = s /\
  exists row owner,
    first (filter (fun r => Video.id r =? Video.id video) (videos (txn s))) = Some row /\
    Video_owner (txn s) row = Some owner /\
    out = video_out (txn s) row owner.
Proof.
  unfold serialize_video, refresh, bind, query, ret, raise. simpl.
  destruct (first _) as [row|] eqn:E; simpl; [|discriminate].
  destruct (Video_owner (txn s) row) as [owner|] eqn:F; [|discriminate].
  intros [= <- <-]. split; [reflexivity|]. exists row, owner.
  split; [reflexivity|]. split; [exact F|].
  apply first_filter_some in E as [_ E]. apply Z.eqb_eq in E.
  unfold video_out, like_count. rewrite E. reflexivity.
Qed.

Lemma owners_exist_owner (t : Tables) (video : Video.t) :
  owners_exist t = true -> In video (videos t) ->
  exists owner, Video_owner t video = Some owner /\ User.id owner = Video.owner_id video.
Proof.
  intros H Hin. unfold owners_exist in H. rewrite forallb_forall in H.
  apply user_exists_owner. exact (H video Hin).
Qed.

Lemma serialize_video_ok (video : Video.t) (s : Session) :
  video_ids_unique (txn s) = true -> owners_exist (txn s) = true ->
  In video (videos (txn s)) ->
  exists owner,
    Video_owner (txn s) video = Some owner /\
    User.id owner = Video.owner_id video /\
    serialize_video video s = (s, Ok (video_out (txn s) video owner)).
Proof.
  intros Hu Ho Hin. destruct (owners_exist_owner _ _ Ho Hin) as [owner [H1 H2]].
  exists owner. split; [exact H1|]. split; [exact H2|].
  unfold serialize_video, refresh, bind, query, ret. simpl.
  rewrite (first_filter_unique Video.id _ _ (video_ids_NoDup _ Hu) Hin). simpl.
  rewrite H1. reflexivity.
Qed.

(* ===================================================================== *)
(** * The recommendation queries *)
(* ===================================================================== *)

Lemma in_liked_In (liked : list Z) (x : Z) : in_liked liked x = true <-> In x liked.
Proof.
  unfold in_liked. rewrite existsb_exists. split.
  - intros [y [Hy E]]. apply Z.eqb_eq in E. now subst.
  - intros H. exists x. split; [exact H | apply Z.eqb_refl].
Qed.

Lemma In_candidate_rows (t : Tables) (liked : list Z) (uid : Z) (v : Video.t)
    (g : Genre.t) :
  In (v, g) (candidate_rows t liked uid) <->
  In v (videos t) /\ In g (genres t) /\ In (Video.id v, Genre.id g) (video_genre t) /\
  in_liked liked (Genre.id g) = true /\ Video.owner_id v <> uid.
Proof.
  unfold candidate_rows. rewrite in_flat_map. split.
  - intros [v' [Hv H]]. apply in_flat_map in H as [vg [Hvg H]].
    destruct (Z.eqb_spec (Video.id v') (fst vg)) as [E1|]; [|contradiction].
    apply in_flat_map in H as [g' [Hg H]].
    destruct (Z.eqb_spec (Genre.id g') (snd vg)) as [E2|]; [|contradiction].
    simpl in H.
    destruct (existsb (Z.eqb (Genre.id g')) liked) eqn:E3; [|contradiction].
    destruct (Z.eqb_spec (Video.owner_id v') uid) as [|E4]; [contradiction|].
    simpl in H. destruct H as [[= <- <-]|[]].
    repeat split; try assumption.
    rewrite E1, E2. destruct vg. exact Hvg.
  - intros (Hv & Hg & Hvg & Hl & Ho). exists v. split; [exact Hv|].
    apply in_flat_map. exists (Video.id v, Genre.id g). split; [exact Hvg|].
    simpl. rewrite Z.eqb_refl. apply in_flat_map. exists g. split; [exact Hg|].
    rewrite Z.eqb_refl. unfold in_liked in Hl. rewrite Hl.
    rewrite (proj2 (Z.eqb_neq _ _) Ho). simpl. now left.
Qed.

Lemma filter_flat_map' {A B} (p : B -> bool) (f : A -> list B) (l : list A) :
  filter p (flat_map f l) = flat_map (fun x => filter p (f x)) l.
Proof.
  induction l as [|a l IH]; simpl; [reflexivity|]. now rewrite filter_app, IH.
Qed.

Lemma flat_map_single {A B} (pk : A -> Z) (f : A -> list B) (l : list A) (x : A) :
  NoDup (map pk l) -> In x l ->
  flat_map (fun y => if pk y =? pk x then f y else []) l = f x.
Proof.
  induction l as [|a l IH]; simpl; [tauto|].
  intros Hn Hin. inversion Hn as [|? ? Ha Hn']; subst.
  assert (forall l', ~ In (pk x) (map pk l') ->
                     flat_map (fun y => if pk y =? pk x then f y else []) l' = [])
    as Hnone.
  { induction l' as [|b l' IH']; simpl; [reflexivity|]. intros Hb.
    destruct (Z.eqb_spec (pk b) (pk x)) as [E|E]; [exfalso; apply Hb; now left|].
    apply IH'. tauto. }
  destruct Hin as [->|Hin].
  - rewrite Z.eqb_refl, Hnone by exact Ha. apply app_nil_r.
  - destruct (Z.eqb_spec (pk a) (pk x)) as [E|E].
    + exfalso. apply Ha. rewrite E. now apply in_map.
    + simpl. now apply IH.
Qed.

Lemma joined_length (liked : list Z) (uid : Z) (v : Video.t) (links : list (Z * Z))
    (gs : list Genre.t) :
  Video.owner_id v <> uid ->
  List.length
    (flat_map (fun vg : Z * Z =>
       if Video.id v =? fst vg then
         flat_map (fun g =>
           if ((Genre.id g =? snd vg) && existsb (Z.eqb (Genre.id g)) liked
               && negb (Video.owner_id v =? uid))%bool
           then [(v, g)] else []) gs
       else []) links) =
  List.length
    (filter (fun g => in_liked liked (Genre.id g))
       (flat_map (fun vg : Z * Z =>
          if fst vg =? Video.id v
          then filter (fun g => Genre.id g =? snd vg) gs
          else []) links)).
Proof.
  intros Ho. rewrite filter_flat_map'.
  induction links as [|vg l IH]; [reflexivity|].
  simpl. rewrite !length_app, IH. f_equal.
  rewrite (Z.eqb_sym (Video.id v) (fst vg)).
  destruct (fst vg =? Video.id v); [|reflexivity].
  rewrite (proj2 (Z.eqb_neq _ _) Ho). simpl. clear IH.
  induction gs as [|g gs IHg]; [reflexivity|].
  simpl. destruct (Genre.id g =? snd vg); simpl; [|exact IHg].
  unfold in_liked at 1. destruct (existsb (Z.eqb (Genre.id g)) liked); simpl;
    [f_equal|]; exact IHg.
Qed.

(** The rows the second query joins to one video. *)
Lemma candidate_count (t : Tables) (liked : list Z) (uid : Z) (v : Video.t) :
  NoDup (map Video.id (videos t)) -> In v (videos t) -> Video.owner_id v <> uid ->
  List.length (filter (fun row => Video.id (fst row) =? Video.id v)
                 (candidate_rows t liked uid)) =
  List.length (filter (fun g => in_liked liked (Genre.id g)) (Video_genres t v)).
Proof.
  intros Hn Hin Ho. unfold candidate_rows. rewrite filter_flat_map'.
  set (rows_of := fun v' : Video.t =>
         flat_map (fun vg : Z * Z =>
           if Video.id v' =? fst vg then
             flat_map (fun g =>
               if ((Genre.id g =? snd vg) && existsb (Z.eqb (Genre.id g)) liked
                   && negb (Video.owner_id v' =? uid))%bool
               then [(v', g)] else []) (genres t)
           else []) (video_genre t)).
  assert (forall v', filter (fun row : Video.t * Genre.t =>
                               Video.id (fst row) =? Video.id v) (rows_of v') =
                     if Video.id v' =? Video.id v then rows_of v' else []) as Hrows.
  { intros v'. destruct (Video.id v' =? Video.id v) eqn:E.
    - apply forallb_filter_id. apply forallb_forall. intros [v'' g] H.
      unfold rows_of in H. apply in_flat_map in H as [vg [_ H]].
      destruct (Video.id v' =? fst vg); [|contradiction].
      apply in_flat_map in H as [g' [_ H]].
      destruct (_ && _ && _)%bool; [|contradiction].
      destruct H as [[= <- <-]|[]]. exact E.
    - apply filter_none. intros [v'' g] H.
      unfold rows_of in H. apply in_flat_map in H as [vg [_ H]].
      destruct (Video.id v' =? fst vg); [|contradiction].
      apply in_flat_map in H as [g' [_ H]].
      destruct (_ && _ && _)%bool; [|contradiction].
      destruct H as [[= <- <-]|[]]. exact E. }
  rewrite (flat_map_ext _ _ Hrows).
  rewrite (flat_map_single Video.id rows_of (videos t) v Hn Hin).
  unfold rows_of, Video_genres. apply joined_length. exact Ho.
Qed.

Lemma for_each_reads {A B} (f : A -> M B) (xs : list A) (s : Session) :
  (forall x, fst (f x s) = s) -> fst (for_each f xs s) = s.
Proof.
  intros Hf. induction xs as [|x xs IH]; simpl; [reflexivity|].
  unfold bind. specialize (Hf x). destruct (f x s) as [s1 [y|e]]; simpl in *; subst;
    [|reflexivity].
  destruct (for_each f xs s) as [s2 [ys|e]]; simpl in *; subst; reflexivity.
Qed.

Lemma for_each_inv {A B} (f : A -> M B) (xs : list A) (s s' : Session) (ys : list B) :
  (forall x, fst (f x s) = s) ->
  for_each f xs s = (s', Ok ys) ->
  s' = s /\ Forall2 (fun x y => f x s = (s, Ok y)) xs ys.
Proof.
  intros Hf. revert ys. induction xs as [|x xs IH]; simpl; intros ys.
  - intros [= <- <-]. split; [reflexivity | constructor].
  - unfold bind. pose proof (Hf x) as Hx.
    destruct (f x s) as [s1 [y|e]] eqn:E; simpl in Hx; subst; [|discriminate].
    pose proof (for_each_reads f xs s Hf) as Hs.
    destruct (for_each f xs s) as [s2 [zs|e]] eqn:F; simpl in Hs; subst; [|discriminate].
    intros [= <- <-]. split; [reflexivity|].
    constructor; [exact E|]. now apply IH.
Qed.

Lemma for_each_ok {A B} (f : A -> M B) (xs : list A) (s : Session) :
  Forall (fun x => exists y, f x s = (s, Ok y)) xs ->
  exists ys, for_each f xs s = (s, Ok ys).
Proof.
  induction 1 as [|x xs [y Hy] _ [ys IH]]; simpl.
  - exists []. reflexivity.
  - exists (y :: ys). unfold bind. rewrite Hy, IH. reflexivity.
Qed.

Lemma Forall2_In_r {A B} (R : A -> B -> Prop) (xs : list A) (ys : list B) (y : B) :
  Forall2 R xs ys -> In y ys -> exists x, In x xs /\ R x y.
Proof.
  induction 1 as [|a b xs ys Hab _ IH]; simpl; [tauto|].
  intros [<-|H]; [eauto|]. destruct (IH H) as [x [Hx Hr]]. eauto.
Qed.

Lemma Forall2_In_l {A B} (R : A -> B -> Prop) (xs : list A) (ys : list B) (x : A) :
  Forall2 R xs ys -> In x xs -> exists y, In y ys /\ R x y.
Proof.
  induction 1 as [|a b xs ys Hab _ IH]; simpl; [tauto|].
  intros [<-|H]; [eauto|]. destruct (IH H) as [y [Hy Hr]]. eauto.
Qed.

Lemma Forall2_sorted {A B} (R : A -> B -> Prop) (P : A -> A -> Prop)
    (Q : B -> B -> Prop) (xs : list A) (ys : list B) :
  (forall a a' b b', R a b -> R a' b' -> P a a' -> Q b b') ->
  Forall2 R xs ys -> StronglySorted P xs -> StronglySorted Q ys.
Proof.
  intros HPQ H. induction H as [|a b xs ys Hab H IH]; intros Hs; [constructor|].
  inversion Hs as [|? ? Hs' Ha]; subst. constructor; [auto|].
  rewrite Forall_forall in *. intros y Hy.
  destruct (Forall2_In_r _ _ _ _ H Hy) as [x [Hx Hr]]. eauto.
Qed.

Lemma In_Video_genres (t : Tables) (v : Video.t) (g : Genre.t) :
  In g (Video_genres t v) <->
  In g (genres t) /\ In (Video.id v, Genre.id g) (video_genre t).
Proof.
  unfold Video_genres. rewrite in_flat_map. split.
  - intros [[a b] [Hvg H]]. simpl in H.
    destruct (Z.eqb_spec a (Video.id v)) as [->|]; [|contradiction].
    apply filter_In in H as [Hg E]. apply Z.eqb_eq in E. rewrite E. auto.
  - intros [Hg Hvg]. exists (Video.id v, Genre.id g). split; [exact Hvg|].
    simpl. rewrite Z.eqb_refl. apply filter_In. split; [exact Hg | apply Z.eqb_refl].
Qed.

(** The liked-genre set: the genres attached to a video the user likes. *)
Lemma In_liked_genre_ids (t : Tables) (uid gid : Z) :
  In gid (liked_genre_ids t uid) <->
  exists g v l,
    In g (genres t) /\ In v (videos t) /\ In l (video_likes t) /\
    In (Video.id v, Genre.id g) (video_genre t) /\ Genre.id g = gid /\
    VideoLike.video_id l = Video.id v /\ VideoLike.user_id l = uid.
Proof.
  unfold liked_genre_ids, distinct. rewrite nodup_In, in_flat_map. split.
  - intros [g [Hg H]]. apply in_flat_map in H as [vg [Hvg H]].
    destruct (Z.eqb_spec (Genre.id g) (snd vg)) as [E1|]; [|contradiction].
    apply in_flat_map in H as [v [Hv H]].
    destruct (Z.eqb_spec (Video.id v) (fst vg)) as [E2|]; [|contradiction].
    apply in_flat_map in H as [l [Hl H]].
    destruct (Z.eqb_spec (VideoLike.video_id l) (Video.id v)) as [E3|]; [|contradiction].
    destruct (Z.eqb_spec (VideoLike.user_id l) uid) as [E4|]; [|contradiction].
    destruct H as [<-|[]]. exists g, v, l. rewrite E1, E2. destruct vg.
    simpl in *. repeat split; try assumption; congruence.
  - intros (g & v & l & Hg & Hv & Hl & Hvg & <- & E3 & E4).
    exists g. split; [exact Hg|]. apply in_flat_map.
    exists (Video.id v, Genre.id g). split; [exact Hvg|]. simpl.
    rewrite Z.eqb_refl. apply in_flat_map. exists v. split; [exact Hv|].
    rewrite Z.eqb_refl. apply in_flat_map. exists l. split; [exact Hl|].
    rewrite (proj2 (Z.eqb_eq _ _) E3), (proj2 (Z.eqb_eq _ _) E4). now left.
Qed.

Lemma ranked_In (t : Tables) (liked : list Z) (uid : Z) (v : Video.t) (n : Z) :
  In (v, n) (ranked t liked uid) ->
  (exists g, In (v, g) (candidate_rows t liked uid)) /\
  n = Z.of_nat (List.length (filter (fun row => Video.id (fst row) =? Video.id v)
                               (candidate_rows t liked uid))) /\
  1 <= n.
Proof.
  unfold ranked. rewrite order_by_In. intros H.
  apply in_map_iff in H as [[[v' g] n'] [[= -> ->] H]].
  apply group_by_count_In in H as (Hin & Hn & Hpos). simpl in Hn.
  split; [eauto | split; assumption].
Qed.

Lemma ranked_sorted (t : Tables) (liked : list Z) (uid : Z) :
  StronglySorted (fun a b => rank_before a b = true) (ranked t liked uid).
Proof.
  unfold ranked. apply order_by_sorted.
  - exact rank_before_total.
  - exact rank_before_trans.
Qed.

Lemma unique_row {A} (pk : A -> Z) (rows : list A) (a b : A) :
  NoDup (map pk rows) -> In a rows -> In b rows -> pk a = pk b -> a = b.
Proof.
  intros Hn Ha Hb E. pose proof (first_filter_unique pk rows a Hn Ha) as H1.
  pose proof (first_filter_unique pk rows b Hn Hb) as H2.
  rewrite E in H1. congruence.
Qed.

(** Every candidate video is ranked. *)
Lemma ranked_complete (t : Tables) (liked : list Z) (uid : Z) (v : Video.t) (g : Genre.t) :
  NoDup (map Video.id (videos t)) ->
  In (v, g) (candidate_rows t liked uid) ->
  exists n, In (v, n) (ranked t liked uid).
Proof.
  intros Hn Hin.
  destruct (group_heads_complete (fun row : Video.t * Genre.t => Video.id (fst row))
              [] _ (v, g) Hin eq_refl) as [[v' g'] [Hh Hk]].
  simpl in Hk.
  assert (v' = v) as ->.
  { pose proof (group_heads_In _ _ _ _ Hh) as Hr.
    apply In_candidate_rows in Hr as [Hv' _]. apply In_candidate_rows in Hin as [Hv _].
    exact (unique_row Video.id _ _ _ Hn Hv' Hv Hk). }
  eexists. unfold ranked. apply order_by_In. apply in_map_iff.
  eexists (v, g', _). split; [reflexivity|].
  unfold group_by_count. apply in_map_iff. exists (v, g'). split; [reflexivity|exact Hh].
Qed.

Lemma serialize_recommendation_reads (rec : Video.t * Z) (s : Session) :
  fst (serialize_recommendation rec s) = s.
Proof.
  unfold serialize_recommendation, bind, ret.
  pose proof (serialize_video_reads (fst rec) s) as H.
  destruct (serialize_video (fst rec) s) as [s' [v|e]]; simpl in *; subst; reflexivity.
Qed.

Lemma get_recommendations_reads (current_user : User.t) (s : Session) :
  fst (get_recommendations current_user s) = s.
Proof.
  unfold get_recommendations, bind, query, ret. simpl.
  destruct (liked_genre_ids _ _); [reflexivity|].
  apply for_each_reads. intros rec. apply serialize_recommendation_reads.
Qed.

Lemma run_get_recommendations (current_user : User.t) (db : Tables) :
  run (get_recommendations current_user) db =
  (snd (get_recommendations current_user (SessionLocal db)), db).
Proof.
  unfold run, get_db.
  pose proof (get_recommendations_reads current_user (SessionLocal db)) as H.
  destruct (get_recommendations _ _) as [s r]. simpl in *. subst. reflexivity.
Qed.

(** With the keys of [videos] intact, the ranked rows serialize. *)
Lemma for_each_serialize (s : Session) (recs : list (Video.t * Z)) :
  video_ids_unique (txn s) = true -> owners_exist (txn s) = true ->
  (forall rec, In rec recs -> In (fst rec) (videos (txn s))) ->
  exists outs,
    for_each serialize_recommendation recs s = (s, Ok outs) /\
    Forall2 (serialized (txn s)) recs outs.
Proof.
  intros Hu Ho. induction recs as [|rec recs IH]; intros Hin.
  - exists []. split; [reflexivity | constructor].
  - destruct IH as [outs [Hrun HF]]; [intros r Hr; apply Hin; now right|].
    destruct (serialize_video_ok (fst rec) s Hu Ho (Hin rec (or_introl eq_refl)))
      as [owner [H1 [H2 H3]]].
    eexists (_ :: outs). split.
    + simpl. unfold bind at 1. unfold serialize_recommendation at 1, bind at 1.
      rewrite H3. unfold ret at 1. unfold bind. rewrite Hrun. reflexivity.
    + constructor; [|exact HF]. exists owner. auto.
Qed.

(** Without any assumption on the tables: what a list of serialized
    recommendations says about the ranked rows it was made from. *)
Lemma for_each_serialize_inv (s s' : Session) (recs : list (Video.t * Z))
    (outs : list RecommendationOut.t) :
  for_each serialize_recommendation recs s = (s', Ok outs) ->
  Forall2 (fun rec out =>
             RecommendationOut.score out = snd rec /\
             exists row owner,
               Video.id row = Video.id (fst rec) /\
               RecommendationOut.video out = video_out (txn s) row owner)
          recs outs.
Proof.
  intros H. apply for_each_inv in H as [_ H];
    [|intros; apply serialize_recommendation_reads].
  induction H as [|rec out recs outs Hr _ IH]; constructor; [|exact IH].
  unfold serialize_recommendation, bind, ret in Hr.
  destruct (serialize_video (fst rec) s) as [s1 [v|e]] eqn:E; [|discriminate].
  injection Hr as _ <-. simpl. split; [reflexivity|].
  apply serialize_video_inv in E as [_ [row [owner [Hrow [_ ->]]]]].
  exists row, owner. split; [|reflexivity].
  apply first_filter_some in Hrow as [_ Hrow]. now apply Z.eqb_eq.
Qed.

Lemma filter_map_length {A B} (p : B -> bool) (f : A -> B) (l : list A) :
  List.length (filter p (map f l)) = List.length (filter (fun x => p (f x)) l).
Proof.
  induction l as [|a l IH]; simpl; [reflexivity|].
  destruct (p (f a)); simpl; now rewrite IH.
Qed.

Lemma recommendations_In (t : Tables) (liked : list Z) (uid : Z) (rec : Video.t * Z) :
  In rec (recommendations t liked uid) -> In rec (ranked t liked uid).
Proof. apply limit_In. Qed.

(** The whole of [get_recommendations] when the liked-genre set is not
    empty and the keys of [videos] are intact. *)
Lemma get_recommendations_result (db : Tables) (current_user : User.t) :
  video_ids_unique db = true -> owners_exist db = true ->
  liked_genre_ids db (User.id current_user) <> [] ->
  exists outs,
    run (get_recommendations current_user) db = (Ok outs, db) /\
    Forall2 (serialized db)
      (recommendations db (liked_genre_ids db (User.id current_user))
         (User.id current_user))
      outs.
Proof.
  intros Hu Ho Hl.
  destruct (for_each_serialize (SessionLocal db)
              (recommendations db (liked_genre_ids db (User.id current_user))
                 (User.id current_user)) Hu Ho) as [outs [Hrun HF]].
  - intros [v n] Hin. apply recommendations_In, ranked_In in Hin as [[g Hg] _].
    apply In_candidate_rows in Hg. simpl. tauto.
  - exists outs. split; [|exact HF].
    rewrite run_get_recommendations. unfold get_recommendations, bind, query.
    change (txn (SessionLocal db)) with db.
    destruct (liked_genre_ids db (User.id current_user)); [contradiction|].
    cbv beta iota. change (txn (SessionLocal db)) with db. rewrite Hrun. reflexivity.
Qed.

(** C1.  The liked-genre set holds, without repetition, the ids of the
    genres attached to a video the user has a like row for.  When it is
    empty, [get_recommendations] returns the empty list.  Otherwise it
    returns at most 20 recommendations: the first 20 rows of the ranking
    of the candidate videos; each returned video is owned by another
    user, its score is the number of its genres that lie in the
    liked-genre set, and the list is sorted by score, highest first, and
    among equal scores by creation time, newest first. *)
Theorem get_recommendations_ranking (db : Tables) (current_user : User.t) :
  video_ids_unique db = true ->
  owners_exist db = true ->
  let uid := User.id current_user in
  let liked := liked_genre_ids db uid in
  NoDup liked /\
  (forall gid, In gid liked <->
     exists g v l,
       In g (genres db) /\ In v (videos db) /\ In l (video_likes db) /\
       In (Video.id v, Genre.id g) (video_genre db) /\ Genre.id g = gid /\
       VideoLike.video_id l = Video.id v /\ VideoLike.user_id l = uid) /\
  (liked = [] -> run (get_recommendations current_user) db = (Ok [], db)) /\
  (liked <> [] ->
     exists recs,
       run (get_recommendations current_user) db = (Ok recs, db) /\
       Forall2 (serialized db) (firstn 20 (ranked db liked uid)) recs /\
       (List.length recs <= 20)%nat /\
       (forall r, In r recs ->
          UserOut.id (VideoOut.owner (RecommendationOut.video r)) <> uid /\
          RecommendationOut.score r = overlap liked (RecommendationOut.video r)) /\
       StronglySorted outranks recs).
Proof.
  intros Hu Ho uid liked. split; [apply NoDup_nodup|].
  split; [intros gid; apply In_liked_genre_ids|]. split.
  - intros Hl. rewrite run_get_recommendations.
    unfold get_recommendations, bind, query. cbv beta iota.
    change (txn (SessionLocal db)) with db.
    fold uid. fold liked. rewrite Hl. reflexivity.
  - intros Hl. destruct (get_recommendations_result db current_user Hu Ho Hl)
      as [recs [Hrun HF]].
    fold uid in HF. fold liked in HF.
    exists recs. split; [exact Hrun|]. split; [exact HF|]. split; [|split].
    + rewrite <- (Forall2_length HF).
      apply (limit_length 20 (ranked db liked uid)). lia.
    + intros r Hr. destruct (Forall2_In_r _ _ _ _ HF Hr) as [[v n] [Hin Hs]].
      destruct Hs as [owner [H1 [H2 ->]]]. simpl in *.
      apply recommendations_In, ranked_In in Hin as [[g Hg] [Hn _]].
      apply In_candidate_rows in Hg as (Hv & _ & _ & _ & Hown).
      split; [congruence|].
      rewrite Hn, (candidate_count db liked uid v (video_ids_NoDup db Hu) Hv Hown).
      unfold overlap, video_out. simpl. rewrite filter_map_length. reflexivity.
    + apply (Forall2_sorted (serialized db) (fun a b => rank_before a b = true)
               outranks _ _) with (2 := HF).
      * intros a a' b b' [o [_ [_ ->]]] [o' [_ [_ ->]]] Hr.
        apply rank_before_spec in Hr. exact Hr.
      * apply limit_sorted, ranked_sorted.
Qed.

(** C9.  Every recommendation [get_recommendations] returns has a score
    of at least 1, and its video has a genre of the caller's liked-genre
    set. *)
Theorem recommendation_score_positive (db db' : Tables) (current_user : User.t)
    (recs : list RecommendationOut.t) :
  run (get_recommendations current_user) db = (Ok recs, db') ->
  forall r, In r recs ->
    1 <= RecommendationOut.score r /\
    exists g, In g (VideoOut.genres (RecommendationOut.video r)) /\
              In (GenreOut.id g) (liked_genre_ids db (User.id current_user)).
Proof.
  rewrite run_get_recommendations. intros [= Hrun _] r Hr.
  unfold get_recommendations, bind, query in Hrun. cbv beta iota in Hrun.
  change (txn (SessionLocal db)) with db in Hrun.
  set (liked := liked_genre_ids db (User.id current_user)) in *.
  destruct liked as [|a l] eqn:El.
  { injection Hrun as <-. contradiction. }
  rewrite <- El in *. clear El a l.
  destruct (for_each _ _ _) as [s' [outs|e]] eqn:E; simpl in Hrun; [|discriminate].
  injection Hrun as ->. apply for_each_serialize_inv in E.
  destruct (Forall2_In_r _ _ _ _ E Hr) as [[v n] [Hin [Hscore [row [owner [Hid Hv]]]]]].
  simpl in *. apply recommendations_In, ranked_In in Hin as [[g Hg] [_ Hpos]].
  split; [lia|]. apply In_candidate_rows in Hg as (_ & Hg & Hvg & Hl & _).
  exists (GenreOut.from_orm g). split.
  - rewrite Hv. unfold video_out. simpl. apply in_map.
    rewrite (Video_genres_id db row v Hid). apply In_Video_genres. auto.
  - simpl. apply in_liked_In. exact Hl.
Qed.

(** C2, as the code has it.  The second query leaves out the videos the
    caller owns and nothing else: a video the caller has liked, owned by
    someone else and carrying a genre, is itself a row of the ranking
    (its genres are liked genres), and it is returned whenever the
    ranking has at most 20 rows. *)
Theorem liked_video_is_recommended (db : Tables) (current_user : User.t)
    (v : Video.t) (g : Genre.t) (l : VideoLike.t) :
  video_ids_unique db = true ->
  owners_exist db = true ->
  let uid := User.id current_user in
  In v (videos db) -> In g (genres db) -> In l (video_likes db) ->
  In (Video.id v, Genre.id g) (video_genre db) ->
  VideoLike.user_id l = uid -> VideoLike.video_id l = Video.id v ->
  Video.owner_id v <> uid ->
  exists n,
    1 <= n /\
    In (v, n) (ranked db (liked_genre_ids db uid) uid) /\
    ((List.length (ranked db (liked_genre_ids db uid) uid) <= 20)%nat ->
     exists recs r,
       run (get_recommendations current_user) db = (Ok recs, db) /\
       In r recs /\
       VideoOut.id (RecommendationOut.video r) = Video.id v /\
       RecommendationOut.score r = n).
Proof.
  intros Hu Ho uid Hv Hg Hl Hvg Hlu Hlv Hown.
  assert (In (Genre.id g) (liked_genre_ids db uid)) as Hliked
    by (apply In_liked_genre_ids; exists g, v, l; auto 10).
  assert (In (v, g) (candidate_rows db (liked_genre_ids db uid) uid)) as Hc.
  { apply In_candidate_rows. repeat split; try assumption.
    apply in_liked_In. exact Hliked. }
  destruct (ranked_complete db _ uid v g (video_ids_NoDup db Hu) Hc) as [n Hn].
  exists n. split; [apply ranked_In in Hn; tauto|]. split; [exact Hn|].
  intros Hlen.
  assert (liked_genre_ids db uid <> []) as Hne
    by (intros E; rewrite E in Hliked; contradiction).
  destruct (get_recommendations_result db current_user Hu Ho Hne) as [recs [Hrun HF]].
  fold uid in HF. unfold recommendations in HF.
  rewrite limit_all in HF by exact Hlen.
  destruct (Forall2_In_l _ _ _ _ HF Hn) as [r [Hr [owner [_ [_ ->]]]]].
  exists recs. eexists. split; [exact Hrun|]. split; [exact Hr|]. split; reflexivity.
Qed.

(* ===================================================================== *)
(** * Transactions *)
(* ===================================================================== *)

Lemma bind_inv {A B} (m : M A) (k : A -> M B) (s s' : Session) (r : Result B) :
  bind m k s = (s', r) ->
  (exists s1 a, m s = (s1, Ok a) /\ k a s1 = (s', r)) \/
  (exists e, m s = (s', Raise e) /\ r = Raise e).
Proof.
  unfold bind. destruct (m s) as [s1 [a|e]].
  - intros H. left. eauto.
  - intros [= <- <-]. right. eauto.
Qed.

(** The writes of the upload loop touch the [genres] table only, and
    those of the association rows the [video_genre] table only; neither
    commits. *)
Lemma add_Genre_frame name s s' r :
  add_Genre name s = (s', r) ->
  store s' = store s /\ set_genres (txn s') [] = set_genres (txn s) [].
Proof.
  unfold add_Genre. destruct (existsb _ _); intros [= <- <-]; auto.
Qed.

Lemma collect_genres_frame names acc s s' r :
  collect_genres names acc s = (s', r) ->
  store s' = store s /\ set_genres (txn s') [] = set_genres (txn s) [].
Proof.
  revert acc s. induction names as [|name names IH]; intros acc s; simpl.
  - intros [= <- <-]. auto.
  - intros H. apply bind_inv in H as [(s1 & found & [= <- <-] & H)|(e & [=] & _)].
    destruct (first (filter _ (genres (txn s)))) as [found|].
    + apply bind_inv in H as [(s1 & genre & [= <- _] & H)|(e & [=] & _)].
      now apply IH in H.
    + apply bind_inv in H as [(s1 & genre & Hg & H)|(e & Hg & _)].
      * apply IH in H as [H1 H2].
        apply bind_inv in Hg as [(s2 & g & Hg & [= <- _])|(e & Hg & [=])].
        apply add_Genre_frame in Hg as [H3 H4]. split; congruence.
      * apply bind_inv in Hg as [(s2 & g & Hg & [=])|(e' & Hg & _)].
        apply add_Genre_frame in Hg. exact Hg.
Qed.

Lemma link_genres_frame video_id gs s s' r :
  link_genres video_id gs s = (s', r) ->
  store s' = store s /\ set_video_genre (txn s') [] = set_video_genre (txn s) [].
Proof.
  revert s. induction gs as [|g gs IH]; intros s; simpl.
  - intros [= <- <-]. auto.
  - intros H.
    assert (forall s1 r1, add_video_genre (video_id, Genre.id g) s = (s1, r1) ->
              store s1 = store s /\
              set_video_genre (txn s1) [] = set_video_genre (txn s) []) as Hadd.
    { intros s1 r1. unfold add_video_genre. destruct (existsb _ _);
        intros [= <- <-]; auto. }
    apply bind_inv in H as [(s1 & [] & Hg & H)|(e & Hg & _)].
    + apply Hadd in Hg as [H1 H2]. apply IH in H as [H3 H4]. split; congruence.
    + apply Hadd in Hg. exact Hg.
Qed.

Lemma users_set_genres t t' :
  set_genres t' [] = set_genres t [] ->
  users t' = users t /\ videos t' = videos t /\ video_likes t' = video_likes t.
Proof. destruct t, t'. simpl. intros [=]. subst. auto. Qed.

Lemma users_set_video_genre t t' :
  set_video_genre t' [] = set_video_genre t [] ->
  users t' = users t /\ videos t' = videos t /\ video_likes t' = video_likes t.
Proof. destruct t, t'. simpl. intros [=]. subst. auto. Qed.

(** [add_Video] either fails, leaving the store alone, or appends the
    new row, with a fresh key, to [videos]. *)
Lemma add_Video_inv title description filename owner gs now s s' r :
  add_Video title description filename owner gs now s = (s', r) ->
  store s' = store s /\ users (txn s') = users (txn s) /\
  forall video, r = Ok video ->
    video = Video.mk (next_id (map Video.id (videos (txn s)))) title description
              filename now (User.id owner) /\
    videos (txn s') = (videos (txn s) ++ [video])%list.
Proof.
  unfold add_Video. intros H.
  apply bind_inv in H as [(s1 & video & [= <- <-] & H)|(e & [=] & _)].
  apply bind_inv in H as [(s2 & [] & Hl & [= <- <-])|(e & Hl & ->)];
    apply link_genres_frame in Hl as [H1 H2];
    apply users_set_video_genre in H2 as (H2 & H3 & _); simpl in *.
  - split; [exact H1|]. split; [exact H2|]. intros v [= <-].
    split; [reflexivity | exact H3].
  - split; [exact H1|]. split; [exact H2|]. intros v [=].
Qed.

Lemma refresh_reads {A} (table : Tables -> list A) pk obj s :
  fst (refresh table pk obj s) = s.
Proof. unfold refresh, bind, query. simpl. destruct (first _); reflexivity. Qed.

(** An upload either fails and keeps nothing, or commits and serializes
    the committed row. *)
Lemma upload_video_steps title description genres_field file_filename uuid4 now
    current_user s s' r :
  upload_video title description genres_field file_filename uuid4 now current_user s
    = (s', r) ->
  user_exists (txn s) (User.id current_user) = true ->
  (exists e, r = Raise e /\ store s' = store s) \/
  (exists out row owner,
     r = Ok out /\ txn s' = store s' /\ out = video_out (store s') row owner).
Proof.
  unfold upload_video. intros H Hu.
  apply bind_inv in H as [(s1 & gs & Hc & H)|(e & Hc & ->)].
  2: { left. exists e. split; [reflexivity|]. now apply collect_genres_frame in Hc. }
  apply collect_genres_frame in Hc as [Hc1 Hc2].
  apply users_set_genres in Hc2 as (Hc2 & _).
  apply bind_inv in H as [(s2 & video & Ha & H)|(e & Ha & ->)].
  2: { left. exists e. split; [reflexivity|].
       apply add_Video_inv in Ha as [Ha _]. congruence. }
  apply add_Video_inv in Ha as (Ha1 & Ha2 & Ha3).
  destruct (Ha3 video eq_refl) as [Hv Hvs]. clear Ha3.
  apply bind_inv in H as [(s3 & [] & [= <-] & H)|(e & [=] & _)].
  right. unfold bind in H.
  rewrite (refresh_appended videos Video.id (videos (txn s1)) video) in H;
    [|exact Hvs | rewrite Hv; reflexivity].
  pose proof (serialize_video_reads video
                (mkSession (txn s2) (txn s2) (closed s2))) as Hs.
  destruct (serialize_video video _) as [s4 [out|e]] eqn:E; simpl in Hs; subst s4.
  - injection H as <- <-. apply serialize_video_inv in E as [_ (row & owner & _ & _ & ->)].
    exists (video_out (txn s2) row owner), row, owner. auto.
  - exfalso. unfold serialize_video, bind at 1, query at 1 in E. unfold bind at 1 in E.
    rewrite (refresh_appended videos Video.id (videos (txn s1)) video) in E;
      [|exact Hvs | rewrite Hv; reflexivity].
    unfold bind, query in E. simpl in E.
    assert (user_exists (txn s2) (Video.owner_id video) = true) as Hex.
    { unfold user_exists. rewrite Ha2, Hc2, Hv. exact Hu. }
    destruct (user_exists_owner (txn s2) video Hex) as [owner [Hw _]].
    rewrite Hw in E. discriminate.
Qed.

Lemma run_authenticated {A} decode_token authorization (k : User.t -> M A) (db : Tables) :
  run (current_user <- get_current_user decode_token authorization ;; k current_user) db =
  match authenticate decode_token authorization db with
  | Raise e => (Raise e, db)
  | Ok current_user => run (k current_user) db
  end.
Proof.
  unfold run, get_db, bind at 1. rewrite get_current_user_run.
  destruct (authenticate decode_token authorization db) as [u|e]; reflexivity.
Qed.

Lemma run_bind_ret {A B} (h : M A) (wrap : A -> B) (db : Tables) :
  run (x <- h ;; ret (wrap x)) db =
  match run h db with
  | (Ok x, db') => (Ok (wrap x), db')
  | (Raise e, db') => (Raise e, db')
  end.
Proof.
  unfold run, get_db, bind, ret. destruct (h (SessionLocal db)) as [s [x|e]]; reflexivity.
Qed.

Lemma run_reads {A} (h : M A) (db : Tables) :
  fst (h (SessionLocal db)) = SessionLocal db -> snd (run h db) = db.
Proof.
  unfold run, get_db. destruct (h (SessionLocal db)) as [s r]. simpl. intros ->.
  reflexivity.
Qed.

Lemma list_videos_reads skip lim s : fst (list_videos skip lim s) = s.
Proof.
  unfold list_videos, bind, query. simpl.
  apply for_each_reads. intros v. apply serialize_video_reads.
Qed.

Lemma get_video_reads video_id s : fst (get_video video_id s) = s.
Proof.
  unfold get_video, bind, query. simpl.
  destruct (first _); [apply serialize_video_reads | reflexivity].
Qed.

Lemma login_reads verify_password create_access_token username password s :
  fst (login verify_password create_access_token username password s) = s.
Proof.
  unfold login, bind, query. simpl. destruct (first _) as [u|]; [|reflexivity].
  destruct (verify_password _ _); reflexivity.
Qed.

(** A registration that fails keeps nothing. *)
Lemma register_clean get_password_hash user_in now db e db' :
  run (register get_password_hash user_in now) db = (Raise e, db') -> db' = db.
Proof.
  destruct (username_taken db (UserCreate.username user_in)) eqn:E.
  - rewrite (register_taken get_password_hash db user_in now E). now intros [= _ <-].
  - rewrite (register_first get_password_hash db user_in now E). discriminate.
Qed.

Lemma like_video_clean video_id now current_user db e db' :
  run (like_video video_id now current_user) db = (Raise e, db') -> db' = db.
Proof.
  destruct (video_exists db video_id) eqn:Hv.
  - destruct (liked db (User.id current_user) video_id) eqn:Hl.
    + destruct (like_video_removes db video_id now current_user Hv Hl)
        as [l [_ [_ ->]]]. discriminate.
    + rewrite (like_video_adds db video_id now current_user Hv Hl). discriminate.
  - rewrite (like_video_not_found db video_id now current_user Hv). now intros [= _ <-].
Qed.

Lemma subscribe_user_clean user_id now current_user db e db' :
  run (subscribe_user user_id now current_user) db = (Raise e, db') -> db' = db.
Proof.
  destruct (Z.eq_dec (User.id current_user) user_id) as [Hs|Hne].
  { rewrite (subscribe_user_self db user_id now current_user Hs). now intros [= _ <-]. }
  destruct (user_exists db user_id) eqn:Hc.
  - destruct (subscribed db (User.id current_user) user_id) eqn:Hl.
    + destruct (subscribe_user_removes db user_id now current_user Hne Hc Hl)
        as [l [_ [_ ->]]]. discriminate.
    + rewrite (subscribe_user_adds db user_id now current_user Hne Hc Hl). discriminate.
  - rewrite (subscribe_user_not_found db user_id now current_user Hne Hc).
    now intros [= _ <-].
Qed.

Lemma add_comment_clean video_id comment_in now current_user db e db' :
  user_exists db (User.id current_user) = true ->
  run (add_comment video_id comment_in now current_user) db = (Raise e, db') -> db' = db.
Proof.
  intros Hu. unfold run, get_db, add_comment, bind at 1, query at 1.
  cbv beta iota. change (txn (SessionLocal db)) with db.
  destruct (first (filter _ (videos db))) as [video|]; [|now intros [= _ <-]].
  unfold bind at 1, add_Comment. cbv beta iota zeta.
  change (txn (SessionLocal db)) with db.
  unfold bind at 1, commit. cbv beta iota. unfold bind at 1.
  set (comment := Comment.mk _ _ _ _ _).
  rewrite (refresh_appended comments Comment.id (comments db) comment); try reflexivity.
  unfold bind, query. cbv beta iota.
  apply exists_first in Hu as [author [Ha _]].
  unfold Comment_author. simpl. rewrite Ha. discriminate.
Qed.

Lemma upload_video_clean title description genres_field file_filename uuid4 now
    current_user db e db' :
  user_exists db (User.id current_user) = true ->
  run (upload_video title description genres_field file_filename uuid4 now current_user)
    db = (Raise e, db') ->
  db' = db.
Proof.
  intros Hu. unfold run, get_db.
  destruct (upload_video _ _ _ _ _ _ _ _) as [s r] eqn:E.
  intros [= -> <-].
  apply upload_video_steps in E as [(e' & _ & H)|(out & row & owner & [=] & _)];
    [|exact Hu].
  simpl. exact H.
Qed.

Lemma ends_committed_reads {A} (m : M A) :
  (forall s, fst (m s) = s) -> ends_committed m.
Proof.
  intros H s s' a Hs E. specialize (H s). rewrite E in H. simpl in H. now subst.
Qed.

Lemma ends_committed_bind {A B} (m : M A) (k : A -> M B) :
  ends_committed m -> (forall a, ends_committed (k a)) -> ends_committed (bind m k).
Proof.
  intros Hm Hk s s' b Hs E.
  apply bind_inv in E as [(s1 & a & E1 & E2)|(e & _ & [=])].
  exact (Hk a s1 s' b (Hm s s1 a Hs E1) E2).
Qed.

(** Writes, a commit, then reads. *)
Lemma commit_then_reads {A B} (pre : M A) (post : A -> M B) (s s' : Session) (b : B) :
  (forall a s, fst (post a s) = s) ->
  (a <- pre ;; commit ;; post a) s = (s', Ok b) -> txn s' = store s'.
Proof.
  intros Hpost E.
  apply bind_inv in E as [(s1 & a & _ & E)|(e & _ & [=])].
  apply bind_inv in E as [(s2 & [] & [= <-] & E)|(e & [=] & _)].
  specialize (Hpost a (mkSession (txn s1) (txn s1) (closed s1))).
  rewrite E in Hpost. simpl in Hpost. subst. reflexivity.
Qed.

Lemma ends_committed_commit {A B} (pre : M A) (post : A -> M B) :
  (forall a s, fst (post a s) = s) ->
  ends_committed (a <- pre ;; commit ;; post a).
Proof. intros Hpost s s' b _ E. exact (commit_then_reads pre post s s' b Hpost E). Qed.

Lemma ends_committed_handle get_password_hash verify_password create_access_token
    decode_token env req :
  ends_committed (handle get_password_hash verify_password create_access_token
                    decode_token env req).
Proof.
  assert (forall a, ends_committed (get_current_user decode_token a)) as Hauth
    by (intros a; apply ends_committed_reads, get_current_user_reads).
  assert (forall A B (wrap : A -> B) (h : M A),
            ends_committed h -> ends_committed (x <- h ;; ret (wrap x))) as Hwrap.
  { intros A B wrap h Hh. apply ends_committed_bind; [exact Hh|].
    intros a. apply ends_committed_reads. reflexivity. }
  assert (forall A, ends_committed (@raise A RequestValidationError)) as Hraise
    by (intros A s s' a _ [=]).
  destruct req; unfold handle.
  - destruct (UserCreate.valid user_in); [|apply Hraise]. apply Hwrap.
    unfold register. apply ends_committed_bind;
      [apply ends_committed_reads; reflexivity|].
    intros [u|]; [intros s s' a _ [=]|].
    apply ends_committed_commit. intros a s.
    unfold bind. pose proof (refresh_reads users User.id a s) as H.
    destruct (refresh users User.id a s) as [s1 [x|e]]; simpl in *; now subst.
  - apply Hwrap, ends_committed_reads. intros s. apply login_reads.
  - apply ends_committed_bind; [apply Hauth|]. intros u.
    apply ends_committed_reads. reflexivity.
  - apply ends_committed_bind; [apply Hauth|]. intros u. apply Hwrap.
    intros s s' a _ E. unfold upload_video in E.
    apply bind_inv in E as [(s1 & gs & _ & E)|(e & _ & [=])].
    apply commit_then_reads in E; [exact E|].
    intros v s0. unfold bind.
    pose proof (refresh_reads videos Video.id v s0) as H.
    destruct (refresh videos Video.id v s0) as [s2 [x|e]]; simpl in *; subst;
      [apply serialize_video_reads | reflexivity].
  - apply Hwrap, ends_committed_reads. intros s. apply list_videos_reads.
  - apply Hwrap, ends_committed_reads. intros s. apply get_video_reads.
  - apply ends_committed_bind; [apply Hauth|]. intros u.
    destruct (CommentCreate.valid comment_in); [|apply Hraise]. apply Hwrap.
    unfold add_comment. apply ends_committed_bind;
      [apply ends_committed_reads; reflexivity|].
    intros [v|]; [|intros s s' a _ [=]].
    apply ends_committed_commit. intros a s.
    unfold bind, query. pose proof (refresh_reads comments Comment.id a s) as H.
    destruct (refresh comments Comment.id a s) as [s1 [x|e]]; simpl in *; subst;
      [|reflexivity].
    destruct (Comment_author _ _); reflexivity.
  - apply ends_committed_bind; [apply Hauth|]. intros u. apply Hwrap.
    unfold like_video. apply ends_committed_bind;
      [apply ends_committed_reads; reflexivity|].
    intros [v|]; [|intros s s' a _ [=]].
    apply ends_committed_bind; [apply ends_committed_reads; reflexivity|].
    intros existing. apply ends_committed_commit. reflexivity.
  - apply ends_committed_bind; [apply Hauth|]. intros u. apply Hwrap.
    unfold subscribe_user. destruct (User.id u =? user_id); [intros s s' a _ [=]|].
    apply ends_committed_bind; [apply ends_committed_reads; reflexivity|].
    intros [c|]; [|intros s s' a _ [=]].
    apply ends_committed_bind; [apply ends_committed_reads; reflexivity|].
    intros existing. apply ends_committed_commit. reflexivity.
  - apply ends_committed_bind; [apply Hauth|]. intros u. apply Hwrap.
    apply ends_committed_reads. apply get_recommendations_reads.
Qed.

Lemma answer_run get_password_hash verify_password create_access_token decode_token
    env req db :
  answer get_password_hash verify_password create_access_token decode_token env req db
  = run (handle get_password_hash verify_password create_access_token decode_token
           env req) db.
Proof. reflexivity. Qed.

Lemma run_reads_all {A} (h : M A) (db : Tables) :
  (forall s, fst (h s) = s) -> run h db = (fst (run h db), db).
Proof.
  intros H. unfold run, get_db. specialize (H (SessionLocal db)).
  destruct (h (SessionLocal db)) as [s r]. simpl in *. subst. reflexivity.
Qed.

Ltac wrapped H :=
  rewrite run_bind_ret in H;
  match type of H with
  | context [run ?h ?db] =>
      let E := fresh "E" in
      destruct (run h db) as [[?x|?e] ?db''] eqn:E; [discriminate|];
      injection H as <- <-
  end.

(** A request that ends in an exception leaves the database as it was. *)
Lemma handle_clean get_password_hash verify_password create_access_token decode_token
    env req db e db' :
  answer get_password_hash verify_password create_access_token decode_token env req db
    = (Raise e, db') ->
  db' = db.
Proof.
  rewrite answer_run. intros H. destruct req; unfold handle in H.
  - destruct (UserCreate.valid user_in); [|now injection H as _ <-].
    wrapped H. eapply register_clean; eassumption.
  - wrapped H. rewrite run_reads_all in E by (intros; apply login_reads).
    now injection E as _ <-.
  - rewrite run_authenticated in H.
    destruct (authenticate decode_token authorization db) as [u|e'];
      [discriminate | now injection H as _ <-].
  - rewrite run_authenticated in H.
    destruct (authenticate decode_token authorization db) as [u|e'] eqn:Ha;
      [|now injection H as _ <-].
    wrapped H. eapply upload_video_clean; [|eassumption].
    apply In_user_exists. eapply authenticate_user; eassumption.
  - wrapped H. rewrite run_reads_all in E by (intros; apply list_videos_reads).
    now injection E as _ <-.
  - wrapped H. rewrite run_reads_all in E by (intros; apply get_video_reads).
    now injection E as _ <-.
  - rewrite run_authenticated in H.
    destruct (authenticate decode_token authorization db) as [u|e'] eqn:Ha;
      [|now injection H as _ <-].
    destruct (CommentCreate.valid comment_in); [|now injection H as _ <-].
    wrapped H. eapply add_comment_clean; [|eassumption].
    apply In_user_exists. eapply authenticate_user; eassumption.
  - rewrite run_authenticated in H.
    destruct (authenticate decode_token authorization db) as [u|e'];
      [|now injection H as _ <-].
    wrapped H. eapply like_video_clean; eassumption.
  - rewrite run_authenticated in H.
    destruct (authenticate decode_token authorization db) as [u|e'];
      [|now injection H as _ <-].
    wrapped H. eapply subscribe_user_clean; eassumption.
  - rewrite run_authenticated in H.
    destruct (authenticate decode_token authorization db) as [u|e'];
      [|now injection H as _ <-].
    wrapped H.
    rewrite run_reads_all in E by (intros; apply get_recommendations_reads).
    now injection E as _ <-.
Qed.

(** C7.  Sessions and transactions.
    - [session_scope] commits when its body returns, rolls back when the
      body raises, and closes the session in both cases: after a body
      that raised, the database is the one the body last committed
      itself, hence the original one for a body that never commits.
    - [get_db] closes the session whatever the handler did, which
      abandons every write that was not committed.
    - For every request: the session ends closed with no transaction
      open; when the request returns a response, everything it wrote is
      committed; when it ends in an exception, be it a failed write or
      any other, the database is exactly what it was before the request,
      so none of its writes persists. *)
Theorem session_management :
  (forall (A : Type) (body : M A) (db : Tables),
     let s := fst (session_scope body db) in
     let r := snd (session_scope body db) in
     closed s = true /\ txn s = store s /\
     (forall s1 a, body (SessionLocal db) = (s1, Ok a) ->
        r = Ok a /\ store s = txn s1) /\
     (forall s1 e, body (SessionLocal db) = (s1, Raise e) ->
        r = Raise e /\ store s = store s1 /\ (never_commits body -> store s = db))) /\
  (forall (A : Type) (handler : M A) (db : Tables),
     let s := fst (get_db handler db) in
     closed s = true /\ txn s = store s /\
     store s = store (fst (handler (SessionLocal db))) /\
     snd (get_db handler db) = snd (handler (SessionLocal db))) /\
  (forall get_password_hash verify_password create_access_token decode_token
          (env : Env) (req : Request) (db : Tables),
     let s := fst (serve get_password_hash verify_password create_access_token
                     decode_token env req db) in
     let r := snd (serve get_password_hash verify_password create_access_token
                     decode_token env req db) in
     closed s = true /\ txn s = store s /\
     (forall response, r = Ok response ->
        store s = txn (fst (handle get_password_hash verify_password
                              create_access_token decode_token env req
                              (SessionLocal db)))) /\
     (forall e, r = Raise e -> store s = db)).
Proof.
  split; [|split].
  - intros A body db. unfold session_scope.
    destruct (body (SessionLocal db)) as [s1 [a|e]] eqn:E; simpl.
    + split; [reflexivity|]. split; [reflexivity|]. split.
      * intros s2 a2 [= <- <-]. split; reflexivity.
      * intros s2 e2 [=].
    + split; [reflexivity|]. split; [reflexivity|]. split.
      * intros s2 a2 [=].
      * intros s2 e2 [= <- <-]. split; [reflexivity|]. split; [reflexivity|].
        intros Hn. specialize (Hn (SessionLocal db)). rewrite E in Hn. exact Hn.
  - intros A handler db. unfold get_db.
    destruct (handler (SessionLocal db)) as [s1 r]. simpl. auto.
  - intros get_password_hash verify_password create_access_token decode_token
      env req db. unfold serve, get_db.
    pose proof (ends_committed_handle get_password_hash verify_password
                  create_access_token decode_token env req (SessionLocal db)) as Hc.
    pose proof (handle_clean get_password_hash verify_password create_access_token
                  decode_token env req db) as Hr.
    unfold answer, serve, get_db in Hr.
    destruct (handle _ _ _ _ _ _ _) as [s1 r]. simpl in *.
    repeat split.
    + intros response ->. symmetry. eapply Hc; reflexivity.
    + intros e ->. eapply Hr. reflexivity.
Qed.

(* ===================================================================== *)
(** * The like count of a serialized video *)
(* ===================================================================== *)

Lemma video_out_likes (t : Tables) (row : Video.t) (owner : User.t) :
  VideoOut.likes (video_out t row owner) =
  like_count t (VideoOut.id (video_out t row owner)).
Proof. reflexivity. Qed.

Lemma serialize_video_likes (video : Video.t) (s s' : Session) (out : VideoOut.t) :
  serialize_video video s = (s', Ok out) ->
  VideoOut.likes out = like_count (txn s) (VideoOut.id out).
Proof.
  intros H. apply serialize_video_inv in H as [_ (row & owner & _ & _ & ->)].
  apply video_out_likes.
Qed.

Lemma list_videos_likes skip lim db outs db' :
  run (list_videos skip lim) db = (Ok outs, db') ->
  db' = db /\ forall out, In out outs -> VideoOut.likes out = like_count db (VideoOut.id out).
Proof.
  rewrite run_reads_all by (intros; apply list_videos_reads). intros [= H <-].
  split; [reflexivity|]. intros out Hin.
  unfold run, get_db, list_videos, bind, query in H. cbv beta iota in H.
  destruct (for_each _ _ _) as [s [ys|e]] eqn:E; simpl in H; [|discriminate].
  injection H as ->. apply for_each_inv in E as [_ E]; [|intros; apply serialize_video_reads].
  destruct (Forall2_In_r _ _ _ _ E Hin) as [v [_ Hv]].
  apply serialize_video_likes in Hv. exact Hv.
Qed.

Lemma get_video_likes video_id db out db' :
  run (get_video video_id) db = (Ok out, db') ->
  db' = db /\ VideoOut.likes out = like_count db (VideoOut.id out).
Proof.
  rewrite run_reads_all by (intros; apply get_video_reads). intros [= H <-].
  split; [reflexivity|].
  unfold run, get_db, get_video, bind, query in H. cbv beta iota in H.
  destruct (first _) as [v|]; [|discriminate].
  destruct (serialize_video v (SessionLocal db)) as [s [y|e]] eqn:E; simpl in H;
    [|discriminate].
  injection H as ->. apply serialize_video_likes in E. exact E.
Qed.

Lemma upload_video_likes title description genres_field file_filename uuid4 now
    current_user db out db' :
  user_exists db (User.id current_user) = true ->
  run (upload_video title description genres_field file_filename uuid4 now current_user)
    db = (Ok out, db') ->
  VideoOut.likes out = like_count db' (VideoOut.id out).
Proof.
  intros Hu. unfold run, get_db.
  destruct (upload_video _ _ _ _ _ _ _ _) as [s r] eqn:E.
  intros [= -> <-].
  apply upload_video_steps in E as [(e' & [=] & _)|(o & row & owner & [= <-] & _ & ->)];
    [|exact Hu].
  exact (video_out_likes _ row owner).
Qed.

Lemma get_recommendations_likes current_user db recs db' :
  run (get_recommendations current_user) db = (Ok recs, db') ->
  db' = db /\
  forall r, In r recs ->
    VideoOut.likes (RecommendationOut.video r) =
    like_count db (VideoOut.id (RecommendationOut.video r)).
Proof.
  rewrite run_get_recommendations. intros [= H <-]. split; [reflexivity|].
  intros r Hr. unfold get_recommendations, bind, query in H. cbv beta iota in H.
  change (txn (SessionLocal db)) with db in H.
  destruct (liked_genre_ids db (User.id current_user)).
  { simpl in H. injection H as <-. contradiction. }
  destruct (for_each _ _ _) as [s [outs|e]] eqn:E; simpl in H; [|discriminate].
  injection H as ->. apply for_each_serialize_inv in E.
  destruct (Forall2_In_r _ _ _ _ E Hr) as [rec [_ [_ (row & owner & _ & ->)]]].
  apply video_out_likes.
Qed.

Ltac returned H :=
  rewrite run_bind_ret in H;
  match type of H with
  | context [run ?h ?db] =>
      let E := fresh "E" in
      destruct (run h db) as [[?x|?e] ?db''] eqn:E; [|discriminate];
      injection H as <- <-
  end.

(** C8.  The [likes] field of every video a response carries is the
    number of [VideoLike] rows that reference the video in the database
    as the request leaves it; and a [Video] row consists of its id,
    title, description, file name, creation time and owner id, with no
    like count among them. *)
Theorem likes_are_counted :
  (forall get_password_hash verify_password create_access_token decode_token
          (env : Env) (req : Request) (db db' : Tables) (response : Response),
     answer get_password_hash verify_password create_access_token decode_token
       env req db = (Ok response, db') ->
     forall out, In out (videos_of response) ->
       VideoOut.likes out = like_count db' (VideoOut.id out)) /\
  (forall (t : Tables) (video : Video.t),
     serialize_video video (SessionLocal t) =
       (SessionLocal t, Raise InvalidRequestError) \/
     serialize_video video (SessionLocal t) = (SessionLocal t, Raise ValidationError) \/
     exists out,
       serialize_video video (SessionLocal t) = (SessionLocal t, Ok out) /\
       VideoOut.likes out =
       Z.of_nat (List.length (filter (fun l => VideoLike.video_id l =? Video.id video)
                                (video_likes t)))) /\
  (forall video : Video.t,
     video = Video.mk (Video.id video) (Video.title video) (Video.description video)
               (Video.filename video) (Video.created_at video) (Video.owner_id video)).
Proof.
  split; [|split].
  - intros get_password_hash verify_password create_access_token decode_token
      env req db db' response H out Hin.
    rewrite answer_run in H. destruct req; unfold handle in H.
    + destruct (UserCreate.valid user_in); [|discriminate]. returned H. contradiction.
    + returned H. contradiction.
    + rewrite run_authenticated in H.
      destruct (authenticate decode_token authorization db); [|discriminate].
      returned H. contradiction.
    + rewrite run_authenticated in H.
      destruct (authenticate decode_token authorization db) as [u|] eqn:Ha;
        [|discriminate].
      returned H. destruct Hin as [<-|[]].
      eapply upload_video_likes; [|eassumption].
      apply In_user_exists. eapply authenticate_user; eassumption.
    + returned H. apply list_videos_likes in E as [-> E]. now apply E.
    + returned H. destruct Hin as [<-|[]]. apply get_video_likes in E as [-> E].
      exact E.
    + rewrite run_authenticated in H.
      destruct (authenticate decode_token authorization db); [|discriminate].
      destruct (CommentCreate.valid comment_in); [|discriminate].
      returned H. contradiction.
    + rewrite run_authenticated in H.
      destruct (authenticate decode_token authorization db); [|discriminate].
      returned H. contradiction.
    + rewrite run_authenticated in H.
      destruct (authenticate decode_token authorization db); [|discriminate].
      returned H. contradiction.
    + rewrite run_authenticated in H.
      destruct (authenticate decode_token authorization db); [|discriminate].
      returned H. apply get_recommendations_likes in E as [-> E].
      simpl in Hin. apply in_map_iff in Hin as [r [<- Hr]]. now apply E.
  - intros t video. unfold serialize_video, refresh, bind, query, ret, raise.
    cbv beta iota. change (txn (SessionLocal t)) with t.
    destruct (first _) as [row|]; [|now left]. cbv beta iota.
    change (txn (SessionLocal t)) with t.
    destruct (Video_owner t row); [|right; left; reflexivity].
    right. right. eexists. split; reflexivity.
  - intros []. reflexivity.
Qed.

(* ===================================================================== *)
(** * The constraints hold in every database the requests can produce *)
(* ===================================================================== *)

Lemma constraints_spec (t : Tables) :
  constraints t = true <->
  video_ids_unique t = true /\ owners_exist t = true /\ video_likes_unique t = true /\
  subscriptions_unique t = true /\ links_reference_videos t = true.
Proof. unfold constraints. rewrite !andb_true_iff. tauto. Qed.

Lemma owners_exist_more (us us' : list User.t) (vs : list Video.t) :
  forallb (fun v => existsb (fun u => User.id u =? Video.owner_id v) us) vs = true ->
  forallb (fun v => existsb (fun u => User.id u =? Video.owner_id v) (us ++ us')) vs
  = true.
Proof.
  rewrite !forallb_forall. intros H v Hv. rewrite existsb_app, (H v Hv). reflexivity.
Qed.

Lemma constraints_register (db : Tables) (u : User.t) :
  constraints db = true -> constraints (set_users db (users db ++ [u])) = true.
Proof.
  rewrite !constraints_spec. intros (H1 & H2 & H3 & H4 & H5).
  repeat split; try assumption. apply owners_exist_more. exact H2.
Qed.

Lemma constraints_comments (db : Tables) (x : list Comment.t) :
  constraints db = true -> constraints (set_comments db x) = true.
Proof. intros H. exact H. Qed.

Lemma constraints_like_added (db : Tables) (l : VideoLike.t) :
  VideoLike.id l = next_id (map VideoLike.id (video_likes db)) ->
  has like_key (like_key l) (video_likes db) = false ->
  constraints db = true ->
  constraints (set_video_likes db (video_likes db ++ [l])) = true.
Proof.
  rewrite !constraints_spec. intros Hid Hk (H1 & H2 & H3 & H4 & H5).
  repeat split; try assumption.
  unfold video_likes_unique in *. apply andb_true_iff in H3 as [Ha Hb].
  apply andb_true_iff. apply (appended_unique VideoLike.id like_key); assumption.
Qed.

Lemma constraints_like_removed (db : Tables) (l : VideoLike.t) :
  constraints db = true ->
  constraints (set_video_likes db (without VideoLike.id l (video_likes db))) = true.
Proof.
  rewrite !constraints_spec. intros (H1 & H2 & H3 & H4 & H5).
  repeat split; try assumption.
  unfold video_likes_unique in *. apply andb_true_iff in H3 as [Ha Hb].
  apply andb_true_iff. apply (without_unique VideoLike.id like_key); assumption.
Qed.

Lemma constraints_subscription_added (db : Tables) (x : Subscription.t) :
  Subscription.id x = next_id (map Subscription.id (subscriptions db)) ->
  has subscription_key (subscription_key x) (subscriptions db) = false ->
  constraints db = true ->
  constraints (set_subscriptions db (subscriptions db ++ [x])) = true.
Proof.
  rewrite !constraints_spec. intros Hid Hk (H1 & H2 & H3 & H4 & H5).
  repeat split; try assumption.
  unfold subscriptions_unique in *. apply andb_true_iff in H4 as [Ha Hb].
  apply andb_true_iff.
  apply (appended_unique Subscription.id subscription_key); assumption.
Qed.

Lemma constraints_subscription_removed (db : Tables) (x : Subscription.t) :
  constraints db = true ->
  constraints (set_subscriptions db (without Subscription.id x (subscriptions db)))
  = true.
Proof.
  rewrite !constraints_spec. intros (H1 & H2 & H3 & H4 & H5).
  repeat split; try assumption.
  unfold subscriptions_unique in *. apply andb_true_iff in H4 as [Ha Hb].
  apply andb_true_iff. apply (without_unique Subscription.id subscription_key); assumption.
Qed.

Lemma constraints_genres (t t' : Tables) :
  set_genres t' [] = set_genres t [] -> constraints t = true -> constraints t' = true.
Proof.
  destruct t, t'. unfold set_genres. simpl. intros [=]. subst. intros H. exact H.
Qed.

(** A new video row with a fresh key and an existing owner. *)
Lemma constraints_video_added (t : Tables) (v : Video.t) :
  Video.id v = next_id (map Video.id (videos t)) ->
  user_exists t (Video.owner_id v) = true ->
  constraints t = true ->
  constraints (set_videos t (videos t ++ [v])) = true /\
  video_exists (set_videos t (videos t ++ [v])) (Video.id v) = true.
Proof.
  rewrite !constraints_spec. intros Hid Hu (H1 & H2 & H3 & H4 & H5). split.
  - repeat split; try assumption.
    + unfold video_ids_unique in *. simpl.
      apply (uniqueb_NoDup Z.eqb) in H1; [|apply Z.eqb_eq].
      apply (uniqueb_NoDup Z.eqb); [apply Z.eqb_eq|].
      rewrite map_app. simpl.
      apply Permutation_NoDup with (l := Video.id v :: map Video.id (videos t)).
      * apply Permutation_cons_append.
      * constructor; [|exact H1]. intros Hin.
        pose proof (next_id_above _ _ Hin). lia.
    + unfold owners_exist in *. simpl. rewrite forallb_app, H2. simpl.
      unfold user_exists in Hu. rewrite Hu. reflexivity.
    + unfold links_reference_videos in *. rewrite forallb_forall in *.
      intros vg Hvg. specialize (H5 vg Hvg). unfold video_exists in *. simpl.
      rewrite existsb_app, H5. reflexivity.
  - unfold video_exists. simpl. rewrite existsb_app. simpl.
    rewrite Z.eqb_refl. apply orb_true_iff. right. reflexivity.
Qed.

(** Association rows for an existing video keep the constraints. *)
Lemma link_genres_constraints video_id gs s s' r :
  link_genres video_id gs s = (s', r) ->
  video_exists (txn s) video_id = true ->
  constraints (txn s) = true ->
  constraints (txn s') = true.
Proof.
  revert s. induction gs as [|g gs IH]; intros s; simpl.
  - intros [= <- <-]. auto.
  - intros H Hv Hc.
    assert (forall s1 r1, add_video_genre (video_id, Genre.id g) s = (s1, r1) ->
              constraints (txn s1) = true /\ video_exists (txn s1) video_id = true)
      as Hadd.
    { intros s1 r1. unfold add_video_genre. destruct (existsb _ _);
        intros [= <- <-]; [auto|]. simpl. split; [|exact Hv].
      apply constraints_spec in Hc as (H1 & H2 & H3 & H4 & H5).
      apply constraints_spec. repeat split; try assumption.
      unfold links_reference_videos in *. rewrite forallb_forall in *.
      intros vg Hvg. cbn [txn video_genre set_video_genre] in Hvg.
      apply in_app_iff in Hvg as [Hvg|[<-|[]]]; [exact (H5 vg Hvg) | exact Hv]. }
    apply bind_inv in H as [(s1 & [] & Hg & H)|(e & Hg & _)].
    + apply Hadd in Hg as [H1 H2]. exact (IH s1 H H2 H1).
    + apply Hadd in Hg. tauto.
Qed.

Lemma upload_video_constraints title description genres_field file_filename uuid4 now
    current_user s s' out :
  upload_video title description genres_field file_filename uuid4 now current_user s
    = (s', Ok out) ->
  user_exists (txn s) (User.id current_user) = true ->
  constraints (txn s) = true ->
  constraints (store s') = true.
Proof.
  unfold upload_video. intros H Hu Hc.
  apply bind_inv in H as [(s1 & gs & Hg & H)|(e & _ & [=])].
  apply collect_genres_frame in Hg as [_ Hg].
  pose proof (constraints_genres _ _ Hg Hc) as Hc1.
  apply users_set_genres in Hg as (Hg & _).
  apply bind_inv in H as [(s2 & video & Ha & H)|(e & _ & [=])].
  assert (constraints (txn s2) = true) as Hc2.
  { unfold add_Video in Ha.
    apply bind_inv in Ha as [(s1' & v & [= <- <-] & Ha)|(e & [=] & _)].
    apply bind_inv in Ha as [(s2' & [] & Hl & [= <- _])|(e & _ & [=])].
    assert (user_exists (txn s1) (User.id current_user) = true) as Hu1
      by (unfold user_exists; rewrite Hg; exact Hu).
    destruct (constraints_video_added (txn s1)
                (Video.mk (next_id (map Video.id (videos (txn s1)))) title description
                   (uuid4 ++ "_" ++ file_filename)%string now (User.id current_user))
                eq_refl Hu1 Hc1) as [Hc' Hv'].
    exact (link_genres_constraints _ _ _ _ _ Hl Hv' Hc'). }
  apply bind_inv in H as [(s3 & [] & [= <-] & H)|(e & [=] & _)].
  apply bind_inv in H as [(s4 & v' & Hr & H)|(e & _ & [=])].
  pose proof (refresh_reads videos Video.id video
                (mkSession (txn s2) (txn s2) (closed s2))) as Hr'.
  rewrite Hr in Hr'. simpl in Hr'. subst s4.
  pose proof (serialize_video_reads v' (mkSession (txn s2) (txn s2) (closed s2))) as Hs.
  rewrite H in Hs. simpl in Hs. subst s'. exact Hc2.
Qed.

Ltac served H :=
  rewrite run_bind_ret in H;
  match type of H with
  | context [run ?h ?db] =>
      let E := fresh "E" in
      destruct (run h db) as [[?x|?e] ?db''] eqn:E; injection H as _ <-
  end.

Lemma run_like_video_constraints video_id now current_user db r db' :
  run (like_video video_id now current_user) db = (r, db') ->
  constraints db = true -> constraints db' = true.
Proof.
  intros H Hc. destruct (video_exists db video_id) eqn:Hv.
  - destruct (liked db (User.id current_user) video_id) eqn:Hl.
    + destruct (like_video_removes db video_id now current_user Hv Hl)
        as [l [_ [_ E]]]. rewrite E in H. injection H as _ <-.
      now apply constraints_like_removed.
    + rewrite (like_video_adds db video_id now current_user Hv Hl) in H.
      injection H as _ <-. apply constraints_like_added; [reflexivity | exact Hl | exact Hc].
  - rewrite (like_video_not_found db video_id now current_user Hv) in H.
    now injection H as _ <-.
Qed.

Lemma run_subscribe_user_constraints user_id now current_user db r db' :
  run (subscribe_user user_id now current_user) db = (r, db') ->
  constraints db = true -> constraints db' = true.
Proof.
  intros H Hc. destruct (Z.eq_dec (User.id current_user) user_id) as [Hs|Hne].
  { rewrite (subscribe_user_self db user_id now current_user Hs) in H.
    now injection H as _ <-. }
  destruct (user_exists db user_id) eqn:Hu.
  - destruct (subscribed db (User.id current_user) user_id) eqn:Hl.
    + destruct (subscribe_user_removes db user_id now current_user Hne Hu Hl)
        as [l [_ [_ E]]]. rewrite E in H. injection H as _ <-.
      now apply constraints_subscription_removed.
    + rewrite (subscribe_user_adds db user_id now current_user Hne Hu Hl) in H.
      injection H as _ <-.
      apply constraints_subscription_added; [reflexivity | exact Hl | exact Hc].
  - rewrite (subscribe_user_not_found db user_id now current_user Hne Hu) in H.
    now injection H as _ <-.
Qed.

Lemma run_register_constraints get_password_hash user_in now db r db' :
  run (register get_password_hash user_in now) db = (r, db') ->
  constraints db = true -> constraints db' = true.
Proof.
  intros H Hc. destruct (username_taken db (UserCreate.username user_in)) eqn:E.
  - rewrite (register_taken get_password_hash db user_in now E) in H.
    now injection H as _ <-.
  - rewrite (register_first get_password_hash db user_in now E) in H.
    injection H as _ <-. now apply constraints_register.
Qed.

Lemma run_add_comment_constraints video_id comment_in now current_user db r db' :
  run (add_comment video_id comment_in now current_user) db = (r, db') ->
  constraints db = true -> constraints db' = true.
Proof.
  intros H Hc. unfold run, get_db in H.
  destruct (add_comment _ _ _ _ _) as [s r0] eqn:E. injection H as _ <-.
  unfold add_comment in E.
  apply bind_inv in E as [(s1 & video & [= <- <-] & E)|(e & [=] & _)].
  destruct (first _) as [video|]; [|injection E as <- _; exact Hc].
  apply bind_inv in E as [(s2 & comment & [= <- <-] & E)|(e & [=] & _)].
  apply bind_inv in E as [(s3 & [] & [= <-] & E)|(e & [=] & _)].
  simpl in E.
  match type of E with ?m ?s0 = _ =>
    assert (fst (m s0) = s0) as Hr end.
  { unfold bind, query.
    match goal with |- context [refresh ?t ?k ?o ?s0] =>
      pose proof (refresh_reads t k o s0) as Hx;
      destruct (refresh t k o s0) as [s4 [y|e]]; simpl in Hx; subst s4 end;
      [|reflexivity].
    simpl. destruct (Comment_author _ _); reflexivity. }
  rewrite E in Hr. simpl in Hr. subst s. simpl. exact Hc.
Qed.

Lemma run_upload_video_constraints title description genres_field file_filename uuid4
    now current_user db r db' :
  user_exists db (User.id current_user) = true ->
  run (upload_video title description genres_field file_filename uuid4 now current_user)
    db = (r, db') ->
  constraints db = true -> constraints db' = true.
Proof.
  intros Hu H Hc. unfold run, get_db in H.
  destruct (upload_video _ _ _ _ _ _ _ _) as [s [out|e]] eqn:E; injection H as _ <-.
  - simpl. exact (upload_video_constraints _ _ _ _ _ _ _ _ _ _ E Hu Hc).
  - apply upload_video_steps in E as [(e' & _ & H)|(o & row & owner & [=] & _)];
      [|exact Hu].
    simpl in *. rewrite H. exact Hc.
Qed.

(** Every request keeps the constraints ... *)
Lemma serve_constraints get_password_hash verify_password create_access_token
    decode_token env req db :
  constraints db = true ->
  constraints (store (fst (serve get_password_hash verify_password create_access_token
                             decode_token env req db))) = true.
Proof.
  intros Hc.
  pose proof (answer_run get_password_hash verify_password create_access_token
                decode_token env req db) as H.
  unfold answer in H.
  destruct (serve _ _ _ _ _ _ _) as [s r]. simpl. symmetry in H.
  destruct req; unfold handle in H.
  - destruct (UserCreate.valid user_in); [|now injection H as _ <-].
    served H; eapply run_register_constraints; eassumption.
  - served H; rewrite run_reads_all in E by (intros; apply login_reads);
      now injection E as _ <-.
  - rewrite run_authenticated in H.
    destruct (authenticate decode_token authorization db); now injection H as _ <-.
  - rewrite run_authenticated in H.
    destruct (authenticate decode_token authorization db) as [u|] eqn:Ha;
      [|now injection H as _ <-].
    served H; (eapply run_upload_video_constraints; [|eassumption|exact Hc]);
      apply In_user_exists; eapply authenticate_user; eassumption.
  - served H; rewrite run_reads_all in E by (intros; apply list_videos_reads);
      now injection E as _ <-.
  - served H; rewrite run_reads_all in E by (intros; apply get_video_reads);
      now injection E as _ <-.
  - rewrite run_authenticated in H.
    destruct (authenticate decode_token authorization db); [|now injection H as _ <-].
    destruct (CommentCreate.valid comment_in); [|now injection H as _ <-].
    served H; eapply run_add_comment_constraints; eassumption.
  - rewrite run_authenticated in H.
    destruct (authenticate decode_token authorization db); [|now injection H as _ <-].
    served H; eapply run_like_video_constraints; eassumption.
  - rewrite run_authenticated in H.
    destruct (authenticate decode_token authorization db); [|now injection H as _ <-].
    served H; eapply run_subscribe_user_constraints; eassumption.
  - rewrite run_authenticated in H.
    destruct (authenticate decode_token authorization db); [|now injection H as _ <-].
    served H;
      rewrite run_reads_all in E by (intros; apply get_recommendations_reads);
      now injection E as _ <-.
Qed.

(** ... so they hold in every database reached from the empty one. *)
Lemma reachable_constraints get_password_hash verify_password create_access_token
    decode_token (reqs : list (Env * Request)) (db : Tables) :
  constraints db = true ->
  constraints (serve_all get_password_hash verify_password create_access_token
                 decode_token reqs db) = true.
Proof.
  revert db. induction reqs as [|[env req] reqs IH]; intros db Hc; simpl; [exact Hc|].
  apply IH. apply serve_constraints. exact Hc.
Qed.

Lemma empty_db_constraints : constraints empty_db = true.
Proof. reflexivity. Qed.

(* ===================================================================== *)
(** * Concrete runs *)
(* ===================================================================== *)

(** C2 does not hold as stated.  In the scenario of the specification
    (alice uploads a video tagged "Horror", bob likes it), bob's
    recommendations are not empty: they consist of the very video bob
    has liked, with score 1. *)
Lemma recommendations_include_liked_video :
  liked horror_db (User.id bob) 1 = true /\
  answer sample_get_password_hash sample_verify_password sample_create_access_token
    sample_decode_token (mkEnv 5 "") (GET_users_me_recommendations (Some "bob"))
    horror_db =
  (Ok (RecommendationsBody
         [RecommendationOut.mk
            (VideoOut.mk 1 "Night" None "0b5e_night.mp4" 1 (UserOut.mk 1 "alice" 0)
               [GenreOut.mk 1 "Horror"] 1)
            1]),
   horror_db).
Proof. split; vm_compute; reflexivity. Qed.

(** C5 does not hold as stated.  A request to subscribe to user 1 that
    carries no credentials is refused with 401, not with 400; the same
    request with alice's own token is refused with 400. *)
Lemma subscribe_self_without_credentials :
  User.id alice = 1 /\ In alice (users db_alice) /\
  answer sample_get_password_hash sample_verify_password sample_create_access_token
    sample_decode_token (mkEnv 5 "") (POST_users_id_subscribe None 1) db_alice =
  (Raise (HTTPException status.HTTP_401_UNAUTHORIZED "Not authenticated"), db_alice) /\
  answer sample_get_password_hash sample_verify_password sample_create_access_token
    sample_decode_token (mkEnv 5 "") (POST_users_id_subscribe (Some "alice") 1) db_alice =
  (Raise (HTTPException status.HTTP_400_BAD_REQUEST "Cannot subscribe to yourself"),
   db_alice) /\
  status.HTTP_401_UNAUTHORIZED <> status.HTTP_400_BAD_REQUEST.
Proof.
  split; [reflexivity|]. split; [now left|]. split; [reflexivity|].
  split; [reflexivity | discriminate].
Qed.

(** [register_once_per_username] at the empty database. *)
Lemma register_once_per_username_witness :
  username_taken empty_db "alice" = false /\
  exists user,
    User.username user = "alice" /\
    run (register sample_get_password_hash (UserCreate.mk "alice" "secret1") 0) empty_db =
      (Ok (UserOut.from_orm user), set_users empty_db (users empty_db ++ [user])) /\
    forall (later : list (Env * Request)) (again : UserCreate.t) (now' : datetime),
      UserCreate.username again = "alice" ->
      let db' := serve_all sample_get_password_hash sample_verify_password
                   sample_create_access_token sample_decode_token later
                   (set_users empty_db (users empty_db ++ [user])) in
      run (register sample_get_password_hash again now') db' =
        (Raise (HTTPException status.HTTP_400_BAD_REQUEST "Username already taken"),
         db').
Proof.
  split; [reflexivity|].
  exact (register_once_per_username sample_get_password_hash sample_verify_password
           sample_create_access_token sample_decode_token empty_db
           (UserCreate.mk "alice" "secret1") 0 eq_refl).
Defined.

(** [like_video_toggle] for bob and the video he has liked. *)
Lemma like_video_toggle_witness :
  video_likes_unique horror_db = true /\
  video_exists horror_db 1 = true /\
  forall u v,
    liked (snd (run (like_video 1 11 bob) (snd (run (like_video 1 10 bob) horror_db))))
      u v = liked horror_db u v.
Proof.
  split; [reflexivity|]. split; [reflexivity|].
  destruct (like_video_toggle horror_db 1 10 11 bob eq_refl) as [_ H].
  destruct (H eq_refl) as (_ & _ & _ & H2 & _). exact H2.
Defined.

(** [subscribe_user_contract] for bob subscribing to alice. *)
Lemma subscribe_user_contract_witness :
  subscriptions_unique horror_db = true /\
  authenticate sample_decode_token (Some "bob") horror_db = Ok bob /\
  fst (answer sample_get_password_hash sample_verify_password sample_create_access_token
         sample_decode_token (mkEnv 7 "") (POST_users_id_subscribe (Some "bob") 1)
         horror_db) = Ok (DetailBody (Detail.mk "Subscribed")).
Proof.
  split; [reflexivity|]. split; [reflexivity|].
  destruct (subscribe_user_contract sample_get_password_hash sample_verify_password
              sample_create_access_token sample_decode_token (mkEnv 7 "") (Some "bob") 1
              horror_db eq_refl) as (_ & _ & _ & H).
  destruct (H bob eq_refl) as (_ & _ & H3).
  assert (User.id bob <> 1) as Hne by discriminate.
  destruct (H3 Hne eq_refl) as (_ & H4 & _).
  destruct (H4 eq_refl) as [H5 _]. exact H5.
Defined.

(** [upload_blank_genres] for an upload by bob with the genres " , ,". *)
Lemma upload_blank_genres_witness :
  Str.blank " , ," = true /\
  authenticate sample_decode_token (Some "bob") horror_db = Ok bob /\
  links_reference_videos horror_db = true /\
  exists video out,
    answer sample_get_password_hash sample_verify_password sample_create_access_token
      sample_decode_token (mkEnv 7 "77aa")
      (POST_videos (Some "bob") "Dawn" None " , ," "dawn.mp4") horror_db =
      (Ok (VideoBody out), set_videos horror_db (videos horror_db ++ [video])) /\
    Video.owner_id video = User.id bob /\
    VideoOut.id out = Video.id video /\
    VideoOut.genres out = [] /\
    video_links (set_videos horror_db (videos horror_db ++ [video])) (Video.id video) = [] /\
    genres (set_videos horror_db (videos horror_db ++ [video])) = genres horror_db /\
    video_genre (set_videos horror_db (videos horror_db ++ [video])) =
      video_genre horror_db.
Proof.
  split; [reflexivity|]. split; [reflexivity|]. split; [reflexivity|].
  exact (upload_blank_genres sample_get_password_hash sample_verify_password
           sample_create_access_token sample_decode_token (mkEnv 7 "77aa") (Some "bob")
           "Dawn" None " , ," "dawn.mp4" horror_db bob eq_refl eq_refl eq_refl).
Defined.

(** [get_recommendations_ranking] for bob. *)
Lemma get_recommendations_ranking_witness :
  video_ids_unique horror_db = true /\ owners_exist horror_db = true /\
  liked_genre_ids horror_db (User.id bob) <> [] /\
  exists recs,
    run (get_recommendations bob) horror_db = (Ok recs, horror_db) /\
    (List.length recs <= 20)%nat /\ StronglySorted outranks recs.
Proof.
  split; [reflexivity|]. split; [reflexivity|]. split; [discriminate|].
  destruct (get_recommendations_ranking horror_db bob eq_refl eq_refl)
    as (_ & _ & _ & H).
  assert (liked_genre_ids horror_db (User.id bob) <> []) as Hne by discriminate.
  destruct (H Hne) as (recs & H1 & _ & H2 & _ & H3).
  exists recs. auto.
Defined.

(** [recommendation_score_positive] for bob. *)
Lemma recommendation_score_positive_witness :
  let r := RecommendationOut.mk
             (VideoOut.mk 1 "Night" None "0b5e_night.mp4" 1 (UserOut.mk 1 "alice" 0)
                [GenreOut.mk 1 "Horror"] 1) 1 in
  run (get_recommendations bob) horror_db = (Ok [r], horror_db) /\
  1 <= RecommendationOut.score r /\
  exists g, In g (VideoOut.genres (RecommendationOut.video r)) /\
            In (GenreOut.id g) (liked_genre_ids horror_db (User.id bob)).
Proof.
  intros r. split; [reflexivity|].
  exact (recommendation_score_positive horror_db horror_db bob [r] eq_refl r
           (or_introl eq_refl)).
Defined.

(** [liked_video_is_recommended] for bob and the video he has liked. *)
Lemma liked_video_is_recommended_witness :
  let v := Video.mk 1 "Night" None "0b5e_night.mp4" 1 1 in
  let g := Genre.mk 1 "Horror" in
  let l := VideoLike.mk 1 2 1 3 in
  video_ids_unique horror_db = true /\ owners_exist horror_db = true /\
  In v (videos horror_db) /\ In g (genres horror_db) /\ In l (video_likes horror_db) /\
  exists n, 1 <= n /\
    In (v, n) (ranked horror_db (liked_genre_ids horror_db (User.id bob)) (User.id bob)).
Proof.
  intros v g l.
  split; [reflexivity|]. split; [reflexivity|].
  split; [now left|]. split; [now left|]. split; [now left|].
  assert (Video.owner_id v <> User.id bob) as Hne by discriminate.
  destruct (liked_video_is_recommended horror_db bob v g l eq_refl eq_refl
              (or_introl eq_refl) (or_introl eq_refl) (or_introl eq_refl)
              (or_introl eq_refl) eq_refl eq_refl Hne) as (n & H1 & H2 & _).
  exists n. auto.
Defined.

(** The scenario continued: once carol has uploaded a video tagged
    "horror, Drama", its first name resolves to the existing genre
    "Horror", and bob is recommended carol's video (newer, score 1) ahead
    of the one he liked (score 1). *)
Example recommendations_after_second_upload :
  genres horror_db_2 = [Genre.mk 1 "Horror"; Genre.mk 2 "Drama"] /\
  video_genre horror_db_2 = [(1, 1); (2, 1); (2, 2)] /\
  exists first_rec second_rec,
    run (get_recommendations bob) horror_db_2 = (Ok [first_rec; second_rec], horror_db_2) /\
    VideoOut.id (RecommendationOut.video first_rec) = 2 /\
    RecommendationOut.score first_rec = 1 /\
    VideoOut.id (RecommendationOut.video second_rec) = 1 /\
    RecommendationOut.score second_rec = 1.
Proof.
  split; [reflexivity|]. split; [reflexivity|].
  do 2 eexists. split; [vm_compute; reflexivity|]. repeat split.
Qed.

(** The lookup of [upload_video] compares SQLite's [lower] of the stored
    name with Python's [lower] of the new one; the two agree on ASCII
    names only.  A stored name with a capital letter outside ASCII is
    never found again, so a second upload with the same name tries to
    insert it once more and fails on the unique constraint of
    [genres.name], and the two cases of such a letter yield two genre
    rows. *)
Remark genre_lookup_folds_ascii_only :
  let once := snd (run (upload_video "a" None capital_e_acute "a.mp4" "01" 1 alice)
                     db_alice) in
  genres once = [Genre.mk 1 capital_e_acute] /\
  run (upload_video "b" None capital_e_acute "b.mp4" "02" 2 alice) once =
    (Raise (IntegrityError "genres.name"), once) /\
  genres (snd (run (upload_video "c" None
                      (capital_e_acute ++ "," ++ small_e_acute)%string
                      "c.mp4" "03" 3 alice) db_alice)) =
    [Genre.mk 1 capital_e_acute; Genre.mk 2 small_e_acute].
Proof. repeat split; vm_compute; reflexivity. Qed.

(* ===================================================================== *)
(** * Further properties of the handlers *)
(* ===================================================================== *)

(** X1.  The existence check of [register], [like_video] and
    [subscribe_user] and the unique constraint behind the insert that
    follows agree: whatever the database, none of the three ends in an
    [IntegrityError]; [like_video] ends in 404, "Like removed" or
    "Video liked" and [subscribe_user] in 400, 404, "Unsubscribed" or
    "Subscribed". *)
Theorem check_then_insert_never_violates
    (get_password_hash : string -> string) (db : Tables) (user_in : UserCreate.t)
    (target : Z) (now : datetime) (current_user : User.t) :
  is_integrity_error (fst (run (register get_password_hash user_in now) db)) = false /\
  (let r := fst (run (like_video target now current_user) db) in
   r = Raise (HTTPException status.HTTP_404_NOT_FOUND "Video not found") \/
   r = Ok (Detail.mk "Like removed") \/ r = Ok (Detail.mk "Video liked")) /\
  (let r := fst (run (subscribe_user target now current_user) db) in
   r = Raise (HTTPException status.HTTP_400_BAD_REQUEST "Cannot subscribe to yourself") \/
   r = Raise (HTTPException status.HTTP_404_NOT_FOUND "User not found") \/
   r = Ok (Detail.mk "Unsubscribed") \/ r = Ok (Detail.mk "Subscribed")).
Proof.
  split; [|split].
  - destruct (username_taken db (UserCreate.username user_in)) eqn:E.
    + rewrite (register_taken get_password_hash db user_in now E). reflexivity.
    + rewrite (register_first get_password_hash db user_in now E). reflexivity.
  - destruct (video_exists db target) eqn:Hv.
    + destruct (liked db (User.id current_user) target) eqn:Hl.
      * destruct (like_video_removes db target now current_user Hv Hl)
          as [l [_ [_ ->]]]. auto.
      * rewrite (like_video_adds db target now current_user Hv Hl). auto.
    + rewrite (like_video_not_found db target now current_user Hv). auto.
  - destruct (Z.eq_dec (User.id current_user) target) as [Hs|Hne].
    { rewrite (subscribe_user_self db target now current_user Hs). auto. }
    destruct (user_exists db target) eqn:Hu.
    + destruct (subscribed db (User.id current_user) target) eqn:Hl.
      * destruct (subscribe_user_removes db target now current_user Hne Hu Hl)
          as [l [_ [_ ->]]]. auto.
      * rewrite (subscribe_user_adds db target now current_user Hne Hu Hl). auto 6.
    + rewrite (subscribe_user_not_found db target now current_user Hne Hu). auto.
Qed.

Lemma like_count_added (db : Tables) (l : VideoLike.t) (v : Z) :
  like_count (set_video_likes db (video_likes db ++ [l])) v =
  like_count db v + (if VideoLike.video_id l =? v then 1 else 0).
Proof.
  unfold like_count. simpl. rewrite filter_app, length_app. simpl.
  destruct (VideoLike.video_id l =? v); simpl; lia.
Qed.

Lemma like_count_removed (db : Tables) (l : VideoLike.t) (v : Z) :
  uniqueb Z.eqb (map VideoLike.id (video_likes db)) = true ->
  In l (video_likes db) ->
  like_count (set_video_likes db (without VideoLike.id l (video_likes db))) v =
  like_count db v - (if VideoLike.video_id l =? v then 1 else 0).
Proof.
  intros Hid Hin. apply (uniqueb_NoDup Z.eqb) in Hid; [|apply Z.eqb_eq].
  apply in_split in Hin as [l1 [l2 E]]. unfold like_count. simpl.
  rewrite E in *. rewrite (without_split VideoLike.id) by exact Hid.
  rewrite !filter_app, !length_app. simpl.
  destruct (VideoLike.video_id l =? v); simpl; lia.
Qed.

(** X2.  A like moves the like count of the video by exactly one, up
    when the pair was not liked and down when it was, and leaves the
    count of every other video alone. *)
Theorem like_video_moves_count (db : Tables) (video_id : Z) (now : datetime)
    (current_user : User.t) :
  video_likes_unique db = true ->
  video_exists db video_id = true ->
  let db' := snd (run (like_video video_id now current_user) db) in
  like_count db' video_id =
    (if liked db (User.id current_user) video_id
     then like_count db video_id - 1 else like_count db video_id + 1) /\
  forall other, other <> video_id -> like_count db' other = like_count db other.
Proof.
  intros Hu Hv db'. subst db'. apply andb_true_iff in Hu as [Hid _].
  destruct (liked db (User.id current_user) video_id) eqn:Hl.
  - destruct (like_video_removes db video_id now current_user Hv Hl)
      as [l [Hin [Hk ->]]]. simpl.
    injection Hk as _ Hk. split.
    + rewrite like_count_removed by assumption. rewrite Hk, Z.eqb_refl. reflexivity.
    + intros other Hne. rewrite like_count_removed by assumption.
      rewrite Hk, (proj2 (Z.eqb_neq _ _)) by congruence. lia.
  - rewrite (like_video_adds db video_id now current_user Hv Hl). simpl. split.
    + rewrite like_count_added. simpl. rewrite Z.eqb_refl. reflexivity.
    + intros other Hne. rewrite like_count_added. simpl.
      rewrite (proj2 (Z.eqb_neq _ _)) by congruence. lia.
Qed.

(** X3.  Subscribing twice in succession to an existing other user
    restores the subscriptions: every pair is subscribed exactly when it
    was before, the constraints of the table still hold, and the table
    is identical when the pair was not subscribed to begin with. *)
Theorem subscribe_user_twice (db : Tables) (user_id : Z) (now now' : datetime)
    (current_user : User.t) :
  subscriptions_unique db = true ->
  User.id current_user <> user_id ->
  user_exists db user_id = true ->
  let once := snd (run (subscribe_user user_id now current_user) db) in
  let twice := snd (run (subscribe_user user_id now' current_user) once) in
  (forall u c, subscribed twice u c = subscribed db u c) /\
  subscriptions_unique twice = true /\
  List.length (subscriptions twice) = List.length (subscriptions db) /\
  (subscribed db (User.id current_user) user_id = false -> twice = db).
Proof.
  intros Hu Hne Hc once twice. set (uid := User.id current_user) in *.
  pose proof Hu as Hu'. apply andb_true_iff in Hu' as [Hid Hkey].
  destruct (subscribed db uid user_id) eqn:Hs.
  - destruct (subscribe_user_removes db user_id now current_user Hne Hc Hs)
      as [x [Hin [Hk Hrun]]].
    assert (once = set_subscriptions db (without Subscription.id x (subscriptions db)))
      as Honce by (unfold once; rewrite Hrun; reflexivity).
    assert (forall u c, subscribed once u c =
                        (subscribed db u c && negb (pair_eqb (uid, user_id) (u, c)))%bool)
      as Hone.
    { intros u c. rewrite Honce, subscribed_after_remove by assumption.
      rewrite Hk. reflexivity. }
    assert (subscribed once uid user_id = false) as Hoff
      by (rewrite Hone, pair_eqb_refl, andb_false_r; reflexivity).
    assert (user_exists once user_id = true) as Hc' by (rewrite Honce; exact Hc).
    pose proof (subscribe_user_adds once user_id now' current_user Hne Hc' Hoff) as Hrun2.
    fold uid in Hrun2.
    assert (twice = set_subscriptions once
                      (subscriptions once ++
                       [Subscription.mk (next_id (map Subscription.id (subscriptions once)))
                          uid user_id now'])) as Htwice
      by (unfold twice; rewrite Hrun2; reflexivity).
    destruct (without_unique Subscription.id subscription_key x (subscriptions db)
                Hid Hkey) as [Hid' Hkey'].
    split; [|split; [|split]].
    + intros u c. rewrite Htwice, subscribed_after_add, Hone.
      unfold subscription_key at 1. simpl.
      destruct (pair_eqb (uid, user_id) (u, c)) eqn:E.
      * apply pair_eqb_eq in E. injection E as <- <-. rewrite Hs. reflexivity.
      * rewrite andb_true_r, orb_false_r. reflexivity.
    + rewrite Htwice. unfold subscriptions_unique. simpl. apply andb_true_iff.
      rewrite Honce. simpl.
      apply (appended_unique Subscription.id subscription_key); try assumption;
        try reflexivity.
      simpl. rewrite Honce in Hoff. exact Hoff.
    + rewrite Htwice. simpl. rewrite length_app. simpl. rewrite Honce. simpl.
      rewrite <- (without_length Subscription.id x (subscriptions db)) by assumption.
      lia.
    + discriminate.
  - pose proof (subscribe_user_adds db user_id now current_user Hne Hc Hs) as Hrun.
    fold uid in Hrun.
    set (x := Subscription.mk (next_id (map Subscription.id (subscriptions db)))
                uid user_id now) in *.
    assert (once = set_subscriptions db (subscriptions db ++ [x])) as Honce
      by (unfold once; rewrite Hrun; reflexivity).
    assert (subscribed once uid user_id = true) as Hon.
    { rewrite Honce, subscribed_after_add. unfold subscription_key, x. simpl.
      rewrite pair_eqb_refl. apply orb_true_r. }
    assert (user_exists once user_id = true) as Hc' by (rewrite Honce; exact Hc).
    destruct (subscribe_user_removes once user_id now' current_user Hne Hc' Hon)
      as [x' [Hin [Hk Hrun2]]].
    assert (x' = x) as ->.
    { rewrite Honce in Hin. simpl in Hin. apply in_app_iff in Hin as [Hin|[<-|[]]];
        [|reflexivity].
      exfalso. unfold subscribed, has in Hs.
      assert (existsb (fun y => pair_eqb (subscription_key y) (uid, user_id))
                (subscriptions db) = true) as E
        by (apply existsb_exists; exists x'; split;
            [exact Hin | now apply pair_eqb_eq]).
      rewrite E in Hs. discriminate. }
    assert (twice = db) as Hback.
    { unfold twice. rewrite Hrun2, Honce. simpl.
      rewrite (without_appended Subscription.id x (subscriptions db)) by reflexivity.
      apply set_subscriptions_same. }
    rewrite Hback. split; [reflexivity|]. split; [exact Hu|]. split; reflexivity.
Qed.

Lemma read_users_me_reads current_user s : fst (read_users_me current_user s) = s.
Proof. reflexivity. Qed.

(** X4.  The [GET] routes and the login only read: whatever they
    answer, a response or an exception, the database after the request
    is the database before it. *)
Theorem read_only_requests_change_nothing
    (get_password_hash : string -> string)
    (verify_password : string -> string -> bool)
    (create_access_token : list (string * string) -> string)
    (decode_token : string -> Result (list (string * string)))
    (env : Env) (req : Request) (db : Tables) :
  read_only req = true ->
  snd (answer get_password_hash verify_password create_access_token decode_token
         env req db) = db.
Proof.
  intros Hr. rewrite answer_run. apply run_reads.
  assert (forall A B (h : M A) (wrap : A -> B) s,
            fst (h s) = s -> fst ((x <- h ;; ret (wrap x)) s) = s) as Hwrap.
  { intros A B h wrap s H. unfold bind, ret.
    destruct (h s) as [s1 [x|e]]; simpl in *; now subst. }
  assert (forall A authorization (k : User.t -> M A) s,
            (forall u, fst (k u s) = s) ->
            fst ((u <- get_current_user decode_token authorization ;; k u) s) = s)
    as Hauth.
  { intros A authorization k s H. unfold bind.
    pose proof (get_current_user_reads decode_token authorization s) as Hg.
    destruct (get_current_user decode_token authorization s) as [s1 [u|e]];
      simpl in *; subst; [apply H | reflexivity]. }
  destruct req; try discriminate; unfold handle.
  - apply Hwrap, login_reads.
  - apply Hauth. intros u. apply Hwrap, read_users_me_reads.
  - apply Hwrap, list_videos_reads.
  - apply Hwrap, get_video_reads.
  - apply Hauth. intros u. apply Hwrap, get_recommendations_reads.
Qed.

(** X5.  [login] gives nothing away about why it refused: an unknown
    username and a wrong password end in one and the same exception, for
    any two refused attempts on any two databases. *)
Theorem login_failures_are_alike
    (verify_password : string -> string -> bool)
    (create_access_token : list (string * string) -> string)
    (username password username' password' : string) (db db' : Tables)
    (e e' : Exception) :
  fst (run (login verify_password create_access_token username password) db)
    = Raise e ->
  fst (run (login verify_password create_access_token username' password') db')
    = Raise e' ->
  e = e' /\ e = HTTPException status.HTTP_401_UNAUTHORIZED "Incorrect username or password".
Proof.
  assert (forall u p t x,
            fst (run (login verify_password create_access_token u p) t) = Raise x ->
            x = HTTPException status.HTTP_401_UNAUTHORIZED
                  "Incorrect username or password") as H.
  { intros u p t x. unfold run, get_db, login, bind, query. cbv beta iota.
    change (txn (SessionLocal t)) with t.
    destruct (first _) as [user|]; [|simpl; congruence].
    destruct (verify_password p (User.password_hash user)); simpl; congruence. }
  intros H1 H2. apply H in H1, H2. subst. auto.
Qed.

Lemma first_filter_username_appended (db : Tables) (user : User.t) :
  username_taken db (User.username user) = false ->
  first (filter (fun u => String.eqb (User.username u) (User.username user))
           (users db ++ [user])) = Some user.
Proof.
  intros H. rewrite first_filter_app.
  rewrite (proj2 (first_filter_none _ _) H). simpl. rewrite String.eqb_refl. reflexivity.
Qed.

(** X6.  Register, log in, ask who I am.  When the security functions
    fit together for this user ([verify_password] accepts the hash of the
    password, [decode_token] reads back the claims [create_access_token]
    was given), a valid registration with an unused username can be
    followed by a login with the same credentials, and the token of that
    login identifies the registered user on [/users/me]; the login and
    the lookup change nothing. *)
Theorem register_login_me
    (get_password_hash : string -> string)
    (verify_password : string -> string -> bool)
    (create_access_token : list (string * string) -> string)
    (decode_token : string -> Result (list (string * string)))
    (env env' env'' : Env) (db : Tables) (user_in : UserCreate.t) :
  let name := UserCreate.username user_in in
  let password := UserCreate.password user_in in
  UserCreate.valid user_in = true ->
  username_taken db name = false ->
  verify_password password (get_password_hash password) = true ->
  decode_token (create_access_token [("sub", name)]) = Ok [("sub", name)] ->
  exists (out : UserOut.t) (db1 : Tables),
    UserOut.username out = name /\
    answer get_password_hash verify_password create_access_token decode_token env
      (POST_auth_register user_in) db = (Ok (UserBody out), db1) /\
    answer get_password_hash verify_password create_access_token decode_token env'
      (POST_auth_login name password) db1 =
      (Ok (TokenBody (Token.mk (create_access_token [("sub", name)]) "bearer")), db1) /\
    answer get_password_hash verify_password create_access_token decode_token env''
      (GET_users_me (Some (create_access_token [("sub", name)]))) db1 =
      (Ok (UserBody out), db1).
Proof.
  intros name password Hvalid Hfree Hverify Hdecode.
  set (user := User.mk (next_id (map User.id (users db))) name
                 (get_password_hash password) (now env)).
  exists (UserOut.from_orm user), (set_users db (users db ++ [user])).
  pose proof (first_filter_username_appended db user Hfree) as Hfirst.
  split; [reflexivity|]. split; [|split].
  - rewrite answer_run. unfold handle. rewrite Hvalid, run_bind_ret.
    rewrite (register_first get_password_hash db user_in (now env) Hfree). reflexivity.
  - rewrite answer_run. unfold handle. rewrite run_bind_ret.
    unfold run, get_db, login, bind, query. cbv beta iota.
    change (txn (SessionLocal (set_users db (users db ++ [user]))))
      with (set_users db (users db ++ [user])).
    change (users (set_users db (users db ++ [user]))) with (users db ++ [user])%list.
    change name with (User.username user). rewrite Hfirst.
    change (User.password_hash user) with (get_password_hash password).
    rewrite Hverify. reflexivity.
  - rewrite answer_run. unfold handle. rewrite run_authenticated.
    unfold authenticate, get_current_user, oauth2_scheme, bind, ret, query.
    cbv beta iota. rewrite Hdecode. cbn [payload_get]. rewrite String.eqb_refl.
    cbv beta iota.
    change (txn (SessionLocal (set_users db (users db ++ [user]))))
      with (set_users db (users db ++ [user])).
    change (users (set_users db (users db ++ [user]))) with (users db ++ [user])%list.
    change name with (User.username user). rewrite Hfirst. reflexivity.
Qed.

Lemma serialize_video_txn (video : Video.t) (s s' : Session) :
  txn s = txn s' -> snd (serialize_video video s) = snd (serialize_video video s').
Proof.
  destruct s as [st t c], s' as [st' t' c']. simpl. intros <-.
  unfold serialize_video, refresh, bind, query, ret, raise. simpl.
  destruct (first _) as [row|]; simpl; [|reflexivity].
  destruct (Video_owner t row); reflexivity.
Qed.

Lemma run_serialize_video (video : Video.t) (s : Session) :
  serialize_video video s = (s, snd (serialize_video video (SessionLocal (txn s)))).
Proof.
  pose proof (serialize_video_reads video s) as H.
  rewrite <- (serialize_video_txn video s (SessionLocal (txn s))) by reflexivity.
  destruct (serialize_video video s) as [s1 r]. simpl in *. now subst.
Qed.

(** X7.  [get_video] answers 404 exactly when no video row carries the
    id; when one does, and the owners of the videos exist, it returns the
    serialization of the first such row, whose id is the one asked for. *)
Theorem get_video_finds_by_id (db : Tables) (video_id : Z) :
  owners_exist db = true ->
  (video_exists db video_id = false <->
   run (get_video video_id) db =
     (Raise (HTTPException status.HTTP_404_NOT_FOUND "Video not found"), db)) /\
  (video_exists db video_id = true ->
   exists video out,
     In video (videos db) /\ Video.id video = video_id /\
     serializes db video out /\ VideoOut.id out = video_id /\
     run (get_video video_id) db = (Ok out, db)).
Proof.
  intros Ho.
  assert (video_exists db video_id = true ->
          exists video out,
            In video (videos db) /\ Video.id video = video_id /\
            serializes db video out /\ VideoOut.id out = video_id /\
            run (get_video video_id) db = (Ok out, db)) as Hfound.
  { intros Hv. apply exists_first in Hv as [video [Hf Hid]]. apply Z.eqb_eq in Hid.
    pose proof (first_filter_some _ _ _ Hf) as [Hin _].
    destruct (owners_exist_owner db video Ho Hin) as [owner [H1 H2]].
    exists video, (video_out db video owner). split; [exact Hin|]. split; [exact Hid|].
    split; [exists owner; auto|]. split; [exact Hid|]. subst video_id.
    unfold run, get_db, get_video, bind, query. cbv beta iota.
    change (txn (SessionLocal db)) with db. rewrite Hf.
    unfold serialize_video, refresh, bind, query, ret. cbv beta iota.
    change (txn (SessionLocal db)) with db. rewrite Hf. cbv beta iota.
    change (txn (SessionLocal db)) with db. rewrite H1. reflexivity. }
  split; [|exact Hfound]. split.
  - intros Hv. apply first_filter_none in Hv.
    unfold run, get_db, get_video, bind, query. cbv beta iota.
    change (txn (SessionLocal db)) with db. rewrite Hv. reflexivity.
  - intros Hrun. destruct (video_exists db video_id) eqn:Hv; [|reflexivity].
    destruct (Hfound eq_refl) as (v & out & _ & _ & _ & _ & E).
    rewrite E in Hrun. discriminate.
Qed.

(** What a successful upload leaves: the new row last in [videos], and
    its serialization in the committed database as the response. *)
Lemma upload_video_returns title description genres_field file_filename uuid4 now
    current_user s s' out :
  upload_video title description genres_field file_filename uuid4 now current_user s
    = (s', Ok out) ->
  txn s' = store s' /\
  exists video,
    first (filter (fun r => Video.id r =? Video.id video) (videos (store s')))
      = Some video /\
    VideoOut.id out = Video.id video /\
    snd (serialize_video video (SessionLocal (store s'))) = Ok out.
Proof.
  unfold upload_video. intros H.
  apply bind_inv in H as [(s1 & gs & _ & H)|(e & _ & [=])].
  apply bind_inv in H as [(s2 & video & Ha & H)|(e & _ & [=])].
  apply add_Video_inv in Ha as (_ & _ & Ha).
  destruct (Ha video eq_refl) as [Hv Hvs]. clear Ha.
  apply bind_inv in H as [(s3 & [] & [= <-] & H)|(e & [=] & _)].
  unfold bind in H.
  assert (refresh videos Video.id video (mkSession (txn s2) (txn s2) (closed s2)) =
          (mkSession (txn s2) (txn s2) (closed s2), Ok video)) as Hr
    by (apply (refresh_appended videos Video.id (videos (txn s1)) video);
        [exact Hvs | rewrite Hv; reflexivity]).
  rewrite Hr in H. rewrite run_serialize_video in H. injection H as <- H.
  split; [reflexivity|]. exists video. cbn [store txn].
  split; [|split].
  - unfold refresh, bind, query in Hr. cbn [txn] in Hr.
    destruct (first _) as [row|]; [|discriminate]. now injection Hr as ->.
  - destruct (serialize_video video (SessionLocal (txn s2))) as [s4 r] eqn:E.
    simpl in H. subst r. apply serialize_video_inv in E as [_ (row & owner & Hf & _ & ->)].
    apply first_filter_some in Hf as [_ Hf]. apply Z.eqb_eq in Hf. exact Hf.
  - exact H.
Qed.

(** X8.  Upload, then fetch.  The video an upload returns is found
    again under its id: [get_video] on the id of the response, in the
    database the upload leaves, returns that same response. *)
Theorem upload_then_get_video
    (get_password_hash : string -> string)
    (verify_password : string -> string -> bool)
    (create_access_token : list (string * string) -> string)
    (decode_token : string -> Result (list (string * string)))
    (env env' : Env) (authorization : option string) (title : string)
    (description : option string) (genres_field file_filename : string)
    (db db' : Tables) (out : VideoOut.t) :
  answer get_password_hash verify_password create_access_token decode_token env
    (POST_videos authorization title description genres_field file_filename) db
    = (Ok (VideoBody out), db') ->
  answer get_password_hash verify_password create_access_token decode_token env'
    (GET_videos_id (VideoOut.id out)) db' = (Ok (VideoBody out), db').
Proof.
  rewrite !answer_run. unfold handle. rewrite run_authenticated.
  destruct (authenticate decode_token authorization db) as [u|]; [|discriminate].
  rewrite !run_bind_ret. unfold run at 1, get_db.
  destruct (upload_video _ _ _ _ _ _ _ _) as [s [o|e]] eqn:E; [|discriminate].
  intros [= <- <-]. apply upload_video_returns in E as [_ (video & Hf & Hid & Hs)].
  cbn [close store].
  unfold run, get_db, get_video, bind, query. cbv beta iota.
  change (txn (SessionLocal (store s))) with (store s). rewrite Hid, Hf.
  rewrite run_serialize_video. change (txn (SessionLocal (store s))) with (store s).
  rewrite Hs. reflexivity.
Qed.

Lemma skipn_sorted {A} (R : A -> A -> Prop) (n : nat) (rows : list A) :
  StronglySorted R rows -> StronglySorted R (skipn n rows).
Proof.
  revert rows. induction n as [|n IH]; intros rows Hs; simpl; [exact Hs|].
  destruct rows as [|x rows]; [constructor|].
  inversion Hs; subst. now apply IH.
Qed.

Lemma skipn_In {A} (n : nat) (rows : list A) (x : A) : In x (skipn n rows) -> In x rows.
Proof.
  intros H. rewrite <- (firstn_skipn n rows). apply in_app_iff. now right.
Qed.

Lemma firstn_plus {A} (n m : nat) (rows : list A) :
  firstn (n + m) rows = (firstn n rows ++ firstn m (skipn n rows))%list.
Proof.
  revert rows. induction n as [|n IH]; intros rows; simpl; [reflexivity|].
  destruct rows as [|x rows]; simpl; [now rewrite firstn_nil | now rewrite IH].
Qed.

Lemma for_each_serialize_video (s : Session) (rows : list Video.t) :
  video_ids_unique (txn s) = true -> owners_exist (txn s) = true ->
  (forall v, In v rows -> In v (videos (txn s))) ->
  exists outs,
    for_each serialize_video rows s = (s, Ok outs) /\
    Forall2 (serializes (txn s)) rows outs.
Proof.
  intros Hu Ho. induction rows as [|v rows IH]; intros Hin.
  - exists []. split; [reflexivity | constructor].
  - destruct IH as [outs [Hrun HF]]; [intros r Hr; apply Hin; now right|].
    destruct (serialize_video_ok v s Hu Ho (Hin v (or_introl eq_refl)))
      as [owner [H1 [H2 H3]]].
    eexists (_ :: outs). split.
    + simpl. unfold bind at 1. rewrite H3. unfold bind. rewrite Hrun. reflexivity.
    + constructor; [|exact HF]. exists owner. auto.
Qed.

Lemma for_each_of_Forall2 {A B} (f : A -> M B) (xs : list A) (ys : list B)
    (s : Session) :
  Forall2 (fun x y => f x s = (s, Ok y)) xs ys -> for_each f xs s = (s, Ok ys).
Proof.
  induction 1 as [|x y xs ys Hxy _ IH]; simpl; [reflexivity|].
  unfold bind. rewrite Hxy, IH. reflexivity.
Qed.

Lemma for_each_app {A B} (f : A -> M B) (xs ys : list A) (s : Session)
    (a b : list B) :
  (forall x, fst (f x s) = s) ->
  for_each f xs s = (s, Ok a) -> for_each f ys s = (s, Ok b) ->
  for_each f (xs ++ ys) s = (s, Ok (a ++ b)%list).
Proof.
  intros Hf Hx Hy. apply for_each_inv in Hx as [_ Hx]; [|exact Hf].
  apply for_each_inv in Hy as [_ Hy]; [|exact Hf].
  apply for_each_of_Forall2. apply Forall2_app; assumption.
Qed.

(** X9.  A page of [list_videos]: with the keys of [videos] intact and a
    limit that is not negative, the request returns the serializations of
    the rows [skip .. skip + limit) of the table ordered newest first: at
    most [limit] of them, each a video of the table, in order of
    creation time, newest first. *)
Theorem list_videos_page (db : Tables) (skip lim : Z) :
  video_ids_unique db = true -> owners_exist db = true -> 0 <= lim ->
  exists outs,
    run (list_videos skip lim) db = (Ok outs, db) /\
    Forall2 (serializes db)
      (firstn (Z.to_nat lim) (skipn (Z.to_nat skip) (newest_first db))) outs /\
    (List.length outs <= Z.to_nat lim)%nat /\
    (forall out, In out outs -> video_exists db (VideoOut.id out) = true) /\
    StronglySorted (fun a b => VideoOut.created_at b <= VideoOut.created_at a) outs.
Proof.
  intros Hu Ho Hlim.
  set (page := firstn (Z.to_nat lim) (skipn (Z.to_nat skip) (newest_first db))).
  assert (forall v, In v page -> In v (videos db)) as Hin.
  { intros v Hv. unfold page in Hv.
    assert (In v (skipn (Z.to_nat skip) (newest_first db))) as Hs.
    { rewrite <- (firstn_skipn (Z.to_nat lim) (skipn _ _)).
      apply in_app_iff. now left. }
    apply skipn_In in Hs. unfold newest_first in Hs. now apply order_by_In in Hs. }
  destruct (for_each_serialize_video (SessionLocal db) page Hu Ho Hin) as [outs [Hrun HF]].
  change (txn (SessionLocal db)) with db in HF.
  exists outs. split; [|split; [exact HF|split; [|split]]].
  - unfold run, get_db, list_videos, bind, query. cbv beta iota.
    change (txn (SessionLocal db)) with db. unfold limit, offset.
    destruct (Z.ltb_spec lim 0); [lia|]. fold (newest_first db). fold page.
    rewrite Hrun. reflexivity.
  - rewrite <- (Forall2_length HF). unfold page. apply firstn_le_length.
  - intros out Hout. destruct (Forall2_In_r _ _ _ _ HF Hout) as [v [Hv [o [_ [_ ->]]]]].
    simpl. apply existsb_exists. exists v. split; [now apply Hin | apply Z.eqb_refl].
  - apply (Forall2_sorted (serializes db)
             (fun a b => (Video.created_at b <=? Video.created_at a) = true)
             _ page outs) with (2 := HF).
    + intros a a' b b' [o [_ [_ ->]]] [o' [_ [_ ->]]] H. simpl. now apply Z.leb_le.
    + unfold page. apply firstn_sorted, skipn_sorted. unfold newest_first.
      apply order_by_sorted.
      * intros a b H. apply Z.leb_le. apply Z.leb_gt in H. lia.
      * intros a b c H1 H2. apply Z.leb_le in H1, H2. apply Z.leb_le. lia.
Qed.

(** X10.  Pages of [list_videos] compose: a page of [n] videos after
    [skip] followed by the page of [m] videos after [skip + n] is the
    page of [n + m] videos after [skip]. *)
Theorem list_videos_pages_compose (db : Tables) (skip n m : Z)
    (first_page second_page : list VideoOut.t) :
  0 <= skip -> 0 <= n -> 0 <= m ->
  fst (run (list_videos skip n) db) = Ok first_page ->
  fst (run (list_videos (skip + n) m) db) = Ok second_page ->
  run (list_videos skip (n + m)) db = (Ok (first_page ++ second_page)%list, db).
Proof.
  intros Hs Hn Hm.
  assert (forall k l, 0 <= l ->
            run (list_videos k l) db =
            (snd (for_each serialize_video
                    (firstn (Z.to_nat l) (skipn (Z.to_nat k) (newest_first db)))
                    (SessionLocal db)), db)) as Hrun.
  { intros k l Hl. rewrite run_reads_all by (intros; apply list_videos_reads).
    f_equal. unfold run, get_db, list_videos, bind, query. cbv beta iota.
    change (txn (SessionLocal db)) with db. unfold limit, offset.
    destruct (Z.ltb_spec l 0); [lia|]. fold (newest_first db).
    destruct (for_each _ _ _) as [s r]. reflexivity. }
  assert (forall rows, fst (for_each serialize_video rows (SessionLocal db))
                       = SessionLocal db) as Hreads
    by (intros rows; apply for_each_reads; intros; apply serialize_video_reads).
  rewrite !Hrun by lia. cbn [fst].
  set (rows := skipn (Z.to_nat skip) (newest_first db)).
  replace (skipn (Z.to_nat (skip + n)) (newest_first db))
    with (skipn (Z.to_nat n) rows)
    by (unfold rows; rewrite skipn_skipn; f_equal; lia).
  intros H1 H2.
  replace (Z.to_nat (n + m)) with (Z.to_nat n + Z.to_nat m)%nat by lia.
  rewrite firstn_plus. f_equal.
  pose proof (Hreads (firstn (Z.to_nat n) rows)) as R1.
  pose proof (Hreads (firstn (Z.to_nat m) (skipn (Z.to_nat n) rows))) as R2.
  destruct (for_each serialize_video (firstn (Z.to_nat n) rows) (SessionLocal db))
    as [s1 r1] eqn:E1.
  destruct (for_each serialize_video (firstn (Z.to_nat m) (skipn (Z.to_nat n) rows))
              (SessionLocal db)) as [s2 r2] eqn:E2.
  simpl in *. subst.
  rewrite (for_each_app serialize_video _ _ (SessionLocal db) first_page second_page);
    [reflexivity | intros; apply serialize_video_reads | exact E1 | exact E2].
Qed.

Lemma add_comment_not_found (db : Tables) video_id comment_in now current_user :
  video_exists db video_id = false ->
  run (add_comment video_id comment_in now current_user) db =
    (Raise (HTTPException status.HTTP_404_NOT_FOUND "Video not found"), db).
Proof.
  intros Hv. apply first_filter_none in Hv.
  unfold run, get_db, add_comment, bind, query. cbv beta iota.
  change (txn (SessionLocal db)) with db. rewrite Hv. reflexivity.
Qed.

Lemma add_comment_adds (db : Tables) video_id comment_in now current_user :
  user_exists db (User.id current_user) = true ->
  video_exists db video_id = true ->
  let comment := Comment.mk (next_id (map Comment.id (comments db)))
                   (CommentCreate.content comment_in) now (User.id current_user)
                   video_id in
  exists author,
    In author (users db) /\ User.id author = User.id current_user /\
    run (add_comment video_id comment_in now current_user) db =
      (Ok (CommentOut.mk (Comment.id comment) (CommentCreate.content comment_in) now
             (UserOut.from_orm author)),
       set_comments db (comments db ++ [comment])).
Proof.
  intros Hu Hv comment. apply exists_first in Hv as [video [Hv Hid]]. apply Z.eqb_eq in Hid.
  apply exists_first in Hu as [author [Ha Hau]]. apply Z.eqb_eq in Hau.
  exists author. split; [now apply first_filter_some in Ha|]. split; [exact Hau|].
  unfold run, get_db, add_comment, bind at 1, query at 1. cbv beta iota.
  change (txn (SessionLocal db)) with db. rewrite Hv.
  unfold bind at 1, add_Comment. cbv beta iota zeta.
  change (txn (SessionLocal db)) with db. rewrite Hid. fold comment.
  unfold bind at 1, commit. cbv beta iota. unfold bind at 1.
  rewrite (refresh_appended comments Comment.id (comments db) comment);
    try reflexivity.
  unfold bind, query. cbv beta iota. unfold Comment_author. simpl. rewrite Ha.
  reflexivity.
Qed.

(** X11.  [add_comment] by a user who has a row: for a missing video it
    fails with 404 and writes nothing; otherwise it appends exactly one
    comment row, with a fresh id, the content sent, the caller as author
    and the video asked for, touches no other table, and answers with
    that comment and its author. *)
Theorem add_comment_appends (db : Tables) (video_id : Z) (comment_in : CommentCreate.t)
    (now : datetime) (current_user : User.t) :
  user_exists db (User.id current_user) = true ->
  (video_exists db video_id = false ->
   run (add_comment video_id comment_in now current_user) db =
     (Raise (HTTPException status.HTTP_404_NOT_FOUND "Video not found"), db)) /\
  (video_exists db video_id = true ->
   let comment := Comment.mk (next_id (map Comment.id (comments db)))
                    (CommentCreate.content comment_in) now (User.id current_user)
                    video_id in
   exists author,
     In author (users db) /\ User.id author = User.id current_user /\
     run (add_comment video_id comment_in now current_user) db =
       (Ok (CommentOut.mk (Comment.id comment) (CommentCreate.content comment_in) now
              (UserOut.from_orm author)),
        set_comments db (comments db ++ [comment]))).
Proof.
  intros Hu. split.
  - apply add_comment_not_found.
  - apply add_comment_adds. exact Hu.
Qed.

Lemma group_heads_fresh {A} (key : A -> Z) (seen : list Z) (rows : list A) (h : A) :
  In h (group_heads key seen rows) -> ~ In (key h) seen.
Proof.
  revert seen. induction rows as [|r rows IH]; intros seen; simpl; [tauto|].
  destruct (existsb (Z.eqb (key r)) seen) eqn:E; [apply IH|].
  intros [<-|H].
  - intros Hin. assert (existsb (Z.eqb (key r)) seen = true) as F
      by (apply existsb_exists; exists (key r); split; [exact Hin | apply Z.eqb_refl]).
    congruence.
  - intros Hin. apply (IH _ H). now right.
Qed.

Lemma group_heads_NoDup {A} (key : A -> Z) (seen : list Z) (rows : list A) :
  NoDup (map key (group_heads key seen rows)).
Proof.
  revert seen. induction rows as [|r rows IH]; intros seen; simpl; [constructor|].
  destruct (existsb (Z.eqb (key r)) seen); [apply IH|].
  simpl. constructor; [|apply IH].
  intros Hin. apply in_map_iff in Hin as [h [Hk Hh]].
  apply group_heads_fresh in Hh. apply Hh. rewrite Hk. now left.
Qed.

Lemma insert_by_Permutation {A} (before : A -> A -> bool) (x : A) (rows : list A) :
  Permutation (insert_by before x rows) (x :: rows).
Proof.
  induction rows as [|y rows IH]; simpl; [reflexivity|].
  destruct (before x y); [reflexivity|].
  rewrite IH. apply perm_swap.
Qed.

Lemma order_by_Permutation {A} (before : A -> A -> bool) (rows : list A) :
  Permutation (order_by before rows) rows.
Proof.
  induction rows as [|x rows IH]; simpl; [reflexivity|].
  unfold order_by in *. simpl. rewrite insert_by_Permutation. now constructor.
Qed.

Lemma ranked_NoDup (t : Tables) (liked : list Z) (uid : Z) :
  NoDup (map (fun rec => Video.id (fst rec)) (ranked t liked uid)).
Proof.
  unfold ranked.
  eapply Permutation_NoDup;
    [apply Permutation_map; symmetry; apply order_by_Permutation|].
  unfold group_by_count. rewrite !map_map. simpl.
  apply (group_heads_NoDup (fun row : Video.t * Genre.t => Video.id (fst row))).
Qed.

Lemma firstn_NoDup {A} (n : nat) (l : list A) : NoDup l -> NoDup (firstn n l).
Proof.
  intros H. rewrite <- (firstn_skipn n l) in H. now apply NoDup_app_remove_r in H.
Qed.

(** The recommendations returned, read off the ranking. *)
Lemma get_recommendations_inv (db db' : Tables) (current_user : User.t)
    (recs : list RecommendationOut.t) :
  run (get_recommendations current_user) db = (Ok recs, db') ->
  recs = [] \/
  Forall2 (fun rec out =>
             RecommendationOut.score out = snd rec /\
             exists row owner,
               Video.id row = Video.id (fst rec) /\
               RecommendationOut.video out = video_out db row owner)
    (firstn 20 (ranked db (liked_genre_ids db (User.id current_user))
                  (User.id current_user)))
    recs.
Proof.
  rewrite run_get_recommendations. intros [= H _].
  unfold get_recommendations, bind, query in H. cbv beta iota in H.
  change (txn (SessionLocal db)) with db in H.
  destruct (liked_genre_ids db (User.id current_user)) eqn:El.
  { left. simpl in H. now injection H as <-. }
  rewrite <- El in *. right.
  destruct (for_each _ _ _) as [s [outs|e]] eqn:E; simpl in H; [|discriminate].
  injection H as ->. apply for_each_serialize_inv in E. exact E.
Qed.

(** X12.  [get_recommendations] never returns the same video twice:
    the ids of the returned videos are pairwise different. *)
Theorem recommendations_are_distinct (db db' : Tables) (current_user : User.t)
    (recs : list RecommendationOut.t) :
  run (get_recommendations current_user) db = (Ok recs, db') ->
  NoDup (map (fun r => VideoOut.id (RecommendationOut.video r)) recs).
Proof.
  intros H. apply get_recommendations_inv in H as [->|H]; [constructor|].
  set (rows := firstn 20 _) in H.
  assert (map (fun r => VideoOut.id (RecommendationOut.video r)) recs =
          map (fun rec => Video.id (fst rec)) rows) as ->.
  { induction H as [|rec out rows' outs [_ (row & owner & Hid & Hv)] _ IH];
      [reflexivity|].
    simpl. rewrite IH, Hv. simpl. now rewrite Hid. }
  unfold rows. rewrite <- firstn_map. apply firstn_NoDup, ranked_NoDup.
Qed.

Lemma sorted_app_inv {A} (R : A -> A -> Prop) (l1 l2 : list A) :
  StronglySorted R (l1 ++ l2) -> forall x y, In x l1 -> In y l2 -> R x y.
Proof.
  induction l1 as [|a l1 IH]; simpl; [tauto|].
  intros Hs x y [<-|Hx] Hy; inversion Hs as [|? ? Hs' Ha]; subst.
  - rewrite Forall_forall in Ha. apply Ha. apply in_app_iff. now right.
  - now apply IH.
Qed.

(** X13.  The recommendations are the top of the ranking: there are
    as many as the ranking has rows, up to 20, and no ranked video that
    was left out has a higher score than a returned one, or the same
    score and a later creation time. *)
Theorem recommendations_are_the_top (db : Tables) (current_user : User.t) :
  video_ids_unique db = true -> owners_exist db = true ->
  let uid := User.id current_user in
  let ranking := ranked db (liked_genre_ids db uid) uid in
  exists recs,
    run (get_recommendations current_user) db = (Ok recs, db) /\
    List.length recs = Nat.min 20 (List.length ranking) /\
    forall r v n, In r recs -> In (v, n) (skipn 20 ranking) ->
      n < RecommendationOut.score r \/
      (n = RecommendationOut.score r /\
       Video.created_at v <= VideoOut.created_at (RecommendationOut.video r)).
Proof.
  intros Hu Ho. cbv zeta.
  destruct (liked_genre_ids db (User.id current_user)) as [|a l] eqn:El.
  - exists [].
    assert (ranked db [] (User.id current_user) = []) as Hr.
    { unfold ranked.
      destruct (candidate_rows db [] (User.id current_user)) as [|[v g] rest] eqn:Ec;
        [reflexivity|].
      assert (In (v, g) (candidate_rows db [] (User.id current_user))) as Hin
        by (rewrite Ec; now left).
      apply In_candidate_rows in Hin as (_ & _ & _ & Hl & _). discriminate. }
    rewrite Hr. split; [|split; [reflexivity|]].
    + rewrite run_get_recommendations. unfold get_recommendations, bind, query.
      cbv beta iota. change (txn (SessionLocal db)) with db. rewrite El.
      reflexivity.
    + intros r v n [].
  - assert (liked_genre_ids db (User.id current_user) <> []) as Hne
      by (rewrite El; discriminate).
    destruct (get_recommendations_result db current_user Hu Ho Hne) as [recs [Hrun HF]].
    rewrite El in HF.
    set (ranking := ranked db (a :: l) (User.id current_user)) in *.
    change (recommendations db (a :: l) (User.id current_user))
      with (firstn 20 ranking) in HF.
    exists recs. split; [exact Hrun|]. split.
    + rewrite <- (Forall2_length HF). apply length_firstn.
    + intros r v n Hr Hv.
      destruct (Forall2_In_r _ _ _ _ HF Hr) as [rec [Hrec [o [_ [_ ->]]]]].
      pose proof (ranked_sorted db (a :: l) (User.id current_user)) as Hs.
      fold ranking in Hs. rewrite <- (firstn_skipn 20 ranking) in Hs.
      pose proof (sorted_app_inv _ _ _ Hs rec (v, n) Hrec Hv) as Hb.
      apply rank_before_spec in Hb. simpl in *. lia.
Qed.

(* ===================================================================== *)
(** * The parsing of the genres field *)
(* ===================================================================== *)

Lemma rstrip_idem (s : string) : Str.rstrip (Str.rstrip s) = Str.rstrip s.
Proof.
  induction s as [|c r IH]; [reflexivity|]. simpl.
  destruct (Str.rstrip r) as [|a t] eqn:E.
  - destruct (Str.isspace c) eqn:Hc; [reflexivity|]. simpl. rewrite Hc. reflexivity.
  - simpl in *. rewrite IH. reflexivity.
Qed.

Lemma lstrip_head (s : string) :
  Str.lstrip s = EmptyString \/
  exists c r, Str.lstrip s = String c r /\ Str.isspace c = false.
Proof.
  induction s as [|c r IH]; simpl; [now left|].
  destruct (Str.isspace c) eqn:E; [exact IH|]. right. eauto.
Qed.

Lemma lstrip_rstrip (c : ascii) (r : string) :
  Str.isspace c = false ->
  Str.lstrip (Str.rstrip (String c r)) = Str.rstrip (String c r).
Proof.
  intros Hc. simpl. destruct (Str.rstrip r); [rewrite Hc|]; simpl; rewrite Hc; reflexivity.
Qed.

Lemma strip_idem (s : string) : Str.strip (Str.strip s) = Str.strip s.
Proof.
  unfold Str.strip. destruct (lstrip_head s) as [E|(c & r & E & Hc)]; rewrite E.
  - reflexivity.
  - rewrite lstrip_rstrip by exact Hc. apply rstrip_idem.
Qed.

Lemma contains_lstrip (c : ascii) (s : string) :
  contains c s = false -> contains c (Str.lstrip s) = false.
Proof.
  induction s as [|a r IH]; simpl; [auto|].
  intros H. apply orb_false_iff in H as [H1 H2].
  destruct (Str.isspace a); [auto|]. simpl. now rewrite H1, H2.
Qed.

Lemma contains_rstrip (c : ascii) (s : string) :
  contains c s = false -> contains c (Str.rstrip s) = false.
Proof.
  induction s as [|a r IH]; simpl; [auto|].
  intros H. apply orb_false_iff in H as [H1 H2]. specialize (IH H2).
  destruct (Str.rstrip r) as [|b t].
  - destruct (Str.isspace a); [reflexivity|]. simpl. now rewrite H1.
  - simpl in *. now rewrite H1, IH.
Qed.

Lemma split_no_separator (sep : ascii) (s : string) :
  Forall (fun piece => contains sep piece = false) (Str.split sep s).
Proof.
  induction s as [|c r IH]; simpl.
  - constructor; [reflexivity | constructor].
  - destruct (Ascii.eqb c sep) eqn:E.
    + constructor; [reflexivity | exact IH].
    + destruct (Str.split sep r) as [|h t].
      * constructor; [simpl; now rewrite E | constructor].
      * inversion IH as [|? ? Hh Ht]; subst. constructor; [|exact Ht].
        simpl. now rewrite E, Hh.
Qed.

(** X14.  The genre names [upload_video] reads from the form field are
    clean: none is empty, none carries white space at either end (it is
    its own [strip]) and none contains a comma; and a field without a
    comma yields at most one name. *)
Theorem genre_names_are_clean (genres_field : string) :
  (forall name, In name (genre_names genres_field) ->
     name <> EmptyString /\ Str.strip name = name /\ contains "," name = false) /\
  (contains "," genres_field = false ->
   genre_names genres_field = [] \/
   genre_names genres_field = [Str.strip genres_field]).
Proof.
  split.
  - intros name H. unfold genre_names in H.
    apply in_map_iff in H as [piece [<- H]]. apply filter_In in H as [Hin Ht].
    split; [|split].
    + intros E. rewrite E in Ht. discriminate.
    + apply strip_idem.
    + pose proof (split_no_separator "," genres_field) as F.
      rewrite Forall_forall in F. unfold Str.strip.
      apply contains_rstrip, contains_lstrip, F. exact Hin.
  - intros Hc.
    assert (Str.split "," genres_field = [genres_field]) as Hs.
    { induction genres_field as [|c r IH]; [reflexivity|]. simpl in *.
      apply orb_false_iff in Hc as [H1 H2]. rewrite H1, (IH H2). reflexivity. }
    unfold genre_names. rewrite Hs. simpl.
    destruct (Str.truthy (Str.strip genres_field)); auto.
Qed.

(* ===================================================================== *)
(** * What a request can do to the tables *)
(* ===================================================================== *)

Lemma add_Genre_effect name s s' r :
  add_Genre name s = (s', r) ->
  exists gs, txn s' = set_genres (txn s) (genres (txn s) ++ gs).
Proof.
  unfold add_Genre. destruct (existsb _ _); intros [= <- <-].
  - exists []. rewrite app_nil_r. destruct (txn s). reflexivity.
  - eexists [_]. reflexivity.
Qed.

Lemma set_genres_twice t gs gs' :
  set_genres (set_genres t (genres t ++ gs)) (genres t ++ gs ++ gs') =
  set_genres t (genres t ++ gs ++ gs').
Proof. reflexivity. Qed.

Lemma collect_genres_effect names acc s s' r :
  collect_genres names acc s = (s', r) ->
  exists gs, txn s' = set_genres (txn s) (genres (txn s) ++ gs).
Proof.
  revert acc s. induction names as [|name names IH]; intros acc s; simpl.
  - intros [= <- <-]. exists []. rewrite app_nil_r. destruct (txn s). reflexivity.
  - intros H. apply bind_inv in H as [(s1 & found & [= <- <-] & H)|(e & [=] & _)].
    destruct (first (filter _ (genres (txn s)))) as [found|].
    + apply bind_inv in H as [(s1 & genre & [= <- _] & H)|(e & [=] & _)].
      now apply IH in H.
    + apply bind_inv in H as [(s1 & genre & Hg & H)|(e & Hg & _)].
      * apply IH in H as [gs' H].
        apply bind_inv in Hg as [(s2 & g & Hg & [= <- _])|(e & Hg & [=])].
        apply add_Genre_effect in Hg as [gs Hg]. rewrite Hg in H. simpl in H.
        exists (gs ++ gs')%list. rewrite H, app_assoc. reflexivity.
      * apply bind_inv in Hg as [(s2 & g & Hg & [=])|(e' & Hg & _)].
        now apply add_Genre_effect in Hg.
Qed.

Lemma link_genres_effect video_id gs s s' r :
  link_genres video_id gs s = (s', r) ->
  exists links, txn s' = set_video_genre (txn s) (video_genre (txn s) ++ links).
Proof.
  revert s. induction gs as [|g gs IH]; intros s; simpl.
  - intros [= <- <-]. exists []. rewrite app_nil_r. destruct (txn s). reflexivity.
  - intros H.
    assert (forall s1 r1, add_video_genre (video_id, Genre.id g) s = (s1, r1) ->
              exists links,
                txn s1 = set_video_genre (txn s) (video_genre (txn s) ++ links)) as Hadd.
    { intros s1 r1. unfold add_video_genre. destruct (existsb _ _); intros [= <- <-].
      - exists []. rewrite app_nil_r. destruct (txn s). reflexivity.
      - eexists [_]. reflexivity. }
    apply bind_inv in H as [(s1 & [] & Hg & H)|(e & Hg & _)].
    + apply Hadd in Hg as [l1 Hg]. apply IH in H as [l2 H]. rewrite Hg in H. simpl in H.
      exists (l1 ++ l2)%list. rewrite H, app_assoc. reflexivity.
    + now apply Hadd in Hg.
Qed.

Lemma add_Genre_unique name s s' r :
  add_Genre name s = (s', r) ->
  genres_unique (txn s) = true -> genres_unique (txn s') = true.
Proof.
  unfold add_Genre. destruct (existsb _ _) eqn:E; intros [= <- <-]; [auto|].
  unfold genres_unique, genre_ids_unique. cbn [txn genres set_genres]. intros H.
  apply andb_true_iff in H as [H1 H2]. rewrite !map_app. cbn [map].
  rewrite (uniqueb_snoc Z.eqb), (uniqueb_snoc String.eqb); auto.
  - apply String.eqb_eq.
  - cbn [Genre.name]. intros Hin. apply in_map_iff in Hin as [g [Hg Hin]].
    assert (existsb (fun g0 => String.eqb (Genre.name g0) name) (genres (txn s)) = true)
      as F by (apply existsb_exists; exists g; split; [exact Hin | now apply String.eqb_eq]).
    congruence.
  - apply Z.eqb_eq.
  - cbn [Genre.id]. intros Hin. apply next_id_above in Hin. lia.
Qed.

Lemma collect_genres_unique names acc s s' r :
  collect_genres names acc s = (s', r) ->
  genres_unique (txn s) = true -> genres_unique (txn s') = true.
Proof.
  revert acc s. induction names as [|name names IH]; intros acc s; simpl.
  - intros [= <- <-]. auto.
  - intros H Hu. apply bind_inv in H as [(s1 & found & [= <- <-] & H)|(e & [=] & _)].
    destruct (first (filter _ (genres (txn s)))) as [found|].
    + apply bind_inv in H as [(s1 & genre & [= <- _] & H)|(e & [=] & _)].
      exact (IH _ _ H Hu).
    + apply bind_inv in H as [(s1 & genre & Hg & H)|(e & Hg & _)].
      * apply (IH _ _ H).
        apply bind_inv in Hg as [(s2 & g & Hg & [= <- _])|(e & Hg & [=])].
        exact (add_Genre_unique _ _ _ _ Hg Hu).
      * apply bind_inv in Hg as [(s2 & g & Hg & [=])|(e' & Hg & _)].
        exact (add_Genre_unique _ _ _ _ Hg Hu).
Qed.

(** The database a successful upload leaves: new genre rows, the video
    row and its association rows appended, every other table as before. *)
Lemma upload_video_effect title description genres_field file_filename uuid4 now
    current_user s s' out :
  upload_video title description genres_field file_filename uuid4 now current_user s
    = (s', Ok out) ->
  exists video gs links,
    Video.id video = next_id (map Video.id (videos (txn s))) /\
    Video.owner_id video = User.id current_user /\
    (genres_unique (txn s) = true ->
     genres_unique (set_genres (txn s) (genres (txn s) ++ gs)) = true) /\
    store s' =
      mkTables (users (txn s)) (genres (txn s) ++ gs) (videos (txn s) ++ [video])
        (video_genre (txn s) ++ links) (comments (txn s)) (video_likes (txn s))
        (subscriptions (txn s)).
Proof.
  unfold upload_video. intros H.
  apply bind_inv in H as [(s1 & vgs & Hc & H)|(e & _ & [=])].
  pose proof (collect_genres_unique _ _ _ _ _ Hc) as Hgu.
  apply collect_genres_effect in Hc as [gs Hc].
  apply bind_inv in H as [(s2 & video & Ha & H)|(e & _ & [=])].
  unfold add_Video in Ha.
  apply bind_inv in Ha as [(s1' & v & [= <- <-] & Ha)|(e & [=] & _)].
  apply bind_inv in Ha as [(s2' & [] & Hl & [= <- <-])|(e & _ & [=])].
  apply link_genres_effect in Hl as [links Hl]. simpl in Hl.
  apply bind_inv in H as [(s3 & [] & [= <-] & H)|(e & [=] & _)].
  apply bind_inv in H as [(s4 & v' & Hr & H)|(e & _ & [=])].
  match type of Hr with refresh ?t ?k ?o ?s0 = _ =>
    pose proof (refresh_reads t k o s0) as Hr' end.
  rewrite Hr in Hr'. simpl in Hr'. subst s4.
  match type of H with serialize_video ?v0 ?s0 = _ =>
    pose proof (serialize_video_reads v0 s0) as Hs end.
  rewrite H in Hs. simpl in Hs. subst s'. simpl.
  eexists _, gs, links.
  split; [|split; [|split; [|rewrite Hl, Hc; reflexivity]]]; try reflexivity.
  rewrite <- Hc. exact Hgu.
Qed.

Lemma run_upload_video_effect title description genres_field file_filename uuid4 now
    current_user db r db' :
  user_exists db (User.id current_user) = true ->
  run (upload_video title description genres_field file_filename uuid4 now current_user)
    db = (r, db') ->
  db' = db \/
  exists video gs links,
    Video.id video = next_id (map Video.id (videos db)) /\
    Video.owner_id video = User.id current_user /\
    (genres_unique db = true ->
     genres_unique (set_genres db (genres db ++ gs)) = true) /\
    db' = mkTables (users db) (genres db ++ gs) (videos db ++ [video])
            (video_genre db ++ links) (comments db) (video_likes db) (subscriptions db).
Proof.
  intros Hu H. unfold run, get_db in H.
  destruct (upload_video _ _ _ _ _ _ _ _) as [s [out|e]] eqn:E; injection H as _ <-.
  - right. apply upload_video_effect in E. exact E.
  - left. apply upload_video_steps in E as [(e' & _ & H)|(o & row & owner & [=] & _)];
      [|exact Hu].
    simpl in *. exact H.
Qed.

(** The effect of a request, in full: it leaves the database alone, or
    appends a validated user, or appends a video of the caller with new
    genres and links, or appends a validated comment of the caller on an
    existing video, or appends or removes one like of the caller for an
    existing video, or appends or removes one subscription of the caller
    to another existing user. *)
Lemma serve_effect get_password_hash verify_password create_access_token decode_token
    env req db :
  let db' := store (fst (serve get_password_hash verify_password create_access_token
                           decode_token env req db)) in
  db' = db \/
  (exists u, username_ok u = true /\ username_taken db (User.username u) = false /\
             User.id u = next_id (map User.id (users db)) /\
             db' = set_users db (users db ++ [u])) \/
  (exists video gs links,
     Video.id video = next_id (map Video.id (videos db)) /\
     user_exists db (Video.owner_id video) = true /\
     (genres_unique db = true ->
      genres_unique (set_genres db (genres db ++ gs)) = true) /\
     db' = mkTables (users db) (genres db ++ gs) (videos db ++ [video])
             (video_genre db ++ links) (comments db) (video_likes db)
             (subscriptions db)) \/
  (exists c, content_ok c = true /\ user_exists db (Comment.author_id c) = true /\
             video_exists db (Comment.video_id c) = true /\
             db' = set_comments db (comments db ++ [c])) \/
  (exists l, user_exists db (VideoLike.user_id l) = true /\
             video_exists db (VideoLike.video_id l) = true /\
             db' = set_video_likes db (video_likes db ++ [l])) \/
  (exists l, db' = set_video_likes db (without VideoLike.id l (video_likes db))) \/
  (exists x, Subscription.subscriber_id x <> Subscription.channel_id x /\
             user_exists db (Subscription.subscriber_id x) = true /\
             user_exists db (Subscription.channel_id x) = true /\
             db' = set_subscriptions db (subscriptions db ++ [x])) \/
  (exists x, db' = set_subscriptions db (without Subscription.id x (subscriptions db))).
Proof.
  intros db'. subst db'.
  pose proof (answer_run get_password_hash verify_password create_access_token
                decode_token env req db) as H.
  unfold answer in H.
  destruct (serve _ _ _ _ _ _ _) as [s r]. simpl. symmetry in H.
  destruct req; unfold handle in H.
  - destruct (UserCreate.valid user_in) eqn:Hval; [|left; now injection H as _ <-].
    rewrite run_bind_ret in H.
    destruct (username_taken db (UserCreate.username user_in)) eqn:E.
    + rewrite (register_taken get_password_hash db user_in (now env) E) in H.
      left. now injection H as _ <-.
    + rewrite (register_first get_password_hash db user_in (now env) E) in H.
      right. left. injection H as _ <-.
      exists (User.mk (next_id (map User.id (users db))) (UserCreate.username user_in)
                (get_password_hash (UserCreate.password user_in)) (now env)).
      split; [|split; [exact E|split; reflexivity]].
      unfold UserCreate.valid in Hval.
      apply andb_true_iff in Hval as [Hval _]. exact Hval.
  - left. served H; rewrite run_reads_all in E by (intros; apply login_reads);
      now injection E as _ <-.
  - left. rewrite run_authenticated in H.
    destruct (authenticate decode_token authorization db); now injection H as _ <-.
  - rewrite run_authenticated in H.
    destruct (authenticate decode_token authorization db) as [u|] eqn:Ha;
      [|left; now injection H as _ <-].
    pose proof (In_user_exists db u (authenticate_user _ _ _ _ Ha)) as Hu.
    rewrite run_bind_ret in H.
    destruct (run (upload_video _ _ _ _ _ _ _) db) as [r0 db0] eqn:E.
    assert (s.(store) = db0) as -> by (destruct r0; now injection H as _ <-).
    apply run_upload_video_effect in E as [->|(v & gs & links & H1 & H2 & H3 & ->)];
      [now left | | exact Hu].
    right. right. left. exists v, gs, links. rewrite H2. auto.
  - left. served H; rewrite run_reads_all in E by (intros; apply list_videos_reads);
      now injection E as _ <-.
  - left. served H; rewrite run_reads_all in E by (intros; apply get_video_reads);
      now injection E as _ <-.
  - rewrite run_authenticated in H.
    destruct (authenticate decode_token authorization db) as [u|] eqn:Ha;
      [|left; now injection H as _ <-].
    pose proof (In_user_exists db u (authenticate_user _ _ _ _ Ha)) as Hu.
    destruct (CommentCreate.valid comment_in) eqn:Hval; [|left; now injection H as _ <-].
    rewrite run_bind_ret in H.
    destruct (video_exists db video_id) eqn:Hv.
    + destruct (add_comment_adds db video_id comment_in (now env) u Hu Hv)
        as (author & _ & _ & E).
      rewrite E in H. injection H as _ <-. right. right. right. left.
      exists (Comment.mk (next_id (map Comment.id (comments db)))
                (CommentCreate.content comment_in) (now env) (User.id u) video_id).
      split; [exact Hval|split; [exact Hu|split; [exact Hv|reflexivity]]].
    + rewrite (add_comment_not_found db video_id comment_in (now env) u Hv) in H.
      left. now injection H as _ <-.
  - rewrite run_authenticated in H.
    destruct (authenticate decode_token authorization db) as [u|] eqn:Ha;
      [|left; now injection H as _ <-].
    pose proof (In_user_exists db u (authenticate_user _ _ _ _ Ha)) as Hu.
    rewrite run_bind_ret in H.
    destruct (video_exists db video_id) eqn:Hv.
    + destruct (liked db (User.id u) video_id) eqn:Hl.
      * destruct (like_video_removes db video_id (now env) u Hv Hl) as [l [_ [_ E]]].
        rewrite E in H. injection H as _ <-. do 5 right. left. eauto.
      * rewrite (like_video_adds db video_id (now env) u Hv Hl) in H.
        injection H as _ <-. do 4 right. left.
        exists (VideoLike.mk (next_id (map VideoLike.id (video_likes db))) (User.id u)
                  video_id (now env)).
        split; [exact Hu|split; [exact Hv|reflexivity]].
    + rewrite (like_video_not_found db video_id (now env) u Hv) in H.
      left. now injection H as _ <-.
  - rewrite run_authenticated in H.
    destruct (authenticate decode_token authorization db) as [u|] eqn:Ha;
      [|left; now injection H as _ <-].
    pose proof (In_user_exists db u (authenticate_user _ _ _ _ Ha)) as Hu.
    rewrite run_bind_ret in H.
    destruct (Z.eq_dec (User.id u) user_id) as [Hs|Hne].
    { rewrite (subscribe_user_self db user_id (now env) u Hs) in H.
      left. now injection H as _ <-. }
    destruct (user_exists db user_id) eqn:Hc.
    + destruct (subscribed db (User.id u) user_id) eqn:Hl.
      * destruct (subscribe_user_removes db user_id (now env) u Hne Hc Hl)
          as [x [_ [_ E]]].
        rewrite E in H. injection H as _ <-. do 7 right. eauto.
      * rewrite (subscribe_user_adds db user_id (now env) u Hne Hc Hl) in H.
        injection H as _ <-. do 6 right. left.
        exists (Subscription.mk (next_id (map Subscription.id (subscriptions db)))
                  (User.id u) user_id (now env)).
        split; [exact Hne|split; [exact Hu|split; [exact Hc|reflexivity]]].
    + rewrite (subscribe_user_not_found db user_id (now env) u Hne Hc) in H.
      left. now injection H as _ <-.
  - left. rewrite run_authenticated in H.
    destruct (authenticate decode_token authorization db); [|now injection H as _ <-].
    served H;
      rewrite run_reads_all in E by (intros; apply get_recommendations_reads);
      now injection E as _ <-.
Qed.

(* ===================================================================== *)
(** * What holds of the rows of every database the requests build *)
(* ===================================================================== *)

Lemma users_ok_appended (db : Tables) (u : User.t) :
  users_ok db = true ->
  username_ok u = true ->
  username_taken db (User.username u) = false ->
  User.id u = next_id (map User.id (users db)) ->
  users_ok (set_users db (users db ++ [u])) = true.
Proof.
  unfold users_ok. intros H Hok Hfree Hid.
  apply andb_true_iff in H as [H H3]. apply andb_true_iff in H as [H1 H2].
  change (users (set_users db (users db ++ [u]))) with (users db ++ [u])%list.
  rewrite !map_app, forallb_app. cbn [map forallb]. rewrite H3, Hok.
  rewrite (uniqueb_snoc String.eqb); [rewrite (uniqueb_snoc Z.eqb); [reflexivity| | |]| | |].
  - apply Z.eqb_eq.
  - exact H2.
  - rewrite Hid. intros Hin. apply next_id_above in Hin. lia.
  - apply String.eqb_eq.
  - exact H1.
  - intros Hin. apply in_map_iff in Hin as [x [Hx Hin]].
    unfold username_taken in Hfree.
    assert (existsb (fun u0 => String.eqb (User.username u0) (User.username u)) (users db)
            = true) as F
      by (apply existsb_exists; exists x; split; [exact Hin | now apply String.eqb_eq]).
    congruence.
Qed.

(** The invariant goes from [db] to [db'] when the user rows are still
    good, no user or video row is lost and every row of the three other
    tables is an old one or is good in [db]. *)
Lemma references_step (db db' : Tables) :
  references db = true ->
  users_ok db' = true ->
  (forall i, user_exists db i = true -> user_exists db' i = true) ->
  (forall i, video_exists db i = true -> video_exists db' i = true) ->
  (forall x, In x (subscriptions db') ->
             In x (subscriptions db) \/ subscription_ok db x = true) ->
  (forall l, In l (video_likes db') -> In l (video_likes db) \/ like_ok db l = true) ->
  (forall c, In c (comments db') -> In c (comments db) \/ comment_ok db c = true) ->
  references db' = true.
Proof.
  unfold references. intros H Hu Hus Hvs Hs Hl Hc.
  apply andb_true_iff in H as [H H4]. apply andb_true_iff in H as [H H3].
  apply andb_true_iff in H as [_ H2].
  rewrite Hu. rewrite forallb_forall in H2, H3, H4.
  repeat (apply andb_true_iff; split); try reflexivity; apply forallb_forall.
  - intros x Hx.
    assert (subscription_ok db x = true) as Hok
      by (destruct (Hs x Hx) as [Hin|Hok]; [now apply H2 | exact Hok]).
    unfold subscription_ok in *.
    apply andb_true_iff in Hok as [Hok Hb]. apply andb_true_iff in Hok as [Hne Ha].
    rewrite Hne, (Hus _ Ha), (Hus _ Hb). reflexivity.
  - intros x Hx.
    assert (like_ok db x = true) as Hok
      by (destruct (Hl x Hx) as [Hin|Hok]; [now apply H3 | exact Hok]).
    unfold like_ok in *. apply andb_true_iff in Hok as [Ha Hb].
    rewrite (Hus _ Ha), (Hvs _ Hb). reflexivity.
  - intros x Hx.
    assert (comment_ok db x = true) as Hok
      by (destruct (Hc x Hx) as [Hin|Hok]; [now apply H4 | exact Hok]).
    unfold comment_ok in *.
    apply andb_true_iff in Hok as [Hok Hlen]. apply andb_true_iff in Hok as [Ha Hb].
    rewrite (Hus _ Ha), (Hvs _ Hb), Hlen. reflexivity.
Qed.

Lemma In_without {A} (id : A -> Z) (x y : A) (rows : list A) :
  In y (without id x rows) -> In y rows.
Proof. unfold without. intros H. now apply filter_In in H. Qed.

Lemma references_users_ok (db : Tables) : references db = true -> users_ok db = true.
Proof.
  unfold references. intros H.
  apply andb_true_iff in H as [H _]. apply andb_true_iff in H as [H _].
  now apply andb_true_iff in H as [H _].
Qed.

(** Every request keeps the invariant. *)
Lemma serve_references get_password_hash verify_password create_access_token
    decode_token env req db :
  references db = true ->
  references (store (fst (serve get_password_hash verify_password create_access_token
                            decode_token env req db))) = true.
Proof.
  intros Hr. pose proof (references_users_ok db Hr) as Hu.
  destruct (serve_effect get_password_hash verify_password create_access_token
              decode_token env req db)
    as [->|[(u & H1 & H2 & H3 & ->)|[(v & gs & links & H1 & H2 & _ & ->)|
        [(c & H1 & H2 & H3 & ->)|[(l & H1 & H2 & ->)|[(l & ->)|
        [(x & H1 & H2 & H3 & ->)|(x & ->)]]]]]]];
    [exact Hr|apply (references_step db); try exact Hr; auto ..].
  - now apply users_ok_appended.
  - intros i Hi. unfold user_exists in *. cbn [users set_users].
    rewrite existsb_app, Hi. reflexivity.
  - intros i Hi. unfold video_exists in *. cbn [videos].
    rewrite existsb_app, Hi. reflexivity.
  - cbn [comments set_comments]. intros c' Hc. apply in_app_or in Hc as [Hc|[<-|[]]];
      [now left|right]. unfold comment_ok. rewrite H1, H2, H3. reflexivity.
  - cbn [video_likes set_video_likes]. intros l' Hl.
    apply in_app_or in Hl as [Hl|[<-|[]]]; [now left|right].
    unfold like_ok. rewrite H1, H2. reflexivity.
  - cbn [video_likes set_video_likes]. intros l' Hl. left.
    now apply In_without in Hl.
  - cbn [subscriptions set_subscriptions]. intros x' Hx.
    apply in_app_or in Hx as [Hx|[<-|[]]]; [now left|right].
    unfold subscription_ok. rewrite H2, H3.
    apply Z.eqb_neq in H1. rewrite H1. reflexivity.
  - cbn [subscriptions set_subscriptions]. intros x' Hx. left.
    now apply In_without in Hx.
Qed.

Lemma reachable_references get_password_hash verify_password create_access_token
    decode_token (reqs : list (Env * Request)) (db : Tables) :
  references db = true ->
  references (serve_all get_password_hash verify_password create_access_token
                decode_token reqs db) = true.
Proof.
  revert db. induction reqs as [|[env req] reqs IH]; intros db Hc; simpl; [exact Hc|].
  apply IH. apply serve_references. exact Hc.
Qed.

Lemma serve_extends get_password_hash verify_password create_access_token decode_token
    env req db :
  let db' := store (fst (serve get_password_hash verify_password create_access_token
                           decode_token env req db)) in
  extends (users db) (users db') /\ extends (genres db) (genres db') /\
  extends (videos db) (videos db') /\ extends (video_genre db) (video_genre db') /\
  extends (comments db) (comments db').
Proof.
  assert (forall A (l : list A), extends l l) as Hrefl
    by (intros A l; exists []; now rewrite app_nil_r).
  cbv zeta.
  destruct (serve_effect get_password_hash verify_password create_access_token
              decode_token env req db)
    as [->|[(u & _ & _ & _ & ->)|[(v & gs & links & _ & _ & _ & ->)|
        [(c & _ & _ & _ & ->)|[(l & _ & _ & ->)|[(l & ->)|
        [(x & _ & _ & _ & ->)|(x & ->)]]]]]]];
    cbn [users genres videos video_genre comments set_users set_comments
         set_video_likes set_subscriptions];
    repeat split; try apply Hrefl; eexists; reflexivity.
Qed.

Lemma serve_genres_unique get_password_hash verify_password create_access_token
    decode_token env req db :
  genres_unique db = true ->
  genres_unique (store (fst (serve get_password_hash verify_password create_access_token
                               decode_token env req db))) = true.
Proof.
  intros Hgu.
  destruct (serve_effect get_password_hash verify_password create_access_token
              decode_token env req db)
    as [->|[(u & _ & _ & _ & ->)|[(v & gs & links & _ & _ & H & ->)|
        [(c & _ & _ & _ & ->)|[(l & _ & _ & ->)|[(l & ->)|
        [(x & _ & _ & _ & ->)|(x & ->)]]]]]]]; try exact Hgu.
  exact (H Hgu).
Qed.

Lemma reachable_genres_unique get_password_hash verify_password create_access_token
    decode_token (reqs : list (Env * Request)) (db : Tables) :
  genres_unique db = true ->
  genres_unique (serve_all get_password_hash verify_password create_access_token
                   decode_token reqs db) = true.
Proof.
  revert db. induction reqs as [|[env req] reqs IH]; intros db Hc; simpl; [exact Hc|].
  apply IH. apply serve_genres_unique. exact Hc.
Qed.

Lemma extends_trans {A} (a b c : list A) : extends a b -> extends b c -> extends a c.
Proof. intros [x ->] [y ->]. exists (x ++ y)%list. now rewrite app_assoc. Qed.

(** X15.  However the requests go, no subscription row is of a user to
    themselves, and both its ends are rows of [users]: [subscribe_user]
    refuses the caller's own id and a missing target before it writes,
    and no request removes a user. *)
Theorem no_subscription_to_oneself
    (get_password_hash : string -> string) (verify_password : string -> string -> bool)
    (create_access_token : list (string * string) -> string)
    (decode_token : string -> Result (list (string * string)))
    (reqs : list (Env * Request)) (x : Subscription.t) :
  let db := serve_all get_password_hash verify_password create_access_token decode_token
              reqs empty_db in
  In x (subscriptions db) ->
  Subscription.subscriber_id x <> Subscription.channel_id x /\
  user_exists db (Subscription.subscriber_id x) = true /\
  user_exists db (Subscription.channel_id x) = true.
Proof.
  intros db Hx.
  pose proof (reachable_references get_password_hash verify_password create_access_token
                decode_token reqs empty_db eq_refl) as H.
  fold db in H. unfold references in H.
  apply andb_true_iff in H as [H _]. apply andb_true_iff in H as [H _].
  apply andb_true_iff in H as [_ H]. rewrite forallb_forall in H.
  specialize (H x Hx). unfold subscription_ok in H.
  apply andb_true_iff in H as [H Hb]. apply andb_true_iff in H as [Hne Ha].
  apply negb_true_iff, Z.eqb_neq in Hne. auto.
Qed.

(** X16.  However the requests go, every like row is of a user that has
    a row for a video that has a row: [like_video] looks the video up
    before it writes, the caller was authenticated against [users], and
    no request removes a user or a video. *)
Theorem likes_reference_rows
    (get_password_hash : string -> string) (verify_password : string -> string -> bool)
    (create_access_token : list (string * string) -> string)
    (decode_token : string -> Result (list (string * string)))
    (reqs : list (Env * Request)) (l : VideoLike.t) :
  let db := serve_all get_password_hash verify_password create_access_token decode_token
              reqs empty_db in
  In l (video_likes db) ->
  user_exists db (VideoLike.user_id l) = true /\
  video_exists db (VideoLike.video_id l) = true.
Proof.
  intros db Hl.
  pose proof (reachable_references get_password_hash verify_password create_access_token
                decode_token reqs empty_db eq_refl) as H.
  fold db in H. unfold references in H.
  apply andb_true_iff in H as [H _]. apply andb_true_iff in H as [_ H].
  rewrite forallb_forall in H. specialize (H l Hl). unfold like_ok in H.
  now apply andb_true_iff in H.
Qed.

(** X17.  However the requests go, every comment row is by a user that
    has a row, on a video that has a row, and its content has between 1
    and 500 characters, the bounds of [CommentCreate]. *)
Theorem comments_reference_rows
    (get_password_hash : string -> string) (verify_password : string -> string -> bool)
    (create_access_token : list (string * string) -> string)
    (decode_token : string -> Result (list (string * string)))
    (reqs : list (Env * Request)) (c : Comment.t) :
  let db := serve_all get_password_hash verify_password create_access_token decode_token
              reqs empty_db in
  In c (comments db) ->
  user_exists db (Comment.author_id c) = true /\
  video_exists db (Comment.video_id c) = true /\
  (1 <= String.length (Comment.content c) <= 500)%nat.
Proof.
  intros db Hc.
  pose proof (reachable_references get_password_hash verify_password create_access_token
                decode_token reqs empty_db eq_refl) as H.
  fold db in H. unfold references in H.
  apply andb_true_iff in H as [_ H].
  rewrite forallb_forall in H. specialize (H c Hc). unfold comment_ok, content_ok in H.
  apply andb_true_iff in H as [H Hlen]. apply andb_true_iff in H as [Ha Hb].
  apply andb_true_iff in Hlen as [H1 H2].
  apply Nat.leb_le in H1, H2. auto.
Qed.

(** X18.  However the requests go, no two user rows share a name or an
    id, and every name has between 3 and 50 characters, the bounds of
    [UserCreate]: [register] is the only writer of [users] and checks the
    name before it inserts. *)
Theorem users_stay_distinct
    (get_password_hash : string -> string) (verify_password : string -> string -> bool)
    (create_access_token : list (string * string) -> string)
    (decode_token : string -> Result (list (string * string)))
    (reqs : list (Env * Request)) :
  let db := serve_all get_password_hash verify_password create_access_token decode_token
              reqs empty_db in
  NoDup (map User.username (users db)) /\
  NoDup (map User.id (users db)) /\
  Forall (fun u => (3 <= String.length (User.username u) <= 50)%nat) (users db).
Proof.
  intros db.
  pose proof (reachable_references get_password_hash verify_password create_access_token
                decode_token reqs empty_db eq_refl) as H.
  fold db in H. apply references_users_ok in H. unfold users_ok in H.
  apply andb_true_iff in H as [H H3]. apply andb_true_iff in H as [H1 H2].
  split; [|split].
  - apply (uniqueb_NoDup String.eqb); [apply String.eqb_eq | exact H1].
  - apply (uniqueb_NoDup Z.eqb); [apply Z.eqb_eq | exact H2].
  - apply Forall_forall. intros u Hu. rewrite forallb_forall in H3.
    specialize (H3 u Hu). unfold username_ok in H3.
    apply andb_true_iff in H3 as [Ha Hb]. apply Nat.leb_le in Ha, Hb. auto.
Qed.

(** X19.  No request removes or rewrites a row of [users], [genres],
    [videos], [video_genre] or [comments]: from any database, after any
    requests, each of these tables is the old one with rows added at the
    end.  (Only [video_likes] and [subscriptions] lose rows.) *)
Theorem tables_only_grow
    (get_password_hash : string -> string) (verify_password : string -> string -> bool)
    (create_access_token : list (string * string) -> string)
    (decode_token : string -> Result (list (string * string)))
    (reqs : list (Env * Request)) (db : Tables) :
  let db' := serve_all get_password_hash verify_password create_access_token decode_token
               reqs db in
  extends (users db) (users db') /\ extends (genres db) (genres db') /\
  extends (videos db) (videos db') /\ extends (video_genre db) (video_genre db') /\
  extends (comments db) (comments db').
Proof.
  cbv zeta. revert db. induction reqs as [|[env req] reqs IH]; intros db; simpl.
  - repeat split; exists []; now rewrite app_nil_r.
  - destruct (serve_extends get_password_hash verify_password create_access_token
                decode_token env req db) as (A1 & A2 & A3 & A4 & A5).
    cbv zeta in A1, A2, A3, A4, A5.
    destruct (IH (store (fst (serve get_password_hash verify_password
                                create_access_token decode_token env req db))))
      as (B1 & B2 & B3 & B4 & B5).
    repeat split; eapply extends_trans; eassumption.
Qed.

(** X20.  However the requests go, the keys the handlers read rows back
    by stay keys: video ids, genre ids and genre names are distinct,
    there is at most one like row per (user, video) and one subscription
    row per (subscriber, channel), every video's owner has a row and
    every association row is of a video that has a row. *)
Theorem keys_stay_keys
    (get_password_hash : string -> string) (verify_password : string -> string -> bool)
    (create_access_token : list (string * string) -> string)
    (decode_token : string -> Result (list (string * string)))
    (reqs : list (Env * Request)) :
  let db := serve_all get_password_hash verify_password create_access_token decode_token
              reqs empty_db in
  NoDup (map Video.id (videos db)) /\
  NoDup (map Genre.id (genres db)) /\
  NoDup (map Genre.name (genres db)) /\
  NoDup (map like_key (video_likes db)) /\
  NoDup (map subscription_key (subscriptions db)) /\
  Forall (fun v => user_exists db (Video.owner_id v) = true) (videos db) /\
  Forall (fun vg => video_exists db (fst vg) = true) (video_genre db).
Proof.
  intros db.
  pose proof (reachable_constraints get_password_hash verify_password create_access_token
                decode_token reqs empty_db eq_refl) as H.
  fold db in H. unfold constraints in H.
  apply andb_true_iff in H as [H H5]. apply andb_true_iff in H as [H H4].
  apply andb_true_iff in H as [H H3]. apply andb_true_iff in H as [H1 H2].
  unfold video_likes_unique in H3. apply andb_true_iff in H3 as [_ H3].
  unfold subscriptions_unique in H4. apply andb_true_iff in H4 as [_ H4].
  pose proof (reachable_genres_unique get_password_hash verify_password
                create_access_token decode_token reqs empty_db eq_refl) as H6.
  fold db in H6. unfold genres_unique, genre_ids_unique in H6.
  apply andb_true_iff in H6 as [H6 H7].
  repeat split.
  - apply (uniqueb_NoDup Z.eqb); [apply Z.eqb_eq | exact H1].
  - apply (uniqueb_NoDup Z.eqb); [apply Z.eqb_eq | exact H6].
  - apply (uniqueb_NoDup String.eqb); [apply String.eqb_eq | exact H7].
  - apply (uniqueb_NoDup pair_eqb); [apply pair_eqb_eq | exact H3].
  - apply (uniqueb_NoDup pair_eqb); [apply pair_eqb_eq | exact H4].
  - apply Forall_forall. unfold owners_exist in H2. rewrite forallb_forall in H2.
    exact H2.
  - apply Forall_forall. unfold links_reference_videos in H5.
    rewrite forallb_forall in H5. exact H5.
Qed.

(* ===================================================================== *)
(** * The genres of an upload *)
(* ===================================================================== *)



Lemma set_genres_set_genres (t : Tables) (x y : list Genre.t) :
  set_genres (set_genres t x) y = set_genres t y.
Proof. reflexivity. Qed.








(** X22.  Every endpoint that depends on [get_current_user] resolves
    the caller first: when the credentials are refused, the request is
    answered with that refusal, whatever its body, and nothing is
    written.  The refusal is a 401 ("Not authenticated" without a
    credential, "Invalid token" without a subject, "User not found" when
    the subject has no row) or the exception [decode_token] raised. *)
Theorem refused_credentials_stop_the_request
    (get_password_hash : string -> string) (verify_password : string -> string -> bool)
    (create_access_token : list (string * string) -> string)
    (decode_token : string -> Result (list (string * string)))
    (env : Env) (req : Request) (authorization : option string) (db : Tables)
    (e : Exception) :
  credentials req = Some authorization ->
  authenticate decode_token authorization db = Raise e ->
  answer get_password_hash verify_password create_access_token decode_token env req db
    = (Raise e, db) /\
  (e = HTTPException status.HTTP_401_UNAUTHORIZED "Not authenticated" /\
     authorization = None \/
   e = HTTPException status.HTTP_401_UNAUTHORIZED "Invalid token" \/
   e = HTTPException status.HTTP_401_UNAUTHORIZED "User not found" \/
   exists token, authorization = Some token /\ decode_token token = Raise e).
Proof.
  intros Hc Ha. split.
  - rewrite answer_run.
    destruct req; try discriminate; injection Hc as ->; unfold handle;
      rewrite run_authenticated, Ha; reflexivity.
  - clear Hc. unfold authenticate, get_current_user, oauth2_scheme in Ha.
    destruct authorization as [token|].
    + unfold bind at 1, ret at 1 in Ha. unfold bind at 1 in Ha.
      destruct (decode_token token) as [payload|e'] eqn:E.
      * destruct (payload_get "sub" payload) as [username|].
        -- unfold bind, query in Ha. cbv beta iota in Ha.
           destruct (first _); simpl in Ha; [discriminate|].
           injection Ha as <-. auto.
        -- simpl in Ha. injection Ha as <-. auto.
      * simpl in Ha. injection Ha as ->. right. right. right. eauto.
    + simpl in Ha. injection Ha as <-. auto.
Qed.

Lemma for_each_agree {A B} (f : A -> M B) (xs : list A) (s s' : Session) :
  (forall x s0, fst (f x s0) = s0) ->
  (forall x, snd (f x s) = snd (f x s')) ->
  snd (for_each f xs s) = snd (for_each f xs s').
Proof.
  intros Hreads Hsame. induction xs as [|x xs IH]; [reflexivity|].
  cbn [for_each]. unfold bind at 1 3.
  pose proof (Hreads x s) as R1. pose proof (Hreads x s') as R2.
  specialize (Hsame x).
  destruct (f x s) as [s1 r1], (f x s') as [s2 r2]. simpl in *. subst.
  destruct r2 as [y|e]; [|reflexivity].
  unfold bind. pose proof (for_each_reads f xs s (fun x => Hreads x s)) as R1.
  pose proof (for_each_reads f xs s' (fun x => Hreads x s')) as R2.
  destruct (for_each f xs s) as [s1 r1], (for_each f xs s') as [s2 r2].
  simpl in *. subst. destruct r2; reflexivity.
Qed.

(** X23.  The tables [comments] and [subscriptions] are written and
    never read back: the response of the login and of every [GET] route,
    whether a body or an exception, is the same whatever rows the two
    tables hold. *)
Theorem comments_and_subscriptions_are_write_only
    (get_password_hash : string -> string) (verify_password : string -> string -> bool)
    (create_access_token : list (string * string) -> string)
    (decode_token : string -> Result (list (string * string)))
    (env : Env) (req : Request) (db : Tables)
    (comment_rows : list Comment.t) (subscription_rows : list Subscription.t) :
  read_only req = true ->
  fst (answer get_password_hash verify_password create_access_token decode_token env req
         (set_comments (set_subscriptions db subscription_rows) comment_rows)) =
  fst (answer get_password_hash verify_password create_access_token decode_token env req
         db).
Proof.
  intros Hr. rewrite !answer_run.
  set (db' := set_comments (set_subscriptions db subscription_rows) comment_rows).
  assert (forall A (h : M A) t, fst (run h t) = snd (h (SessionLocal t))) as Hrun.
  { intros A h t. unfold run, get_db. destruct (h (SessionLocal t)); reflexivity. }
  rewrite !Hrun.
  assert (forall v, snd (serialize_video v (SessionLocal db')) =
                    snd (serialize_video v (SessionLocal db))) as Hser.
  { intros v. unfold serialize_video, refresh, bind, query, ret, raise. simpl.
    destruct (first _) as [row|]; simpl; [|reflexivity].
    change (Video_owner db' row) with (Video_owner db row).
    destruct (Video_owner db row); reflexivity. }
  assert (forall A B (h : M A) (wrap : A -> B) s s',
            snd (h s) = snd (h s') ->
            snd ((x <- h ;; ret (wrap x)) s) = snd ((x <- h ;; ret (wrap x)) s')) as Hwrap.
  { intros A B h wrap s s' H. unfold bind, ret.
    destruct (h s) as [s1 r1], (h s') as [s2 r2]. simpl in H. subst.
    destruct r2; reflexivity. }
  assert (forall authorization, authenticate decode_token authorization db' =
                                authenticate decode_token authorization db) as Hsame.
  { intros [token|]; [|reflexivity].
    unfold authenticate, get_current_user, oauth2_scheme, bind, ret, query, raise.
    destruct (decode_token token) as [payload|e]; [|reflexivity].
    destruct (payload_get "sub" payload) as [username|]; [|reflexivity].
    simpl. destruct (first _); reflexivity. }
  assert (forall A authorization (k : User.t -> M A),
            (forall u, snd (k u (SessionLocal db')) = snd (k u (SessionLocal db))) ->
            snd ((u <- get_current_user decode_token authorization ;; k u)
                   (SessionLocal db')) =
            snd ((u <- get_current_user decode_token authorization ;; k u)
                   (SessionLocal db))) as Hauth.
  { intros A authorization k H. unfold bind.
    rewrite !get_current_user_run, Hsame.
    destruct (authenticate decode_token authorization db); [apply H | reflexivity]. }
  destruct req; try discriminate; unfold handle.
  - apply Hwrap. unfold login, bind, query, ret, raise. simpl.
    destruct (first _) as [user|]; [|reflexivity].
    destruct (verify_password _ _); reflexivity.
  - apply Hauth. intros u. reflexivity.
  - apply Hwrap. unfold list_videos, bind, query. cbv beta iota.
    apply for_each_agree; [intros; apply serialize_video_reads | exact Hser].
  - apply Hwrap. unfold get_video, bind, query. cbv beta iota.
    change (videos (txn (SessionLocal db'))) with (videos (txn (SessionLocal db))).
    destruct (first _) as [video|]; [apply Hser | reflexivity].
  - apply Hauth. intros u. apply Hwrap.
    unfold get_recommendations, bind, query. cbv beta iota.
    change (liked_genre_ids (txn (SessionLocal db')) (User.id u))
      with (liked_genre_ids (txn (SessionLocal db)) (User.id u)).
    destruct (liked_genre_ids _ _) as [|g liked]; [reflexivity|].
    apply for_each_agree.
    + intros x s0. apply serialize_recommendation_reads.
    + intros x. unfold serialize_recommendation. apply Hwrap, Hser.
Qed.

(* ===================================================================== *)
(** * Runs of the further properties *)
(* ===================================================================== *)

(** [like_video_moves_count]: bob takes back his like of video 1. *)
Lemma like_video_moves_count_witness :
  video_likes_unique horror_db = true /\ video_exists horror_db 1 = true /\
  like_count horror_db 1 = 1 /\
  like_count (snd (run (like_video 1 9 bob) horror_db)) 1 = 0.
Proof.
  split; [reflexivity|]. split; [reflexivity|]. split; [reflexivity|].
  destruct (like_video_moves_count horror_db 1 9 bob eq_refl eq_refl) as [H _].
  exact H.
Defined.

(** [subscribe_user_twice]: bob subscribes to alice and back. *)
Lemma subscribe_user_twice_witness :
  subscriptions_unique horror_db = true /\ User.id bob <> 1 /\
  user_exists horror_db 1 = true /\
  snd (run (subscribe_user 1 9 bob) (snd (run (subscribe_user 1 8 bob) horror_db)))
  = horror_db.
Proof.
  assert (User.id bob <> 1) as Hne by discriminate.
  split; [reflexivity|]. split; [exact Hne|]. split; [reflexivity|].
  destruct (subscribe_user_twice horror_db 1 8 9 bob eq_refl Hne eq_refl)
    as (_ & _ & _ & H).
  exact (H eq_refl).
Defined.

(** [read_only_requests_change_nothing]: a listing. *)
Lemma read_only_requests_change_nothing_witness :
  read_only (GET_videos 0 20) = true /\
  snd (answer sample_get_password_hash sample_verify_password sample_create_access_token
         sample_decode_token (mkEnv 9 "") (GET_videos 0 20) horror_db) = horror_db.
Proof.
  split; [reflexivity|].
  exact (read_only_requests_change_nothing sample_get_password_hash
           sample_verify_password sample_create_access_token sample_decode_token
           (mkEnv 9 "") (GET_videos 0 20) horror_db eq_refl).
Defined.

(** [login_failures_are_alike]: a wrong password and an unknown name. *)
Lemma login_failures_are_alike_witness :
  let e := HTTPException status.HTTP_401_UNAUTHORIZED "Incorrect username or password" in
  fst (run (login sample_verify_password sample_create_access_token "alice" "wrong")
         db_alice) = Raise e /\
  fst (run (login sample_verify_password sample_create_access_token "mallory" "secret1")
         horror_db) = Raise e /\
  e = e.
Proof.
  intros e. split; [reflexivity|]. split; [reflexivity|].
  exact (proj1 (login_failures_are_alike sample_verify_password
                  sample_create_access_token "alice" "wrong" "mallory" "secret1"
                  db_alice horror_db e e eq_refl eq_refl)).
Defined.

(** [register_login_me]: alice, on the empty database. *)
Lemma register_login_me_witness :
  UserCreate.valid (UserCreate.mk "alice" "secret1") = true /\
  username_taken empty_db "alice" = false /\
  sample_verify_password "secret1" (sample_get_password_hash "secret1") = true /\
  sample_decode_token (sample_create_access_token [("sub", "alice")])
    = Ok [("sub", "alice")] /\
  exists (out : UserOut.t) (db1 : Tables),
    UserOut.username out = "alice" /\
    answer sample_get_password_hash sample_verify_password sample_create_access_token
      sample_decode_token (mkEnv 0 "") (POST_auth_register (UserCreate.mk "alice" "secret1"))
      empty_db = (Ok (UserBody out), db1) /\
    answer sample_get_password_hash sample_verify_password sample_create_access_token
      sample_decode_token (mkEnv 1 "") (POST_auth_login "alice" "secret1") db1 =
      (Ok (TokenBody (Token.mk (sample_create_access_token [("sub", "alice")]) "bearer")),
       db1) /\
    answer sample_get_password_hash sample_verify_password sample_create_access_token
      sample_decode_token (mkEnv 2 "")
      (GET_users_me (Some (sample_create_access_token [("sub", "alice")]))) db1 =
      (Ok (UserBody out), db1).
Proof.
  split; [reflexivity|]. split; [reflexivity|]. split; [reflexivity|].
  split; [reflexivity|].
  exact (register_login_me sample_get_password_hash sample_verify_password
           sample_create_access_token sample_decode_token (mkEnv 0 "") (mkEnv 1 "")
           (mkEnv 2 "") empty_db (UserCreate.mk "alice" "secret1")
           eq_refl eq_refl eq_refl eq_refl).
Defined.

(** [get_video_finds_by_id]: video 1 is there, video 5 is not. *)
Lemma get_video_finds_by_id_witness :
  owners_exist horror_db = true /\ video_exists horror_db 5 = false /\
  run (get_video 5) horror_db =
    (Raise (HTTPException status.HTTP_404_NOT_FOUND "Video not found"), horror_db).
Proof.
  split; [reflexivity|]. split; [reflexivity|].
  destruct (get_video_finds_by_id horror_db 5 eq_refl) as [[H _] _].
  exact (H eq_refl).
Defined.

(** [upload_then_get_video]: bob uploads, then fetches video 2. *)
Lemma upload_then_get_video_witness :
  let out := VideoOut.mk 2 "Dawn" None "77aa_dawn.mp4" 7 (UserOut.mk 2 "bob" 2)
               [GenreOut.mk 1 "Horror"] 0 in
  let db' := snd (answer sample_get_password_hash sample_verify_password
                    sample_create_access_token sample_decode_token (mkEnv 7 "77aa")
                    (POST_videos (Some "bob") "Dawn" None "horror" "dawn.mp4")
                    horror_db) in
  answer sample_get_password_hash sample_verify_password sample_create_access_token
    sample_decode_token (mkEnv 7 "77aa")
    (POST_videos (Some "bob") "Dawn" None "horror" "dawn.mp4") horror_db
    = (Ok (VideoBody out), db') /\
  answer sample_get_password_hash sample_verify_password sample_create_access_token
    sample_decode_token (mkEnv 8 "") (GET_videos_id 2) db' = (Ok (VideoBody out), db').
Proof.
  intros out db'. split; [reflexivity|].
  exact (upload_then_get_video sample_get_password_hash sample_verify_password
           sample_create_access_token sample_decode_token (mkEnv 7 "77aa") (mkEnv 8 "")
           (Some "bob") "Dawn" None "horror" "dawn.mp4" horror_db db' out eq_refl).
Defined.

(** [list_videos_page]: the first page of the two-video database. *)
Lemma list_videos_page_witness :
  video_ids_unique horror_db_2 = true /\ owners_exist horror_db_2 = true /\
  exists outs,
    run (list_videos 0 20) horror_db_2 = (Ok outs, horror_db_2) /\
    (List.length outs <= 20)%nat.
Proof.
  split; [reflexivity|]. split; [reflexivity|].
  assert (0 <= 20) as H20 by discriminate.
  destruct (list_videos_page horror_db_2 0 20 eq_refl eq_refl H20)
    as (outs & H1 & _ & H2 & _).
  exists outs. auto.
Defined.

(** [list_videos_pages_compose]: two pages of one video each. *)
Lemma list_videos_pages_compose_witness :
  exists first_page second_page,
    fst (run (list_videos 0 1) horror_db_2) = Ok first_page /\
    fst (run (list_videos (0 + 1) 1) horror_db_2) = Ok second_page /\
    run (list_videos 0 (1 + 1)) horror_db_2 =
      (Ok (first_page ++ second_page)%list, horror_db_2).
Proof.
  assert (0 <= 0) as H0 by discriminate. assert (0 <= 1) as H1 by discriminate.
  do 2 eexists. split; [vm_compute; reflexivity|]. split; [vm_compute; reflexivity|].
  apply (list_videos_pages_compose horror_db_2 0 1 1); try assumption;
    vm_compute; reflexivity.
Defined.

(** [add_comment_appends]: bob comments on video 1. *)
Lemma add_comment_appends_witness :
  user_exists horror_db (User.id bob) = true /\ video_exists horror_db 1 = true /\
  exists author,
    In author (users horror_db) /\ User.id author = User.id bob /\
    run (add_comment 1 (CommentCreate.mk "Scary") 9 bob) horror_db =
      (Ok (CommentOut.mk 1 "Scary" 9 (UserOut.from_orm author)),
       set_comments horror_db [Comment.mk 1 "Scary" 9 2 1]).
Proof.
  split; [reflexivity|]. split; [reflexivity|].
  destruct (add_comment_appends horror_db 1 (CommentCreate.mk "Scary") 9 bob eq_refl)
    as [_ H].
  exact (H eq_refl).
Defined.

(** [recommendations_are_distinct]: bob's two recommendations. *)
Lemma recommendations_are_distinct_witness :
  exists recs,
    run (get_recommendations bob) horror_db_2 = (Ok recs, horror_db_2) /\
    List.length recs = 2%nat /\
    NoDup (map (fun r => VideoOut.id (RecommendationOut.video r)) recs).
Proof.
  eexists. split; [vm_compute; reflexivity|]. split; [reflexivity|].
  apply (recommendations_are_distinct horror_db_2 horror_db_2 bob).
  vm_compute. reflexivity.
Defined.

(** [recommendations_are_the_top]: bob's recommendations. *)
Lemma recommendations_are_the_top_witness :
  video_ids_unique horror_db_2 = true /\ owners_exist horror_db_2 = true /\
  exists recs,
    run (get_recommendations bob) horror_db_2 = (Ok recs, horror_db_2) /\
    List.length recs =
      Nat.min 20 (List.length (ranked horror_db_2
                                 (liked_genre_ids horror_db_2 (User.id bob))
                                 (User.id bob))).
Proof.
  split; [reflexivity|]. split; [reflexivity|].
  destruct (recommendations_are_the_top horror_db_2 bob eq_refl eq_refl)
    as (recs & H1 & H2 & _).
  exists recs. auto.
Defined.

Lemma no_subscription_to_oneself_witness :
  In (Subscription.mk 1 2 1 4) (subscriptions social_db) /\
  (2 <> 1 /\ user_exists social_db 2 = true /\ user_exists social_db 1 = true).
Proof.
  assert (In (Subscription.mk 1 2 1 4) (subscriptions social_db)) as H
    by (vm_compute; left; reflexivity).
  split; [exact H|].
  exact (no_subscription_to_oneself sample_get_password_hash sample_verify_password
           sample_create_access_token sample_decode_token social_requests
           (Subscription.mk 1 2 1 4) H).
Defined.

Lemma likes_reference_rows_witness :
  In (VideoLike.mk 1 2 1 3) (video_likes social_db) /\
  (user_exists social_db 2 = true /\ video_exists social_db 1 = true).
Proof.
  assert (In (VideoLike.mk 1 2 1 3) (video_likes social_db)) as H
    by (vm_compute; left; reflexivity).
  split; [exact H|].
  exact (likes_reference_rows sample_get_password_hash sample_verify_password
           sample_create_access_token sample_decode_token social_requests
           (VideoLike.mk 1 2 1 3) H).
Defined.

Lemma comments_reference_rows_witness :
  In (Comment.mk 1 "Scary" 5 2 1) (comments social_db) /\
  (user_exists social_db 2 = true /\ video_exists social_db 1 = true /\
   (1 <= String.length "Scary" <= 500)%nat).
Proof.
  assert (In (Comment.mk 1 "Scary" 5 2 1) (comments social_db)) as H
    by (vm_compute; left; reflexivity).
  split; [exact H|].
  exact (comments_reference_rows sample_get_password_hash sample_verify_password
           sample_create_access_token sample_decode_token social_requests
           (Comment.mk 1 "Scary" 5 2 1) H).
Defined.


(** [refused_credentials_stop_the_request]: a comment with an empty
    content and no credential. *)
Lemma refused_credentials_stop_the_request_witness :
  answer sample_get_password_hash sample_verify_password sample_create_access_token
    sample_decode_token (mkEnv 9 "") (POST_videos_id_comments None 1 (CommentCreate.mk ""))
    horror_db
  = (Raise (HTTPException status.HTTP_401_UNAUTHORIZED "Not authenticated"), horror_db).
Proof.
  apply (refused_credentials_stop_the_request sample_get_password_hash
           sample_verify_password sample_create_access_token sample_decode_token
           (mkEnv 9 "") (POST_videos_id_comments None 1 (CommentCreate.mk "")) None
           horror_db); reflexivity.
Defined.

(** [comments_and_subscriptions_are_write_only]: the first page of the
    listing, with and without bob's comment and subscription. *)
Lemma comments_and_subscriptions_are_write_only_witness :
  fst (answer sample_get_password_hash sample_verify_password sample_create_access_token
         sample_decode_token (mkEnv 9 "") (GET_videos 0 10)
         (set_comments (set_subscriptions horror_db [Subscription.mk 1 2 1 4])
            [Comment.mk 1 "Scary" 5 2 1])) =
  fst (answer sample_get_password_hash sample_verify_password sample_create_access_token
         sample_decode_token (mkEnv 9 "") (GET_videos 0 10) horror_db).
Proof.
  apply (comments_and_subscriptions_are_write_only sample_get_password_hash
           sample_verify_password sample_create_access_token sample_decode_token
           (mkEnv 9 "") (GET_videos 0 10) horror_db [Comment.mk 1 "Scary" 5 2 1]
           [Subscription.mk 1 2 1 4]).
  reflexivity.
Defined.
